(** * x402 Task Board: the task lifecycle of [src/index.ts]

    A shallow embedding of the Cloudflare Worker in [src/index.ts] and of the
    D1 schema that comes with it.  The database is a record of four tables
    and every SQL statement the worker prepares is one function on that
    record.

    The worker awaits its statements one by one, and the statements of two
    requests can alternate.  The development therefore has two layers.  The
    route functions ([create_task], [place_bid], ... and [fetch]) run the
    statements of one request back to back: they say what a request does when
    no statement of another request falls between its own and none throws.
    The statement layer ([start], [advance], [thrown] and the relation
    [sys_step]) runs one awaited statement or batch at a time, lets requests
    overlap, and lets any statement throw; [run_alone_fetch] shows that the
    statements of a request, run back to back, are its route function.

    A request body is the parsed JSON object, with addresses and texts as
    strings and amounts and ids as integers.  The wall-clock columns
    ([created_at], [updated_at], [first_seen]) are left out of the rows. *)

From stdpp Require Import gmap strings list fin_maps pretty.

Local Open Scope string_scope.
Local Open Scope Z_scope.

(** ** Rows *)

(** The values the [CHECK] constraints of the schema allow in
    [tasks.status] and [bids.status]. *)
Inductive task_status :=
  | Open | Assigned | Submitted | Verified | Paid | Disputed | Cancelled.

Inductive bid_status :=
  | Pending | Accepted | Rejected | Withdrawn.

#[global] Instance task_status_eq_dec : EqDecision task_status.
Proof. solve_decision. Defined.

#[global] Instance bid_status_eq_dec : EqDecision bid_status.
Proof. solve_decision. Defined.

(** The text stored in the [status] column. *)
Definition status_text (s : task_status) : string :=
  match s with
  | Open => "open"
  | Assigned => "assigned"
  | Submitted => "submitted"
  | Verified => "verified"
  | Paid => "paid"
  | Disputed => "disputed"
  | Cancelled => "cancelled"
  end.

(** A row of [tasks], as [CREATE TABLE tasks] of the schema lists its
    columns, without [id] (the key of the table) and the two time stamps. *)
Record Task := {
  task_poster : string;
  task_title : string;
  task_description : string;
  task_bounty_sats : Z;
  task_status_of : task_status;
  task_tags : option string;
  task_deadline : option string;
  task_worker : option string;
  task_proof_url : option string;
  task_proof_description : option string;
  task_payment_tx : option string;
  task_poster_signature : option string;
}.

(** A row of [bids], without [id] and [created_at]. *)
Record Bid := {
  bid_task_id : Z;
  bid_bidder : string;
  bid_amount_sats : Z;
  bid_message : option string;
  bid_status_of : bid_status;
  bid_bidder_signature : option string;
}.

(** A row of [agents], without [btc_address] (the key of the table) and
    [first_seen]. *)
Record Agent := {
  display_name : option string;
  stx_address : option string;
  reputation : Z;
  tasks_posted : Z;
  tasks_completed : Z;
  total_earned_sats : Z;
  total_spent_sats : Z;
}.

(** A row of [activity], without [id] and [created_at]. *)
Record Activity := {
  act_task_id : Z;
  actor : string;
  action : string;
  details : string;
}.

(** The four tables.  [tasks] and [bids] are keyed by their integer [id],
    [agents] by [btc_address]; [activity] is only ever appended to. *)
Record DB := {
  tasks : gmap Z Task;
  bids : gmap Z Bid;
  agents : gmap string Agent;
  activity : list Activity;
}.

Definition empty_db : DB :=
  {| tasks := ∅; bids := ∅; agents := ∅; activity := [] |}.

(** ** Request bodies and responses *)

(** [body.timestamp]: the text sent, and what [new Date(text).getTime()]
    yields for it ([None] stands for NaN). *)
Record Timestamp := {
  ts_text : string;
  ts_time : option Z;
}.

(** The JSON body of a write request; a missing key is [None]. *)
Record Body := {
  poster : option string;
  bidder : option string;
  worker : option string;
  title : option string;
  description : option string;
  bounty_sats : option Z;
  tags : option string;
  deadline : option string;
  poster_name : option string;
  poster_stx : option string;
  amount_sats : option Z;
  message : option string;
  bidder_name : option string;
  bidder_stx : option string;
  bid_id : option Z;
  proof_url : option string;
  approved : option bool;
  payment_tx : option string;
  reason : option string;
  signature : option string;
  timestamp : option Timestamp;
}.

Inductive Payload :=
  | ErrorBody (error : string)
  | TaskCreated (task_id : Z)
  | BidCreated (bid_id : Z)
  | WorkerAssigned (w : string)
  | Success
  | StatusReport (status : string).

Record Response := {
  resp_code : Z;
  resp_body : Payload;
}.

Definition json (data : Payload) (status : Z) : Response :=
  {| resp_code := status; resp_body := data |}.

(** JavaScript truthiness of an optional string or number: [x || null]. *)
Definition or_null (x : option string) : option string :=
  match x with
  | Some s => if decide (s = "") then None else Some s
  | None => None
  end.

Definition num_or_null (x : option Z) : option Z :=
  match x with
  | Some n => if decide (n = 0) then None else Some n
  | None => None
  end.

Inductive AddressField := FPoster | FBidder | FWorker.

Definition body_address (f : AddressField) (body : Body) : option string :=
  match f with
  | FPoster => poster body
  | FBidder => bidder body
  | FWorker => worker body
  end.

Definition address_field_name (f : AddressField) : string :=
  match f with
  | FPoster => "poster"
  | FBidder => "bidder"
  | FWorker => "worker"
  end.

(** [s.length] of a JavaScript string is its number of UTF-16 code units.
    A text is held here as its UTF-8 bytes: a byte below 0x80 and the first
    byte of a sequence of two or three bytes each start a character of one
    code unit, the first byte of a sequence of four bytes starts a character
    of two (a surrogate pair), and a continuation byte (0x80 to 0xBF) adds
    none. *)
Definition utf16_units (c : Ascii.ascii) : nat :=
  let n := Ascii.nat_of_ascii c in
  if (n <? 128)%nat then 1%nat
  else if (n <? 192)%nat then 0%nat
  else if (n <? 240)%nat then 1%nat
  else 2%nat.

Fixpoint js_length (s : string) : nat :=
  match s with
  | EmptyString => 0%nat
  | String c rest => (utf16_units c + js_length rest)%nat
  end.

(** [validateAuth]: [None] when the envelope is accepted, otherwise the
    error text.  The store to [body._signedMessage] is never read back and is
    not modelled. *)
Definition validateAuth (now : Z) (body : Body) (act : string)
    (addressField : AddressField) : option string :=
  match or_null (body_address addressField body) with
  | None => Some ("Required: " +:+ address_field_name addressField)
  | Some _ =>
    match or_null (signature body) with
    | None => Some "Required: signature (BIP-137 signed message)"
    | Some sig =>
      match timestamp body with
      | None => Some "Required: timestamp (ISO 8601)"
      | Some t =>
        if decide (ts_text t = "") then Some "Required: timestamp (ISO 8601)"
        else if (Z.of_nat (js_length sig) <? 80)
                || (100 <? Z.of_nat (js_length sig))
        then Some "Invalid signature format (expected base64 BIP-137, ~88 chars)"
        else
          match ts_time t with
          | None => Some "Invalid timestamp format"
          | Some ts =>
            if 300000 <? Z.abs (now - ts)
            then Some "Timestamp expired (must be within 300 seconds of server time)"
            else None
          end
      end
    end
  end.

(** ** The SQL layer *)

Section sql.
Context {K : Type} `{Countable K} {A : Type}.

(** [UPDATE t SET ... WHERE ...]: every row selected by [wh] is replaced
    by its image under [set]. *)
Definition sql_update (wh : K → A → bool) (set : A → A)
    (m : gmap K A) : gmap K A :=
  map_imap (λ k a, Some (if wh k a then set a else a)) m.

(** [meta.changes] of that statement: the number of rows selected. *)
Definition sql_changes (wh : K → A → bool) (m : gmap K A) : nat :=
  size (filter (λ kv : K * A, wh kv.1 kv.2 = true) m).
End sql.

(** [id INTEGER PRIMARY KEY AUTOINCREMENT] of the schema ([tasks], [bids]):
    an [INSERT] gives the new row one more than the largest id the table
    ever held, 1 in a table that never held a row.  No statement of the
    worker deletes a row, so the largest id the table ever held is the
    largest id in it.  (SQLite may skip an id after an [INSERT] that failed;
    a statement that throws writes nothing here.) *)
Definition next_rowid {A : Type} (m : gmap Z A) : Z :=
  1 + map_fold (λ k _ acc, Z.max k acc) 0 m.

(** The rows the [INSERT] statements create.  The columns an [INSERT] does
    not list take the default of the schema: [tasks.status] is
    [DEFAULT 'open']; [worker], [proof_url], [proof_description] and
    [payment_tx] have no default and are null. *)
Definition new_task (p ti de : string) (bo : Z) (tg dl sg : option string) : Task :=
  {| task_poster := p; task_title := ti; task_description := de;
     task_bounty_sats := bo; task_status_of := Open; task_tags := tg;
     task_deadline := dl; task_worker := None; task_proof_url := None;
     task_proof_description := None; task_payment_tx := None;
     task_poster_signature := sg |}.

(** [bids.status] is [DEFAULT 'pending']. *)
Definition new_bid (id : Z) (b : string) (amt : Z) (msg sg : option string) : Bid :=
  {| bid_task_id := id; bid_bidder := b; bid_amount_sats := amt;
     bid_message := msg; bid_status_of := Pending;
     bid_bidder_signature := sg |}.

(** The five counters of [agents] are [INTEGER NOT NULL DEFAULT 0]. *)
Definition new_agent (dn stx : option string) : Agent :=
  {| display_name := dn; stx_address := stx; reputation := 0;
     tasks_posted := 0; tasks_completed := 0; total_earned_sats := 0;
     total_spent_sats := 0 |}.

Definition coalesce (x y : option string) : option string :=
  match x with Some _ => x | None => y end.

(** [ensureAgent]: insert, or on a conflicting [btc_address] keep the row
    and overwrite the two name columns only where a value was given. *)
Definition ensureAgent (db : DB) (btcAddress : string)
    (displayName stxAddress : option string) : DB :=
  let dn := or_null displayName in
  let stx := or_null stxAddress in
  let row :=
    match agents db !! btcAddress with
    | None => new_agent dn stx
    | Some a =>
      {| display_name := coalesce dn (display_name a);
         stx_address := coalesce stx (stx_address a);
         reputation := reputation a; tasks_posted := tasks_posted a;
         tasks_completed := tasks_completed a;
         total_earned_sats := total_earned_sats a;
         total_spent_sats := total_spent_sats a |}
    end in
  {| tasks := tasks db; bids := bids db;
     agents := <[btcAddress := row]> (agents db); activity := activity db |}.

(** [INSERT INTO activity (task_id, actor, action, details)]. *)
Definition log_activity (id : Z) (who what info : string)
    (log : list Activity) : list Activity :=
  log ++ [ {| act_task_id := id; actor := who; action := what; details := info |} ].

(** [WHERE id = ?] and [WHERE btc_address = ?]; a null parameter selects
    nothing. *)
Definition with_id {A : Type} (id : Z) : Z → A → bool :=
  λ k _, bool_decide (k = id).

Definition with_address (addr : option string) : string → Agent → bool :=
  λ k _, bool_decide (Some k = addr).

(** ** The [SET] clauses *)

Definition set_task_status (s : task_status) (t : Task) : Task :=
  {| task_poster := task_poster t; task_title := task_title t;
     task_description := task_description t;
     task_bounty_sats := task_bounty_sats t; task_status_of := s;
     task_tags := task_tags t; task_deadline := task_deadline t;
     task_worker := task_worker t; task_proof_url := task_proof_url t;
     task_proof_description := task_proof_description t;
     task_payment_tx := task_payment_tx t;
     task_poster_signature := task_poster_signature t |}.

(** [SET status = ?, worker = ?, bounty_sats = ?] *)
Definition set_task_assignment (s : task_status) (w : string) (amt : Z)
    (t : Task) : Task :=
  {| task_poster := task_poster t; task_title := task_title t;
     task_description := task_description t;
     task_bounty_sats := amt; task_status_of := s;
     task_tags := task_tags t; task_deadline := task_deadline t;
     task_worker := Some w; task_proof_url := task_proof_url t;
     task_proof_description := task_proof_description t;
     task_payment_tx := task_payment_tx t;
     task_poster_signature := task_poster_signature t |}.

(** [SET status = ?, proof_url = ?, proof_description = ?] *)
Definition set_task_proof (s : task_status) (url : string)
    (descr : option string) (t : Task) : Task :=
  {| task_poster := task_poster t; task_title := task_title t;
     task_description := task_description t;
     task_bounty_sats := task_bounty_sats t; task_status_of := s;
     task_tags := task_tags t; task_deadline := task_deadline t;
     task_worker := task_worker t; task_proof_url := Some url;
     task_proof_description := descr;
     task_payment_tx := task_payment_tx t;
     task_poster_signature := task_poster_signature t |}.

(** [SET status = ?, payment_tx = ?] *)
Definition set_task_payment (s : task_status) (tx : option string)
    (t : Task) : Task :=
  {| task_poster := task_poster t; task_title := task_title t;
     task_description := task_description t;
     task_bounty_sats := task_bounty_sats t; task_status_of := s;
     task_tags := task_tags t; task_deadline := task_deadline t;
     task_worker := task_worker t; task_proof_url := task_proof_url t;
     task_proof_description := task_proof_description t;
     task_payment_tx := tx;
     task_poster_signature := task_poster_signature t |}.

Definition set_bid_status (s : bid_status) (b : Bid) : Bid :=
  {| bid_task_id := bid_task_id b; bid_bidder := bid_bidder b;
     bid_amount_sats := bid_amount_sats b; bid_message := bid_message b;
     bid_status_of := s; bid_bidder_signature := bid_bidder_signature b |}.

(** [SET tasks_posted = tasks_posted + 1,
        total_spent_sats = total_spent_sats + ?] *)
Definition agent_posted (bo : Z) (a : Agent) : Agent :=
  {| display_name := display_name a; stx_address := stx_address a;
     reputation := reputation a; tasks_posted := tasks_posted a + 1;
     tasks_completed := tasks_completed a;
     total_earned_sats := total_earned_sats a;
     total_spent_sats := total_spent_sats a + bo |}.

(** [SET tasks_completed = tasks_completed + 1,
        total_earned_sats = total_earned_sats + ?,
        reputation = reputation + 1] *)
Definition agent_completed (bo : Z) (a : Agent) : Agent :=
  {| display_name := display_name a; stx_address := stx_address a;
     reputation := reputation a + 1; tasks_posted := tasks_posted a;
     tasks_completed := tasks_completed a + 1;
     total_earned_sats := total_earned_sats a + bo;
     total_spent_sats := total_spent_sats a |}.

(** [SET reputation = reputation + 1] *)
Definition agent_reputed (a : Agent) : Agent :=
  {| display_name := display_name a; stx_address := stx_address a;
     reputation := reputation a + 1; tasks_posted := tasks_posted a;
     tasks_completed := tasks_completed a;
     total_earned_sats := total_earned_sats a;
     total_spent_sats := total_spent_sats a |}.

(** [SET total_spent_sats = total_spent_sats - ?] *)
Definition agent_refunded (bo : Z) (a : Agent) : Agent :=
  {| display_name := display_name a; stx_address := stx_address a;
     reputation := reputation a; tasks_posted := tasks_posted a;
     tasks_completed := tasks_completed a;
     total_earned_sats := total_earned_sats a;
     total_spent_sats := total_spent_sats a - bo |}.

(** ** The write routes of [fetch]

    Each route function runs the statements of one request back to back, as
    the worker does when no statement of another request falls between them
    and none throws ([run_alone_fetch]).  The statements one at a time, with
    the 500 answer of the create route, are [start], [advance] and [thrown]
    below. *)

(** [POST /api/tasks] *)
Definition create_task (now : Z) (body : Body) (db : DB) : Response * DB :=
  match or_null (poster body), or_null (title body),
        or_null (description body), num_or_null (bounty_sats body) with
  | Some p, Some ti, Some de, Some bo =>
    if bo <? 1 then
      (json (ErrorBody "bounty_sats must be positive") 400, db)
    else
      match validateAuth now body "create_task" FPoster with
      | Some authErr => (json (ErrorBody authErr) 401, db)
      | None =>
        let db1 := ensureAgent db p (poster_name body) (poster_stx body) in
        let last_row_id := next_rowid (tasks db1) in
        let tasks2 :=
          <[last_row_id :=
              new_task p ti de bo (or_null (tags body))
                (or_null (deadline body)) (or_null (signature body))]>
            (tasks db1) in
        let agents3 :=
          sql_update (with_address (Some p)) (agent_posted bo) (agents db1) in
        let activity4 :=
          log_activity last_row_id p "created"
            ("Bounty: " +:+ pretty bo +:+ " sats") (activity db1) in
        (json (TaskCreated last_row_id) 201,
         {| tasks := tasks2; bids := bids db1; agents := agents3;
            activity := activity4 |})
      end
  | _, _, _, _ =>
    (json (ErrorBody "Required: poster, title, description, bounty_sats") 400, db)
  end.

(** [POST /api/tasks/:id/bid] *)
Definition place_bid (now : Z) (id : Z) (body : Body) (db : DB) : Response * DB :=
  match or_null (bidder body), num_or_null (amount_sats body) with
  | Some b, Some amt =>
    match validateAuth now body "bid" FBidder with
    | Some authErr => (json (ErrorBody authErr) 401, db)
    | None =>
      match tasks db !! id with
      | None => (json (ErrorBody "Task not found") 404, db)
      | Some task =>
        if negb (bool_decide (task_status_of task = Open)) then
          (json (ErrorBody "Task is not open for bids") 400, db)
        else if bool_decide (task_poster task = b) then
          (json (ErrorBody "Cannot bid on your own task") 400, db)
        else
          let db1 := ensureAgent db b (bidder_name body) (bidder_stx body) in
          let last_row_id := next_rowid (bids db1) in
          let bids2 :=
            <[last_row_id :=
                new_bid id b amt (or_null (message body))
                  (or_null (signature body))]> (bids db1) in
          let activity3 :=
            log_activity id b "bid"
              (pretty amt +:+ " sats: " +:+ default "" (or_null (message body)))
              (activity db1) in
          (json (BidCreated last_row_id) 201,
           {| tasks := tasks db1; bids := bids2; agents := agents db1;
              activity := activity3 |})
      end
    end
  | _, _ => (json (ErrorBody "Required: bidder, amount_sats") 400, db)
  end.

(** [SELECT * FROM bids WHERE id = ? AND task_id = ?] *)
Definition select_bid (bid : Z) (id : Z) (db : DB) : option Bid :=
  match bids db !! bid with
  | Some b => if bool_decide (bid_task_id b = id) then Some b else None
  | None => None
  end.

(** The guard of the conditional update of the accept route:
    [WHERE id = ? AND status = ? AND poster = ?]. *)
Definition accept_guard (id : Z) (s : task_status) (p : string) : Z → Task → bool :=
  λ k t, bool_decide (k = id) && bool_decide (task_status_of t = s)
         && bool_decide (task_poster t = p).

(** The batch that follows a confirmed update: accept the bid, reject its
    pending siblings, log. *)
Definition accept_cascade (id : Z) (p : string) (bid_key : Z) (bid : Bid)
    (db : DB) : DB :=
  let bids1 := sql_update (with_id bid_key) (set_bid_status Accepted) (bids db) in
  let bids2 :=
    sql_update
      (λ k b, bool_decide (bid_task_id b = id) && negb (bool_decide (k = bid_key))
              && bool_decide (bid_status_of b = Pending))
      (set_bid_status Rejected) bids1 in
  let activity3 :=
    log_activity id p "accepted_bid"
      ("Assigned to " +:+ bid_bidder bid +:+ " for "
         +:+ pretty (bid_amount_sats bid) +:+ " sats") (activity db) in
  {| tasks := tasks db; bids := bids2; agents := agents db; activity := activity3 |}.

#[global] Arguments accept_cascade : simpl never.

(** [POST /api/tasks/:id/accept] *)
Definition accept_bid (now : Z) (id : Z) (body : Body) (db : DB) : Response * DB :=
  match or_null (poster body), num_or_null (bid_id body) with
  | Some p, Some bid_key =>
    match validateAuth now body "accept_bid" FPoster with
    | Some authErr => (json (ErrorBody authErr) 401, db)
    | None =>
      match select_bid bid_key id db with
      | None => (json (ErrorBody "Bid not found") 404, db)
      | Some bid =>
        let guard := accept_guard id Open p in
        let changes := sql_changes guard (tasks db) in
        let db1 :=
          {| tasks :=
               sql_update guard
                 (set_task_assignment Assigned (bid_bidder bid) (bid_amount_sats bid))
                 (tasks db);
             bids := bids db; agents := agents db; activity := activity db |} in
        if bool_decide (changes = 0%nat) then
          (json (ErrorBody "Task already accepted or not open, or not your task") 409,
           db1)
        else
          (json (WorkerAssigned (bid_bidder bid)) 200,
           accept_cascade id p bid_key bid db1)
      end
    end
  | _, _ => (json (ErrorBody "Required: poster, bid_id") 400, db)
  end.

(** [POST /api/tasks/:id/submit] *)
Definition submit_work (now : Z) (id : Z) (body : Body) (db : DB) : Response * DB :=
  match or_null (worker body), or_null (proof_url body) with
  | Some w, Some url =>
    match validateAuth now body "submit" FWorker with
    | Some authErr => (json (ErrorBody authErr) 401, db)
    | None =>
      match tasks db !! id with
      | None => (json (ErrorBody "Task not found") 404, db)
      | Some task =>
        if negb (bool_decide (task_worker task = Some w)) then
          (json (ErrorBody "Only the assigned worker can submit") 403, db)
        else if negb (bool_decide (task_status_of task = Assigned)) then
          (json (ErrorBody "Task is not in assigned state") 400, db)
        else
          (json Success 200,
           {| tasks :=
                sql_update (with_id id)
                  (set_task_proof Submitted url (or_null (description body)))
                  (tasks db);
              bids := bids db; agents := agents db;
              activity := log_activity id w "submitted" url (activity db) |})
      end
    end
  | _, _ => (json (ErrorBody "Required: worker, proof_url") 400, db)
  end.

(** [POST /api/tasks/:id/verify] *)
Definition verify_work (now : Z) (id : Z) (body : Body) (db : DB) : Response * DB :=
  match or_null (poster body), approved body with
  | Some p, Some ok =>
    match validateAuth now body "verify" FPoster with
    | Some authErr => (json (ErrorBody authErr) 401, db)
    | None =>
      match tasks db !! id with
      | None => (json (ErrorBody "Task not found") 404, db)
      | Some task =>
        if negb (bool_decide (task_poster task = p)) then
          (json (ErrorBody "Only the poster can verify") 403, db)
        else if negb (bool_decide (task_status_of task = Submitted)) then
          (json (ErrorBody "Task work not submitted yet") 400, db)
        else
          let db1 :=
            if ok then
              let newStatus :=
                match or_null (payment_tx body) with
                | Some _ => Paid
                | None => Verified
                end in
              {| tasks :=
                   sql_update (with_id id)
                     (set_task_payment newStatus (or_null (payment_tx body)))
                     (tasks db);
                 bids := bids db;
                 agents :=
                   sql_update (with_address (Some (task_poster task))) agent_reputed
                     (sql_update (with_address (task_worker task))
                        (agent_completed (task_bounty_sats task)) (agents db));
                 activity :=
                   log_activity id p "verified"
                     ("Approved. " +:+
                        match or_null (payment_tx body) with
                        | Some tx => "Paid: " +:+ tx
                        | None => "Awaiting payment."
                        end) (activity db) |}
            else
              {| tasks := sql_update (with_id id) (set_task_status Disputed) (tasks db);
                 bids := bids db; agents := agents db;
                 activity :=
                   log_activity id p "disputed"
                     (default "Work not satisfactory" (or_null (reason body)))
                     (activity db) |} in
          (json (StatusReport (if ok then "verified" else "disputed")) 200, db1)
      end
    end
  | _, _ => (json (ErrorBody "Required: poster, approved (true/false)") 400, db)
  end.

(** [PATCH /api/tasks/:id/cancel] *)
Definition cancel_task (now : Z) (id : Z) (body : Body) (db : DB) : Response * DB :=
  match or_null (poster body) with
  | Some p =>
    match validateAuth now body "cancel" FPoster with
    | Some authErr => (json (ErrorBody authErr) 401, db)
    | None =>
      match tasks db !! id with
      | None => (json (ErrorBody "Task not found") 404, db)
      | Some task =>
        if negb (bool_decide (task_poster task = p)) then
          (json (ErrorBody "Only the poster can cancel") 403, db)
        else if negb (bool_decide (task_status_of task = Open)) then
          (json (ErrorBody "Can only cancel open tasks") 400, db)
        else
          (json Success 200,
           {| tasks := sql_update (with_id id) (set_task_status Cancelled) (tasks db);
              bids := bids db;
              agents :=
                sql_update (with_address (Some p))
                  (agent_refunded (task_bounty_sats task)) (agents db);
              activity := log_activity id p "cancelled" "Task cancelled" (activity db) |})
      end
    end
  | None => (json (ErrorBody "Required: poster") 400, db)
  end.

(** The write requests [fetch] routes, with the [:id] of the path.  The
    [GET] routes only read the tables and are not part of the state
    machine. *)
Inductive Request :=
  | PostTask (body : Body)
  | PostBid (id : Z) (body : Body)
  | PostAccept (id : Z) (body : Body)
  | PostSubmit (id : Z) (body : Body)
  | PostVerify (id : Z) (body : Body)
  | PatchCancel (id : Z) (body : Body).

Definition fetch (now : Z) (request : Request) (db : DB) : Response * DB :=
  match request with
  | PostTask body => create_task now body db
  | PostBid id body => place_bid now id body db
  | PostAccept id body => accept_bid now id body db
  | PostSubmit id body => submit_work now id body db
  | PostVerify id body => verify_work now id body db
  | PatchCancel id body => cancel_task now id body db
  end.

(** The databases the service reaches when no two requests overlap and no
    statement throws: the empty database, and whatever a request served at
    some time [now] leaves behind.  [sys_reachable] below drops both
    restrictions, and [reachable_sys_reachable] shows that it contains these
    databases. *)
Inductive reachable : DB → Prop :=
  | reachable_empty : reachable empty_db
  | reachable_fetch now request db :
      reachable db → reachable (fetch now request db).2.

(** ** The statements of a route, one at a time

    The worker awaits every statement, so between two statements of one
    request the statements of other requests can run.  A request that has
    been received and has not answered yet is in flight: it waits for its
    next statement, holding what it read and computed so far.  A batch
    ([env.DB.batch]) is one statement: D1 runs it as one transaction. *)

Inductive Inflight :=
  | CreateChecked (body : Body) (p ti de : string) (bo : Z)
  | CreateEnsured (body : Body) (p ti de : string) (bo : Z)
  | CreateInserted (p : string) (bo : Z) (last_row_id : Z)
  | CreateCounted (p : string) (bo : Z) (last_row_id : Z)
  | BidChecked (id : Z) (body : Body) (b : string) (amt : Z)
  | BidEnsured (id : Z) (body : Body) (b : string) (amt : Z)
  | BidInserted (id : Z) (body : Body) (b : string) (amt : Z) (last_row_id : Z)
  | AcceptFound (id : Z) (p : string) (bid_key : Z) (bid : Bid)
  | AcceptUpdated (id : Z) (p : string) (bid_key : Z) (bid : Bid)
  | SubmitChecked (id : Z) (body : Body) (w url : string)
  | VerifyChecked (id : Z) (body : Body) (p : string) (ok : bool) (task : Task)
  | CancelChecked (id : Z) (p : string) (task : Task).

(** The part of a route before its first write: the checks of the body, the
    [SELECT] of the route and the checks of the row it read.  It answers a
    refusal, or leaves the request in flight before its first write.  It
    writes nothing. *)
Definition start_create (now : Z) (body : Body) : Response + Inflight :=
  match or_null (poster body), or_null (title body),
        or_null (description body), num_or_null (bounty_sats body) with
  | Some p, Some ti, Some de, Some bo =>
    if bo <? 1 then inl (json (ErrorBody "bounty_sats must be positive") 400)
    else
      match validateAuth now body "create_task" FPoster with
      | Some authErr => inl (json (ErrorBody authErr) 401)
      | None => inr (CreateChecked body p ti de bo)
      end
  | _, _, _, _ =>
    inl (json (ErrorBody "Required: poster, title, description, bounty_sats") 400)
  end.

Definition start_bid (now : Z) (id : Z) (body : Body) (db : DB)
    : Response + Inflight :=
  match or_null (bidder body), num_or_null (amount_sats body) with
  | Some b, Some amt =>
    match validateAuth now body "bid" FBidder with
    | Some authErr => inl (json (ErrorBody authErr) 401)
    | None =>
      match tasks db !! id with
      | None => inl (json (ErrorBody "Task not found") 404)
      | Some task =>
        if negb (bool_decide (task_status_of task = Open)) then
          inl (json (ErrorBody "Task is not open for bids") 400)
        else if bool_decide (task_poster task = b) then
          inl (json (ErrorBody "Cannot bid on your own task") 400)
        else inr (BidChecked id body b amt)
      end
    end
  | _, _ => inl (json (ErrorBody "Required: bidder, amount_sats") 400)
  end.

Definition start_accept (now : Z) (id : Z) (body : Body) (db : DB)
    : Response + Inflight :=
  match or_null (poster body), num_or_null (bid_id body) with
  | Some p, Some bid_key =>
    match validateAuth now body "accept_bid" FPoster with
    | Some authErr => inl (json (ErrorBody authErr) 401)
    | None =>
      match select_bid bid_key id db with
      | None => inl (json (ErrorBody "Bid not found") 404)
      | Some bid => inr (AcceptFound id p bid_key bid)
      end
    end
  | _, _ => inl (json (ErrorBody "Required: poster, bid_id") 400)
  end.

Definition start_submit (now : Z) (id : Z) (body : Body) (db : DB)
    : Response + Inflight :=
  match or_null (worker body), or_null (proof_url body) with
  | Some w, Some url =>
    match validateAuth now body "submit" FWorker with
    | Some authErr => inl (json (ErrorBody authErr) 401)
    | None =>
      match tasks db !! id with
      | None => inl (json (ErrorBody "Task not found") 404)
      | Some task =>
        if negb (bool_decide (task_worker task = Some w)) then
          inl (json (ErrorBody "Only the assigned worker can submit") 403)
        else if negb (bool_decide (task_status_of task = Assigned)) then
          inl (json (ErrorBody "Task is not in assigned state") 400)
        else inr (SubmitChecked id body w url)
      end
    end
  | _, _ => inl (json (ErrorBody "Required: worker, proof_url") 400)
  end.

Definition start_verify (now : Z) (id : Z) (body : Body) (db : DB)
    : Response + Inflight :=
  match or_null (poster body), approved body with
  | Some p, Some ok =>
    match validateAuth now body "verify" FPoster with
    | Some authErr => inl (json (ErrorBody authErr) 401)
    | None =>
      match tasks db !! id with
      | None => inl (json (ErrorBody "Task not found") 404)
      | Some task =>
        if negb (bool_decide (task_poster task = p)) then
          inl (json (ErrorBody "Only the poster can verify") 403)
        else if negb (bool_decide (task_status_of task = Submitted)) then
          inl (json (ErrorBody "Task work not submitted yet") 400)
        else inr (VerifyChecked id body p ok task)
      end
    end
  | _, _ => inl (json (ErrorBody "Required: poster, approved (true/false)") 400)
  end.

Definition start_cancel (now : Z) (id : Z) (body : Body) (db : DB)
    : Response + Inflight :=
  match or_null (poster body) with
  | Some p =>
    match validateAuth now body "cancel" FPoster with
    | Some authErr => inl (json (ErrorBody authErr) 401)
    | None =>
      match tasks db !! id with
      | None => inl (json (ErrorBody "Task not found") 404)
      | Some task =>
        if negb (bool_decide (task_poster task = p)) then
          inl (json (ErrorBody "Only the poster can cancel") 403)
        else if negb (bool_decide (task_status_of task = Open)) then
          inl (json (ErrorBody "Can only cancel open tasks") 400)
        else inr (CancelChecked id p task)
      end
    end
  | None => inl (json (ErrorBody "Required: poster") 400)
  end.

Definition start (now : Z) (request : Request) (db : DB) : Response + Inflight :=
  match request with
  | PostTask body => start_create now body
  | PostBid id body => start_bid now id body db
  | PostAccept id body => start_accept now id body db
  | PostSubmit id body => start_submit now id body db
  | PostVerify id body => start_verify now id body db
  | PatchCancel id body => start_cancel now id body db
  end.

(** The next awaited write of a request in flight, on the database as it
    is when the statement runs: the database it leaves, and either the
    request in flight before its next statement or its answer.  The rows the
    request read earlier ([task] of a verify or cancel, [bid] of an accept)
    are used as they were read. *)
Definition advance (f : Inflight) (db : DB) : DB * (Inflight + Response) :=
  match f with
  | CreateChecked body p ti de bo =>
    (ensureAgent db p (poster_name body) (poster_stx body),
     inl (CreateEnsured body p ti de bo))
  | CreateEnsured body p ti de bo =>
    let last_row_id := next_rowid (tasks db) in
    ({| tasks :=
          <[last_row_id :=
              new_task p ti de bo (or_null (tags body))
                (or_null (deadline body)) (or_null (signature body))]>
            (tasks db);
        bids := bids db; agents := agents db; activity := activity db |},
     inl (CreateInserted p bo last_row_id))
  | CreateInserted p bo last_row_id =>
    ({| tasks := tasks db; bids := bids db;
        agents := sql_update (with_address (Some p)) (agent_posted bo) (agents db);
        activity := activity db |},
     inl (CreateCounted p bo last_row_id))
  | CreateCounted p bo last_row_id =>
    ({| tasks := tasks db; bids := bids db; agents := agents db;
        activity :=
          log_activity last_row_id p "created"
            ("Bounty: " +:+ pretty bo +:+ " sats") (activity db) |},
     inr (json (TaskCreated last_row_id) 201))
  | BidChecked id body b amt =>
    (ensureAgent db b (bidder_name body) (bidder_stx body),
     inl (BidEnsured id body b amt))
  | BidEnsured id body b amt =>
    let last_row_id := next_rowid (bids db) in
    ({| tasks := tasks db;
        bids :=
          <[last_row_id :=
              new_bid id b amt (or_null (message body))
                (or_null (signature body))]> (bids db);
        agents := agents db; activity := activity db |},
     inl (BidInserted id body b amt last_row_id))
  | BidInserted id body b amt last_row_id =>
    ({| tasks := tasks db; bids := bids db; agents := agents db;
        activity :=
          log_activity id b "bid"
            (pretty amt +:+ " sats: " +:+ default "" (or_null (message body)))
            (activity db) |},
     inr (json (BidCreated last_row_id) 201))
  | AcceptFound id p bid_key bid =>
    let guard := accept_guard id Open p in
    let changes := sql_changes guard (tasks db) in
    let db1 :=
      {| tasks :=
           sql_update guard
             (set_task_assignment Assigned (bid_bidder bid) (bid_amount_sats bid))
             (tasks db);
         bids := bids db; agents := agents db; activity := activity db |} in
    if bool_decide (changes = 0%nat) then
      (db1,
       inr (json (ErrorBody "Task already accepted or not open, or not your task")
              409))
    else (db1, inl (AcceptUpdated id p bid_key bid))
  | AcceptUpdated id p bid_key bid =>
    (accept_cascade id p bid_key bid db,
     inr (json (WorkerAssigned (bid_bidder bid)) 200))
  | SubmitChecked id body w url =>
    ({| tasks :=
          sql_update (with_id id)
            (set_task_proof Submitted url (or_null (description body)))
            (tasks db);
        bids := bids db; agents := agents db;
        activity := log_activity id w "submitted" url (activity db) |},
     inr (json Success 200))
  | VerifyChecked id body p ok task =>
    (if ok then
       let newStatus :=
         match or_null (payment_tx body) with
         | Some _ => Paid
         | None => Verified
         end in
       {| tasks :=
            sql_update (with_id id)
              (set_task_payment newStatus (or_null (payment_tx body)))
              (tasks db);
          bids := bids db;
          agents :=
            sql_update (with_address (Some (task_poster task))) agent_reputed
              (sql_update (with_address (task_worker task))
                 (agent_completed (task_bounty_sats task)) (agents db));
          activity :=
            log_activity id p "verified"
              ("Approved. " +:+
                 match or_null (payment_tx body) with
                 | Some tx => "Paid: " +:+ tx
                 | None => "Awaiting payment."
                 end) (activity db) |}
     else
       {| tasks := sql_update (with_id id) (set_task_status Disputed) (tasks db);
          bids := bids db; agents := agents db;
          activity :=
            log_activity id p "disputed"
              (default "Work not satisfactory" (or_null (reason body)))
              (activity db) |},
     inr (json (StatusReport (if ok then "verified" else "disputed")) 200))
  | CancelChecked id p task =>
    ({| tasks := sql_update (with_id id) (set_task_status Cancelled) (tasks db);
        bids := bids db;
        agents :=
          sql_update (with_address (Some p))
            (agent_refunded (task_bounty_sats task)) (agents db);
        activity := log_activity id p "cancelled" "Task cancelled" (activity db) |},
     inr (json Success 200))
  end.

(** What the route answers when the statement a request waits for throws.
    Only the create route has a [try]: it answers 500.  In the other routes
    the exception leaves [fetch] and the worker gives no answer of its own.
    The statement that threw wrote nothing; the statements before it
    stay. *)
Definition thrown (f : Inflight) : option Response :=
  match f with
  | CreateChecked _ _ _ _ _ | CreateEnsured _ _ _ _ _
  | CreateInserted _ _ _ | CreateCounted _ _ _ =>
    Some (json (ErrorBody "Internal server error") 500)
  | _ => None
  end.

(** The statements a request in flight still has to run, run back to back;
    no route has more than four. *)
Fixpoint finish (fuel : nat) (f : Inflight) (db : DB) : option (Response * DB) :=
  match fuel with
  | O => None
  | S fuel' =>
    match advance f db with
    | (db', inr r) => Some (r, db')
    | (db', inl f') => finish fuel' f' db'
    end
  end.

(** A request served with no statement of another request between its own
    and none throwing. *)
Definition run_alone (now : Z) (request : Request) (db : DB)
    : option (Response * DB) :=
  match start now request db with
  | inl r => Some (r, db)
  | inr f => finish 4 f db
  end.

(** The service: the database and the requests in flight, each under the
    number it was received with. *)
Record System := {
  store : DB;
  inflight : gmap nat Inflight;
}.

Definition idle (db : DB) : System := {| store := db; inflight := ∅ |}.

(** One step of the service: a request is received and refused, or received
    and left in flight; or the statement a request in flight waits for runs,
    and the request waits for its next one or answers; or that statement
    throws and the request is gone. *)
Inductive sys_step (s : System) : System → Prop :=
  | step_refused now request r :
      start now request (store s) = inl r →
      sys_step s s
  | step_started now request f n :
      start now request (store s) = inr f →
      inflight s !! n = None →
      sys_step s {| store := store s; inflight := <[n := f]> (inflight s) |}
  | step_advanced n f db' f' :
      inflight s !! n = Some f →
      advance f (store s) = (db', inl f') →
      sys_step s {| store := db'; inflight := <[n := f']> (inflight s) |}
  | step_answered n f db' r :
      inflight s !! n = Some f →
      advance f (store s) = (db', inr r) →
      sys_step s {| store := db'; inflight := delete n (inflight s) |}
  | step_thrown n f :
      inflight s !! n = Some f →
      sys_step s {| store := store s; inflight := delete n (inflight s) |}.

(** What the service can reach from the empty database with nothing in
    flight, under any alternation of the statements of its requests. *)
Inductive sys_reachable : System → Prop :=
  | sys_reachable_idle : sys_reachable (idle empty_db)
  | sys_reachable_step s s' :
      sys_reachable s → sys_step s s' → sys_reachable s'.

(** ** Derived notions used by the properties *)

(** Whether [hay] contains [needle]. *)
Fixpoint mentions (needle hay : string) : bool :=
  String.prefix needle hay ||
  match hay with
  | EmptyString => false
  | String _ rest => mentions needle rest
  end.

(** What task [t] adds to the earnings of [a]: its bounty when [a] is the
    worker and the work was approved. *)
Definition earned_from (a : string) (t : Task) : Z :=
  if bool_decide (task_worker t = Some a)
     && (bool_decide (task_status_of t = Verified)
         || bool_decide (task_status_of t = Paid))
  then task_bounty_sats t else 0.

(** The sum of [bounty_sats] over the tasks worked by [a] whose status is
    verified or paid. *)
Definition earned_sum (a : string) (ts : gmap Z Task) : Z :=
  map_fold (λ _ t acc, earned_from a t + acc) 0 ts.

(** ** A sample session *)

(** An authentication envelope that [validateAuth] accepts at time
    [sample_now]: an 88-character signature and a fresh timestamp. *)
Definition sample_signature : string :=
  "H0123456789abcdefghijklmnopqrstuvwxyzABCDEFGHIJKLMNOPQRSTUVWXYZ0123456789abcdefghijklmn=".

Definition sample_now : Z := 1767225600000.

Definition sample_timestamp : Timestamp :=
  {| ts_text := "2026-01-01T00:00:00.000Z"; ts_time := Some 1767225600000 |}.

Definition create_body (p ti de : string) (bo : Z) : Body :=
  {| poster := Some p; bidder := None; worker := None; title := Some ti;
     description := Some de; bounty_sats := Some bo; tags := None;
     deadline := None; poster_name := None; poster_stx := None;
     amount_sats := None; message := None; bidder_name := None;
     bidder_stx := None; bid_id := None; proof_url := None; approved := None;
     payment_tx := None; reason := None;
     signature := Some sample_signature; timestamp := Some sample_timestamp |}.

Definition bid_body (b : string) (amt : Z) : Body :=
  {| poster := None; bidder := Some b; worker := None; title := None;
     description := None; bounty_sats := None; tags := None; deadline := None;
     poster_name := None; poster_stx := None; amount_sats := Some amt;
     message := None; bidder_name := None; bidder_stx := None; bid_id := None;
     proof_url := None; approved := None; payment_tx := None; reason := None;
     signature := Some sample_signature; timestamp := Some sample_timestamp |}.

Definition accept_body (p : string) (bid : Z) : Body :=
  {| poster := Some p; bidder := None; worker := None; title := None;
     description := None; bounty_sats := None; tags := None; deadline := None;
     poster_name := None; poster_stx := None; amount_sats := None;
     message := None; bidder_name := None; bidder_stx := None;
     bid_id := Some bid; proof_url := None; approved := None;
     payment_tx := None; reason := None;
     signature := Some sample_signature; timestamp := Some sample_timestamp |}.

Definition submit_body (w url : string) : Body :=
  {| poster := None; bidder := None; worker := Some w; title := None;
     description := None; bounty_sats := None; tags := None; deadline := None;
     poster_name := None; poster_stx := None; amount_sats := None;
     message := None; bidder_name := None; bidder_stx := None; bid_id := None;
     proof_url := Some url; approved := None; payment_tx := None;
     reason := None;
     signature := Some sample_signature; timestamp := Some sample_timestamp |}.

Definition verify_body (p : string) (ok : bool) (tx : option string) : Body :=
  {| poster := Some p; bidder := None; worker := None; title := None;
     description := None; bounty_sats := None; tags := None; deadline := None;
     poster_name := None; poster_stx := None; amount_sats := None;
     message := None; bidder_name := None; bidder_stx := None; bid_id := None;
     proof_url := None; approved := Some ok; payment_tx := tx; reason := None;
     signature := Some sample_signature; timestamp := Some sample_timestamp |}.

Definition cancel_body (p : string) : Body :=
  {| poster := Some p; bidder := None; worker := None; title := None;
     description := None; bounty_sats := None; tags := None; deadline := None;
     poster_name := None; poster_stx := None; amount_sats := None;
     message := None; bidder_name := None; bidder_stx := None; bid_id := None;
     proof_url := None; approved := None; payment_tx := None; reason := None;
     signature := Some sample_signature; timestamp := Some sample_timestamp |}.

(** A body that carries only a poster, a signature and the sample
    timestamp. *)
Definition signed_body (p sig : string) : Body :=
  {| poster := Some p; bidder := None; worker := None; title := None;
     description := None; bounty_sats := None; tags := None; deadline := None;
     poster_name := None; poster_stx := None; amount_sats := None;
     message := None; bidder_name := None; bidder_stx := None; bid_id := None;
     proof_url := None; approved := None; payment_tx := None; reason := None;
     signature := Some sig; timestamp := Some sample_timestamp |}.

(** [n] copies of U+00E9, a character of two bytes and one code unit. *)
Fixpoint two_byte_text (n : nat) : string :=
  match n with
  | O => EmptyString
  | S n' =>
      String (Ascii.ascii_of_nat 195)
        (String (Ascii.ascii_of_nat 169) (two_byte_text n'))
  end.

Definition sample_bid_bob : Bid :=
  new_bid 1 "bob" 8000 None (Some sample_signature).

Definition sample_bid_carol : Bid :=
  new_bid 1 "carol" 7000 None (Some sample_signature).

(** Serving a list of requests in order, all at [sample_now]. *)
Definition serve (requests : list Request) (db : DB) : DB :=
  foldl (λ d r, (fetch sample_now r d).2) db requests.

(** The scenario of the README: alice posts a 10000 sat task, bob bids 8000
    and carol bids 7000. *)
Definition db_posted : DB :=
  serve [PostTask (create_body "alice" "Build agent dashboard" "Full description" 10000)]
    empty_db.

Definition db_bids : DB :=
  serve [PostBid 1 (bid_body "bob" 8000); PostBid 1 (bid_body "carol" 7000)]
    db_posted.

Definition db_assigned : DB :=
  serve [PostAccept 1 (accept_body "alice" 2)] db_bids.

Definition db_submitted : DB :=
  serve [PostSubmit 1 (submit_body "carol" "https://x")] db_assigned.

Definition db_cancelled : DB :=
  serve [PatchCancel 1 (cancel_body "alice")] db_posted.

(** ** Runs of the service *)

(** An event of a run: a request is received under a number that is not in
    use, the statement the request of a number waits for runs, or that
    statement throws. *)
Inductive Event :=
  | Receive (n : nat) (now : Z) (request : Request)
  | Run (n : nat)
  | Throw (n : nat).

Definition sys_event (s : System) (e : Event) : System :=
  match e with
  | Receive n now request =>
    match inflight s !! n, start now request (store s) with
    | None, inr f => {| store := store s; inflight := <[n := f]> (inflight s) |}
    | _, _ => s
    end
  | Run n =>
    match inflight s !! n with
    | Some f =>
      match advance f (store s) with
      | (db', inl f') => {| store := db'; inflight := <[n := f']> (inflight s) |}
      | (db', inr _) => {| store := db'; inflight := delete n (inflight s) |}
      end
    | None => s
    end
  | Throw n =>
    match inflight s !! n with
    | Some _ => {| store := store s; inflight := delete n (inflight s) |}
    | None => s
    end
  end.

(** The answer the service gives at an event, when it gives one there. *)
Definition answer (s : System) (e : Event) : option Response :=
  match e with
  | Receive n now request =>
    match start now request (store s) with
    | inl r => Some r
    | inr _ => None
    end
  | Run n =>
    match inflight s !! n with
    | Some f =>
      match (advance f (store s)).2 with
      | inr r => Some r
      | inl _ => None
      end
    | None => None
    end
  | Throw n => inflight s !! n ≫= thrown
  end.

Definition play (events : list Event) (s : System) : System :=
  foldl sys_event s events.

(** Two approving verify calls for task 1 of the sample session are
    received while the task is submitted, the second before the batch of the
    first has run. *)
Definition sample_approve : Request :=
  PostVerify 1 (verify_body "alice" true None).

Definition both_verifying : System :=
  play [Receive 1 sample_now sample_approve;
        Receive 2 (sample_now + 1000) sample_approve] (idle db_submitted).

Definition verified_once : System := play [Run 1%nat] both_verifying.

Definition verified_twice : System := play [Run 2%nat] verified_once.

(** Two cancel calls for task 1 are received while it is open, the second
    before the batch of the first has run. *)
Definition sample_cancel : Request := PatchCancel 1 (cancel_body "alice").

Definition both_cancelling : System :=
  play [Receive 1 sample_now sample_cancel;
        Receive 2 (sample_now + 1000) sample_cancel] (idle db_posted).

Definition cancelled_once : System := play [Run 1%nat] both_cancelling.

Definition cancelled_twice : System := play [Run 2%nat] cancelled_once.

(** A cancel call for task 1 is received while it is open and has two bids;
    before its batch runs, an accept call for carol's bid is received and
    runs both its statements. *)
Definition cancelling_and_accepting : System :=
  play [Receive 1 sample_now sample_cancel;
        Receive 2 (sample_now + 1000) (PostAccept 1 (accept_body "alice" 2))]
    (idle db_bids).

Definition accepted_meanwhile : System :=
  play [Run 2%nat; Run 2%nat] cancelling_and_accepting.

Definition cancelled_after_accept : System := play [Run 1%nat] accepted_meanwhile.

(** A bid call by dave for task 1 is received while the task is open;
    before its first statement runs, an accept call for carol's bid is
    received and runs both its statements.  Then the three statements of
    the bid call run. *)
Definition bidding_and_accepting : System :=
  play [Receive 1 sample_now (PostBid 1 (bid_body "dave" 6000));
        Receive 2 (sample_now + 1000) (PostAccept 1 (accept_body "alice" 2));
        Run 2%nat; Run 2%nat] (idle db_bids).

Definition bid_after_accept : System :=
  play [Run 1%nat; Run 1%nat; Run 1%nat] bidding_and_accepting.

(** An accept call for carol's bid on task 1 has run its conditional update
    and not yet its batch. *)
Definition accept_half_done : System :=
  play [Receive 1 sample_now (PostAccept 1 (accept_body "alice" 2)); Run 1%nat]
    (idle db_bids).

(** ** The transitions of the lifecycle

    What a request that is not refused does to the database, one constructor
    per arrow of the lifecycle; [fetch_outcome] below shows that [fetch]
    performs exactly these. *)
Inductive transition (db : DB) : DB → Prop :=
  | tr_created p ti de bo tg dl sg dn stx info :
      transition db
        {| tasks := <[next_rowid (tasks db) := new_task p ti de bo tg dl sg]> (tasks db);
           bids := bids db;
           agents := alter (agent_posted bo) p (agents (ensureAgent db p dn stx));
           activity := log_activity (next_rowid (tasks db)) p "created" info (activity db) |}
  | tr_bid id task b amt msg sg dn stx info :
      tasks db !! id = Some task →
      task_status_of task = Open →
      task_poster task ≠ b →
      transition db
        {| tasks := tasks db;
           bids := <[next_rowid (bids db) := new_bid id b amt msg sg]> (bids db);
           agents := agents (ensureAgent db b dn stx);
           activity := log_activity id b "bid" info (activity db) |}
  | tr_accepted id task k bid :
      bids db !! k = Some bid →
      bid_task_id bid = id →
      tasks db !! id = Some task →
      task_status_of task = Open →
      transition db
        (accept_cascade id (task_poster task) k bid
           {| tasks :=
                <[id := set_task_assignment Assigned (bid_bidder bid)
                          (bid_amount_sats bid) task]> (tasks db);
              bids := bids db; agents := agents db; activity := activity db |})
  | tr_submitted id task w url descr :
      tasks db !! id = Some task →
      task_worker task = Some w →
      task_status_of task = Assigned →
      transition db
        {| tasks := <[id := set_task_proof Submitted url descr task]> (tasks db);
           bids := bids db; agents := agents db;
           activity := log_activity id w "submitted" url (activity db) |}
  | tr_approved id task newStatus tx info :
      tasks db !! id = Some task →
      task_status_of task = Submitted →
      newStatus = Paid ∨ newStatus = Verified →
      transition db
        {| tasks := <[id := set_task_payment newStatus tx task]> (tasks db);
           bids := bids db;
           agents :=
             alter agent_reputed (task_poster task)
               (match task_worker task with
                | Some w => alter (agent_completed (task_bounty_sats task)) w (agents db)
                | None => agents db
                end);
           activity := log_activity id (task_poster task) "verified" info (activity db) |}
  | tr_disputed id task info :
      tasks db !! id = Some task →
      task_status_of task = Submitted →
      transition db
        {| tasks := <[id := set_task_status Disputed task]> (tasks db);
           bids := bids db; agents := agents db;
           activity := log_activity id (task_poster task) "disputed" info (activity db) |}
  | tr_cancelled id task :
      tasks db !! id = Some task →
      task_status_of task = Open →
      transition db
        {| tasks := <[id := set_task_status Cancelled task]> (tasks db);
           bids := bids db;
           agents := alter (agent_refunded (task_bounty_sats task)) (task_poster task) (agents db);
           activity :=
             log_activity id (task_poster task) "cancelled" "Task cancelled" (activity db) |}.

(** A response that reports a refusal, and one that reports success. *)
Definition refused (r : Response) : Prop :=
  ∃ msg, resp_body r = ErrorBody msg ∧
    (resp_code r = 400 ∨ resp_code r = 401 ∨ resp_code r = 403
     ∨ resp_code r = 404 ∨ resp_code r = 409).

Definition succeeded (r : Response) : Prop :=
  resp_code r = 200 ∨ resp_code r = 201.

(** The effect of the accept batch on the bid stored under key [k]. *)
Definition cascade_row (id bid_key k : Z) (b : Bid) : Bid :=
  if decide (k = bid_key) then set_bid_status Accepted b
  else if decide (bid_task_id b = id ∧ bid_status_of b = Pending)
       then set_bid_status Rejected b
       else b.

(** ** Consistency of the tables

    What holds of every database of [reachable], that is, as long as
    requests are served one after another. *)
Record consistent (db : DB) : Prop := {
  open_unassigned : ∀ id t,
    tasks db !! id = Some t → task_status_of t = Open → task_worker t = None;
  unassigned_open : ∀ id t,
    tasks db !! id = Some t → task_worker t = None →
    task_status_of t = Open ∨ task_status_of t = Cancelled;
  poster_known : ∀ id t,
    tasks db !! id = Some t → is_Some (agents db !! task_poster t);
  worker_known : ∀ id t w,
    tasks db !! id = Some t → task_worker t = Some w →
    is_Some (agents db !! w) ∧ w ≠ task_poster t;
  bidder_known : ∀ k b,
    bids db !! k = Some b → is_Some (agents db !! bid_bidder b);
  bid_of_task : ∀ k b,
    bids db !! k = Some b →
    ∃ t, tasks db !! bid_task_id b = Some t ∧ task_poster t ≠ bid_bidder b;
  open_pending : ∀ k b t,
    bids db !! k = Some b → tasks db !! bid_task_id b = Some t →
    task_status_of t = Open → bid_status_of b = Pending;
  one_accepted : ∀ k1 k2 b1 b2,
    bids db !! k1 = Some b1 → bids db !! k2 = Some b2 →
    bid_task_id b1 = bid_task_id b2 →
    bid_status_of b1 = Accepted → bid_status_of b2 = Accepted → k1 = k2;
  earned_ledger : ∀ a ag,
    agents db !! a = Some ag → total_earned_sats ag = earned_sum a (tasks db);
}.

(** The ledger counters of an agent row; [ensureAgent] never touches them. *)
Definition same_ledger (a a' : Agent) : Prop :=
  reputation a' = reputation a ∧ tasks_posted a' = tasks_posted a ∧
  tasks_completed a' = tasks_completed a ∧
  total_earned_sats a' = total_earned_sats a ∧
  total_spent_sats a' = total_spent_sats a.

(** How a transition from [db] to [db'] changes the task stored under [id]:
    it is new and open, or it keeps its poster and moves along one arrow. *)
Inductive task_moved (db db' : DB) (id : Z) (t' : Task) : Prop :=
  | moved_new :
      tasks db !! id = None →
      task_status_of t' = Open → task_worker t' = None →
      is_Some (agents db' !! task_poster t') →
      task_moved db db' id t'
  | moved_same :
      tasks db !! id = Some t' → task_moved db db' id t'
  | moved_assigned t k bid :
      tasks db !! id = Some t → task_status_of t = Open →
      bids db !! k = Some bid → bid_task_id bid = id →
      t' = set_task_assignment Assigned (bid_bidder bid) (bid_amount_sats bid) t →
      task_moved db db' id t'
  | moved_submitted t w url descr :
      tasks db !! id = Some t → task_status_of t = Assigned →
      task_worker t = Some w →
      t' = set_task_proof Submitted url descr t →
      task_moved db db' id t'
  | moved_closed t s tx :
      tasks db !! id = Some t → task_status_of t = Submitted →
      s = Paid ∨ s = Verified ∨ s = Disputed →
      t' = set_task_payment s tx t →
      task_moved db db' id t'
  | moved_cancelled t :
      tasks db !! id = Some t → task_status_of t = Open →
      t' = set_task_status Cancelled t →
      task_moved db db' id t'.

(** How a transition changes the bid stored under [k]: it is new and
    pending, or it went through the accept batch of some task, or it is as it
    was. *)
Inductive bid_moved (db db' : DB) (k : Z) (b' : Bid) : Prop :=
  | bid_new t :
      bids db !! k = None →
      bid_status_of b' = Pending →
      tasks db' !! bid_task_id b' = Some t →
      task_poster t ≠ bid_bidder b' →
      is_Some (agents db' !! bid_bidder b') →
      bid_moved db db' k b'
  | bid_same :
      bids db !! k = Some b' → bid_moved db db' k b'
  | bid_cascaded b id bid_key bid t t' :
      bids db !! k = Some b →
      bids db !! bid_key = Some bid → bid_task_id bid = id →
      tasks db !! id = Some t → task_status_of t = Open →
      tasks db' !! id = Some t' → task_status_of t' = Assigned →
      b' = cascade_row id bid_key k b →
      bid_moved db db' k b'.

(** ** Vocabulary of the lifecycle rules *)

(** The task a request is aimed at. *)
Definition target (request : Request) : option Z :=
  match request with
  | PostTask _ => None
  | PostBid id _ | PostAccept id _ | PostSubmit id _
  | PostVerify id _ | PatchCancel id _ => Some id
  end.

(** The address that claims to act. *)
Definition acting_address (request : Request) : option string :=
  match request with
  | PostTask body | PostAccept _ body | PostVerify _ body
  | PatchCancel _ body => poster body
  | PostBid _ body => bidder body
  | PostSubmit _ body => worker body
  end.

(** The transitions bound to a role of the task, and the address that
    holds the role: the poster for accept, verify and cancel, the worker for
    submit. *)
Definition role_bound (request : Request) : bool :=
  match request with
  | PostAccept _ _ | PostSubmit _ _ | PostVerify _ _ | PatchCancel _ _ => true
  | PostTask _ | PostBid _ _ => false
  end.

Definition required_address (request : Request) (t : Task) : option string :=
  match request with
  | PostSubmit _ _ => task_worker t
  | _ => Some (task_poster t)
  end.

(** The status a route checks by reading the task before it writes, and
    the text it answers with otherwise.  The accept route has no such check:
    its status test is part of its conditional update. *)
Definition source_state (request : Request) : option task_status :=
  match request with
  | PostBid _ _ | PatchCancel _ _ => Some Open
  | PostSubmit _ _ => Some Assigned
  | PostVerify _ _ => Some Submitted
  | PostTask _ | PostAccept _ _ => None
  end.

Definition state_error (request : Request) : string :=
  match request with
  | PostBid _ _ => "Task is not open for bids"
  | PostSubmit _ _ => "Task is not in assigned state"
  | PostVerify _ _ => "Task work not submitted yet"
  | PatchCancel _ _ => "Can only cancel open tasks"
  | PostTask _ | PostAccept _ _ => ""
  end.

(** The request carries its required fields and an envelope that
    [validateAuth] accepts: it gets past the 400 and 401 answers that precede
    every read of the database. *)
Definition passes_checks (now : Z) (request : Request) : bool :=
  match request with
  | PostTask body =>
    bool_decide (is_Some (or_null (poster body)))
    && bool_decide (is_Some (or_null (title body)))
    && bool_decide (is_Some (or_null (description body)))
    && bool_decide (is_Some (num_or_null (bounty_sats body)))
    && negb (default 0 (bounty_sats body) <? 1)
    && bool_decide (validateAuth now body "create_task" FPoster = None)
  | PostBid _ body =>
    bool_decide (is_Some (or_null (bidder body)))
    && bool_decide (is_Some (num_or_null (amount_sats body)))
    && bool_decide (validateAuth now body "bid" FBidder = None)
  | PostAccept _ body =>
    bool_decide (is_Some (or_null (poster body)))
    && bool_decide (is_Some (num_or_null (bid_id body)))
    && bool_decide (validateAuth now body "accept_bid" FPoster = None)
  | PostSubmit _ body =>
    bool_decide (is_Some (or_null (worker body)))
    && bool_decide (is_Some (or_null (proof_url body)))
    && bool_decide (validateAuth now body "submit" FWorker = None)
  | PostVerify _ body =>
    bool_decide (is_Some (or_null (poster body)))
    && bool_decide (is_Some (approved body))
    && bool_decide (validateAuth now body "verify" FPoster = None)
  | PatchCancel _ body =>
    bool_decide (is_Some (or_null (poster body)))
    && bool_decide (validateAuth now body "cancel" FPoster = None)
  end.

(** The error of a response names the status [s]. *)
Definition reports_state (r : Response) (s : task_status) : Prop :=
  ∃ msg, resp_body r = ErrorBody msg ∧ mentions (status_text s) msg = true.

(** What a role-bound route answers to an address that does not hold the
    role, once the fields and the envelope are accepted. *)
Definition role_error (request : Request) : Response :=
  match request with
  | PostSubmit _ _ => json (ErrorBody "Only the assigned worker can submit") 403
  | PostVerify _ _ => json (ErrorBody "Only the poster can verify") 403
  | PatchCancel _ _ => json (ErrorBody "Only the poster can cancel") 403
  | PostAccept _ _ =>
    json (ErrorBody "Task already accepted or not open, or not your task") 409
  | PostTask _ | PostBid _ _ => json (ErrorBody "") 403
  end.

(** ** Columns that stay *)

(** The columns of a task that no [UPDATE] lists. *)
Definition same_posting (t t' : Task) : Prop :=
  task_poster t' = task_poster t ∧ task_title t' = task_title t ∧
  task_description t' = task_description t ∧ task_tags t' = task_tags t ∧
  task_deadline t' = task_deadline t ∧
  task_poster_signature t' = task_poster_signature t.

(** The columns of a bid other than its status. *)
Definition same_offer (b b' : Bid) : Prop :=
  bid_task_id b' = bid_task_id b ∧ bid_bidder b' = bid_bidder b ∧
  bid_amount_sats b' = bid_amount_sats b ∧ bid_message b' = bid_message b ∧
  bid_bidder_signature b' = bid_bidder_signature b.

(** The columns of a task other than its status. *)
Definition same_but_status (t t' : Task) : Prop :=
  same_posting t t' ∧ task_bounty_sats t' = task_bounty_sats t ∧
  task_worker t' = task_worker t ∧ task_proof_url t' = task_proof_url t ∧
  task_proof_description t' = task_proof_description t ∧
  task_payment_tx t' = task_payment_tx t.

(** ** Aggregates: counts and sums *)

(** The sum of [f] over the rows of a table. *)
Definition table_sum {K A : Type} `{Countable K} (f : A → Z) (m : gmap K A) : Z :=
  map_fold (λ _ a acc, f a + acc) 0 m.

(** [SELECT COUNT( * ) FROM t WHERE ...] *)
Definition sql_count {K A : Type} `{Countable K} (wh : A → bool) (m : gmap K A) : Z :=
  table_sum (λ a, if wh a then 1 else 0) m.

(** ** References and offers *)

(** The foreign keys of the schema: a task's poster and worker and a bid's
    bidder are agents, a bid and an activity record belong to a task. *)
Record references_hold (db : DB) : Prop := {
  fk_task_poster : ∀ id t,
    tasks db !! id = Some t → is_Some (agents db !! task_poster t);
  fk_task_worker : ∀ id t w,
    tasks db !! id = Some t → task_worker t = Some w → is_Some (agents db !! w);
  fk_bid_task : ∀ k b,
    bids db !! k = Some b → is_Some (tasks db !! bid_task_id b);
  fk_bid_bidder : ∀ k b,
    bids db !! k = Some b → is_Some (agents db !! bid_bidder b);
  fk_activity_task : ∀ rec,
    rec ∈ activity db → is_Some (tasks db !! act_task_id rec);
}.

(** How the accepted bid and its task agree, and what amounts the checks of
    the routes let through. *)
Record settled_on_bid (db : DB) : Prop := {
  worker_has_bid : ∀ id t w,
    tasks db !! id = Some t → task_worker t = Some w →
    ∃ k b, bids db !! k = Some b ∧ bid_task_id b = id ∧
           bid_status_of b = Accepted ∧ bid_bidder b = w ∧
           bid_amount_sats b = task_bounty_sats t;
  bid_has_worker : ∀ k b,
    bids db !! k = Some b → bid_status_of b = Accepted →
    ∃ t, tasks db !! bid_task_id b = Some t ∧
         task_worker t = Some (bid_bidder b) ∧
         task_bounty_sats t = bid_amount_sats b;
  rejected_lost : ∀ k b,
    bids db !! k = Some b → bid_status_of b = Rejected →
    ∃ t w, tasks db !! bid_task_id b = Some t ∧ task_worker t = Some w;
  never_withdrawn : ∀ k b,
    bids db !! k = Some b → bid_status_of b ≠ Withdrawn;
  amount_nonzero : ∀ k b,
    bids db !! k = Some b → bid_amount_sats b ≠ 0;
  bounty_nonzero : ∀ id t,
    tasks db !! id = Some t →
    task_bounty_sats t ≠ 0 ∧ (task_worker t = None → 1 ≤ task_bounty_sats t);
  names_given : ∀ id t,
    tasks db !! id = Some t →
    task_poster t ≠ "" ∧ task_title t ≠ "" ∧ task_description t ≠ "";
}.

(** ** The task list and its pager *)

(** Bid [b] is for task [id]. *)
Definition bids_on (id : Z) (b : Bid) : bool :=
  bool_decide (bid_task_id b = id).

(** [task_id = t.id AND status = 'pending'] *)
Definition pending_on (id : Z) (b : Bid) : bool :=
  bool_decide (bid_task_id b = id) && bool_decide (bid_status_of b = Pending).

(** The [bid_count] column of a row of [GET /api/tasks]. *)
Definition bid_count (id : Z) (db : DB) : Z :=
  sql_count (pending_on id) (bids db).

(** [hasMore] of the pagination object of [GET /api/tasks]. *)
Definition hasMore (offset limit total : Z) : bool :=
  bool_decide (offset + limit < total).

(** The page label of the front end, "Page pg / tp":
    [Math.floor(offset/limit)+1] and [Math.ceil(total/limit)]. *)
Definition page_number (offset limit : Z) : Z := offset / limit + 1.

Definition page_total (total limit : Z) : Z := - ((- total) / limit).

(** The two buttons of the pager and the offset each one leads to. *)
Inductive pager_click := ClickPrev | ClickNext.

Definition click (limit offset : Z) (c : pager_click) : Z :=
  match c with
  | ClickPrev => Z.max 0 (offset - limit)
  | ClickNext => offset + limit
  end.

(** The offset after a series of clicks; the page starts at offset 0. *)
Definition pager_offset (limit : Z) (clicks : list pager_click) : Z :=
  foldl (click limit) 0 clicks.

(** ** Display helpers of the front end *)

(** The page script holds its strings as JavaScript does, as UTF-16 code
    units, and [slice] cuts between code units.  [truncAddr]: a missing or
    empty address gives "?"; otherwise [slice(0,8)] takes the first 8 code
    units and [slice(-6)] the last 6, each the whole string when it is
    shorter, with "..." between them. *)
Definition truncAddr (a : option (list N)) : list N :=
  match a with
  | None | Some [] => [63%N]
  | Some s => take 8 s ++ [46%N; 46%N; 46%N] ++ drop (length s - 6) s
  end.

(** [timeAgo], on the milliseconds [new Date(ts).getTime()] of the time
    stamp, [None] when that is [NaN]: every comparison with [NaN] fails, so
    the last branch is taken. *)
Definition timeAgo (now : Z) (ts : option Z) : string :=
  match ts with
  | None => "NaNd ago"
  | Some t =>
      let m := (now - t) / 60000 in
      if m <? 1 then "just now"
      else if m <? 60 then pretty m +:+ "m ago"
      else
        let h := m / 60 in
        if h <? 24 then pretty h +:+ "h ago"
        else pretty (h / 24) +:+ "d ago"
  end.

(** ** What holds while requests overlap *)

(** What a request in flight has read stays true of the database, whatever
    statements of other requests run before its own: the rows it read still
    exist, a task keeps its poster and, once it has one, its worker and
    bounty, and a bid keeps its offer. *)
Definition knows_rows (db : DB) (f : Inflight) : Prop :=
  match f with
  | CreateChecked _ _ _ _ _ | CreateEnsured _ _ _ _ _ => True
  | CreateInserted _ _ id | CreateCounted _ _ id => is_Some (tasks db !! id)
  | BidChecked id _ b _ | BidEnsured id _ b _ =>
      ∃ t, tasks db !! id = Some t ∧ task_poster t ≠ b
  | BidInserted id _ _ _ _ => is_Some (tasks db !! id)
  | AcceptFound id _ k bid =>
      bid_task_id bid = id ∧ ∃ b', bids db !! k = Some b' ∧ same_offer bid b'
  | AcceptUpdated id _ k bid =>
      bid_task_id bid = id ∧
      (∃ b', bids db !! k = Some b' ∧ same_offer bid b') ∧
      (∃ t, tasks db !! id = Some t ∧ task_worker t = Some (bid_bidder bid) ∧
            task_bounty_sats t = bid_amount_sats bid) ∧
      (∀ k' b', bids db !! k' = Some b' → bid_task_id b' = id →
                bid_status_of b' = Pending)
  | SubmitChecked id _ _ _ | VerifyChecked id _ _ _ _ =>
      ∃ t, tasks db !! id = Some t ∧ is_Some (task_worker t)
  | CancelChecked id _ _ => is_Some (tasks db !! id)
  end.

(** The task whose conditional update a request in flight has won and whose
    batch it has not run yet. *)
Definition updating (f : Inflight) : option Z :=
  match f with
  | AcceptUpdated id _ _ _ => Some id
  | _ => None
  end.

(** What holds of the tasks and bids in every state of the service. *)
Record sound (db : DB) : Prop := {
  so_open_unassigned : ∀ id t,
    tasks db !! id = Some t → task_status_of t = Open → task_worker t = None;
  so_unassigned_open : ∀ id t,
    tasks db !! id = Some t → task_worker t = None →
    task_status_of t = Open ∨ task_status_of t = Cancelled;
  so_bid_task : ∀ k b,
    bids db !! k = Some b →
    ∃ t, tasks db !! bid_task_id b = Some t ∧ task_poster t ≠ bid_bidder b;
  so_decided : ∀ k b,
    bids db !! k = Some b → bid_status_of b ≠ Pending →
    bid_status_of b ≠ Withdrawn ∧
    ∃ t w, tasks db !! bid_task_id b = Some t ∧ task_worker t = Some w;
  so_accepted : ∀ k b,
    bids db !! k = Some b → bid_status_of b = Accepted →
    ∃ t, tasks db !! bid_task_id b = Some t ∧
         task_worker t = Some (bid_bidder b) ∧
         task_bounty_sats t = bid_amount_sats b;
  so_one_accepted : ∀ k1 k2 b1 b2,
    bids db !! k1 = Some b1 → bids db !! k2 = Some b2 →
    bid_task_id b1 = bid_task_id b2 →
    bid_status_of b1 = Accepted → bid_status_of b2 = Accepted → k1 = k2;
}.

(** What one statement can do to the rows: none is deleted, a task keeps
    its poster and, once it has a worker, its worker and bounty, a bid keeps
    its offer, and the activity log only grows at its end. *)
Record evolves (db db' : DB) : Prop := {
  ev_task : ∀ id t,
    tasks db !! id = Some t →
    ∃ t', tasks db' !! id = Some t' ∧ same_posting t t' ∧
          ∀ w, task_worker t = Some w →
               task_worker t' = Some w ∧
               task_bounty_sats t' = task_bounty_sats t;
  ev_bid : ∀ k b,
    bids db !! k = Some b → ∃ b', bids db' !! k = Some b' ∧ same_offer b b';
  ev_agent : ∀ a, is_Some (agents db !! a) → is_Some (agents db' !! a);
  ev_log : activity db `prefix_of` activity db';
}.

(** The state of the service is in order: the tables are sound, every
    request in flight still knows its rows, and no task has two requests
    between the conditional update and the batch of the accept route. *)
Record sys_ok (s : System) : Prop := {
  ok_sound : sound (store s);
  ok_inflight : ∀ n f, inflight s !! n = Some f → knows_rows (store s) f;
  ok_one_updating : ∀ n1 n2 f1 f2 id,
    inflight s !! n1 = Some f1 → inflight s !! n2 = Some f2 →
    updating f1 = Some id → updating f2 = Some id → n1 = n2;
}.

(** * Properties *)

(** ** The SQL layer *)

Section sql_facts.
Context {K : Type} `{Countable K} {A : Type}.
Implicit Types (m : gmap K A) (wh : K → A → bool) (set : A → A).

Lemma lookup_sql_update wh set m k :
  sql_update wh set m !! k = (λ a, if wh k a then set a else a) <$> m !! k.
Proof.
  unfold sql_update. rewrite map_lookup_imap. by destruct (m !! k).
Qed.

Lemma sql_changes_zero wh m :
  sql_changes wh m = 0%nat ↔ ∀ k a, m !! k = Some a → wh k a = false.
Proof.
  unfold sql_changes. rewrite map_size_empty_iff, map_empty. split.
  - intros Hnone k a Hk. destruct (wh k a) eqn:Hwh; [|done].
    specialize (Hnone k). apply eq_None_not_Some in Hnone.
    destruct Hnone. exists a. by apply map_lookup_filter_Some.
  - intros Hall k. apply eq_None_not_Some. intros [a Ha].
    apply map_lookup_filter_Some in Ha as [Hk Hwh]. simpl in Hwh.
    rewrite (Hall k a Hk) in Hwh. done.
Qed.

Lemma sql_changes_pos wh m :
  sql_changes wh m ≠ 0%nat ↔ ∃ k a, m !! k = Some a ∧ wh k a = true.
Proof.
  split.
  - intros Hne. unfold sql_changes in Hne.
    apply map_size_non_empty_iff, map_choose in Hne as (k & a & Hka).
    apply map_lookup_filter_Some in Hka as [Hk Hwh]. eauto.
  - intros (k & a & Hk & Hwh) Hz.
    rewrite sql_changes_zero in Hz. rewrite (Hz k a Hk) in Hwh. done.
Qed.

(** A statement that selects no row leaves the table as it was. *)
Lemma sql_update_unselected wh set m :
  (∀ k a, m !! k = Some a → wh k a = false) → sql_update wh set m = m.
Proof.
  intros Hall. apply map_eq. intros k. rewrite lookup_sql_update.
  destruct (m !! k) as [a|] eqn:Hk; [|done]. simpl.
  by rewrite (Hall k a Hk).
Qed.

Lemma sql_update_no_changes wh set m :
  sql_changes wh m = 0%nat → sql_update wh set m = m.
Proof. rewrite sql_changes_zero. apply sql_update_unselected. Qed.

(** Selecting on the key alone is [alter]. *)
Lemma sql_update_key (i : K) set m :
  sql_update (λ k _, bool_decide (k = i)) set m = alter set i m.
Proof.
  apply map_eq. intros k. rewrite lookup_sql_update, lookup_alter.
  destruct (decide (i = k)) as [->|Hne].
  - rewrite bool_decide_eq_true_2 by done. done.
  - rewrite bool_decide_eq_false_2 by congruence. by destruct (m !! k).
Qed.
End sql_facts.

Lemma sql_update_with_id {A} (id : Z) (set : A → A) (m : gmap Z A) :
  sql_update (with_id id) set m = alter set id m.
Proof. apply sql_update_key. Qed.

Lemma sql_update_with_address (p : string) set (m : gmap string Agent) :
  sql_update (with_address (Some p)) set m = alter set p m.
Proof.
  rewrite <- sql_update_key. apply map_eq. intros k.
  rewrite !lookup_sql_update. unfold with_address.
  destruct (m !! k); [simpl|done].
  destruct (decide (k = p)) as [->|Hne].
  - by rewrite !bool_decide_eq_true_2.
  - rewrite !bool_decide_eq_false_2; [done|done|congruence].
Qed.

Lemma sql_update_with_null set (m : gmap string Agent) :
  sql_update (with_address None) set m = m.
Proof. by apply sql_update_unselected. Qed.

Lemma sql_update_with_option (w : option string) set (m : gmap string Agent) :
  sql_update (with_address w) set m =
  match w with Some p => alter set p m | None => m end.
Proof.
  destruct w; [apply sql_update_with_address|apply sql_update_with_null].
Qed.

(** Every key in use is below the next row id, so an insert never
    overwrites a row. *)
Lemma next_rowid_above {A} (m : gmap Z A) k :
  is_Some (m !! k) → k < next_rowid m.
Proof.
  unfold next_rowid.
  revert k. apply (map_fold_weak_ind
    (λ r m, ∀ k, is_Some (m !! k) → k < 1 + r)).
  - intros k [? Hk]. by rewrite lookup_empty in Hk.
  - intros i x m' r Hi IH k Hk.
    destruct (decide (i = k)) as [->|Hne]; [lia|].
    rewrite lookup_insert_ne in Hk by done.
    specialize (IH k Hk). lia.
Qed.

Lemma next_rowid_fresh {A} (m : gmap Z A) : m !! next_rowid m = None.
Proof.
  apply eq_None_not_Some. intros Hsome.
  apply next_rowid_above in Hsome. lia.
Qed.

(** ** The conditional update of the accept route *)

Lemma accept_guard_true id s p k t :
  accept_guard id s p k t = true ↔
  k = id ∧ task_status_of t = s ∧ task_poster t = p.
Proof.
  unfold accept_guard. rewrite !andb_true_iff, !bool_decide_eq_true. tauto.
Qed.

Lemma accept_guard_changes id s p (m : gmap Z Task) :
  sql_changes (accept_guard id s p) m ≠ 0%nat ↔
  ∃ t, m !! id = Some t ∧ task_status_of t = s ∧ task_poster t = p.
Proof.
  rewrite sql_changes_pos. split.
  - intros (k & t & Hk & Hg). apply accept_guard_true in Hg as (-> & ? & ?). eauto.
  - intros (t & Hk & ? & ?). exists id, t. split; [done|].
    by apply accept_guard_true.
Qed.

Lemma alter_lookup_insert {K A} `{Countable K} (f : A → A) (m : gmap K A) i x :
  m !! i = Some x → alter f i m = <[i := f x]> m.
Proof.
  intros Hi. apply map_eq. intros j. rewrite lookup_alter, lookup_insert.
  destruct (decide (i = j)) as [->|]; [by rewrite Hi|done].
Qed.

Lemma accept_guard_update id s p f (m : gmap Z Task) t :
  m !! id = Some t → task_status_of t = s → task_poster t = p →
  sql_update (accept_guard id s p) f m = <[id := f t]> m.
Proof.
  intros Hid Hs Hp. apply map_eq. intros k.
  rewrite lookup_sql_update, lookup_insert.
  destruct (decide (id = k)) as [<-|Hne].
  - rewrite Hid. simpl.
    by rewrite (proj2 (accept_guard_true id s p id t)).
  - destruct (m !! k) as [t'|]; [simpl|done].
    destruct (accept_guard id s p k t') eqn:Hg; [|done].
    apply accept_guard_true in Hg as (-> & _). done.
Qed.

(** ** What each route does *)

Ltac split_handler :=
  repeat match goal with
         | |- context [match ?x with _ => _ end] => destruct x eqn:?
         end.

Ltac reflect_bools :=
  repeat match goal with
         | H : negb _ = true |- _ => apply negb_true_iff in H
         | H : negb _ = false |- _ => apply negb_false_iff in H
         | H : bool_decide _ = true |- _ => apply bool_decide_eq_true in H
         | H : bool_decide _ = false |- _ => apply bool_decide_eq_false in H
         | H : (_ <? _) = false |- _ => apply Z.ltb_ge in H
         | H : (_ <? _) = true |- _ => apply Z.ltb_lt in H
         end.

Ltac is_refusal :=
  left; simpl; split; [reflexivity|eexists; split; [reflexivity|tauto]].

Lemma create_task_outcome now body db :
  let r := create_task now body db in
  (r.2 = db ∧ refused r.1) ∨ (transition db r.2 ∧ succeeded r.1).
Proof.
  unfold create_task. split_handler; try is_refusal.
  right. simpl. split; [|by right].
  rewrite sql_update_with_address. apply tr_created.
Qed.

Lemma place_bid_outcome now id body db :
  let r := place_bid now id body db in
  (r.2 = db ∧ refused r.1) ∨ (transition db r.2 ∧ succeeded r.1).
Proof.
  unfold place_bid. split_handler; try is_refusal.
  reflect_bools. right. simpl. split; [|by right].
  eapply tr_bid; eauto.
Qed.

Lemma select_bid_Some k id db bid :
  select_bid k id db = Some bid ↔ bids db !! k = Some bid ∧ bid_task_id bid = id.
Proof.
  unfold select_bid. destruct (bids db !! k) as [b|].
  - case_bool_decide as Hb; split.
    + by intros [= ->].
    + by intros [[= ->] _].
    + done.
    + by intros [[= ->] ?].
  - split; [done|]. by intros [? _].
Qed.

Lemma accept_bid_outcome now id body db :
  let r := accept_bid now id body db in
  (r.2 = db ∧ refused r.1) ∨ (transition db r.2 ∧ succeeded r.1).
Proof.
  unfold accept_bid.
  destruct (or_null (poster body)) as [p|]; [|is_refusal].
  destruct (num_or_null (bid_id body)) as [k|]; [|is_refusal].
  destruct (validateAuth _ _ _ _); [is_refusal|].
  destruct (select_bid k id db) as [bid|] eqn:Hbid; [|is_refusal].
  apply select_bid_Some in Hbid as [Hbid Htask].
  case_bool_decide as Hch.
  - left. simpl. split; [|eexists; split; [reflexivity|tauto]].
    rewrite sql_update_no_changes by done. by destruct db.
  - right. simpl. split; [|by left].
    apply accept_guard_changes in Hch as (t & Ht & Hopen & Hp).
    erewrite accept_guard_update by done. subst p.
    by apply tr_accepted.
Qed.

Lemma submit_work_outcome now id body db :
  let r := submit_work now id body db in
  (r.2 = db ∧ refused r.1) ∨ (transition db r.2 ∧ succeeded r.1).
Proof.
  unfold submit_work. split_handler; try is_refusal.
  reflect_bools. right. simpl. split; [|by left].
  rewrite sql_update_with_id. erewrite alter_lookup_insert by done.
  by eapply tr_submitted.
Qed.

Lemma verify_work_outcome now id body db :
  let r := verify_work now id body db in
  (r.2 = db ∧ refused r.1) ∨ (transition db r.2 ∧ succeeded r.1).
Proof.
  unfold verify_work.
  destruct (or_null (poster body)) as [p|]; [|is_refusal].
  destruct (approved body) as [ok|]; [|is_refusal].
  destruct (validateAuth _ _ _ _); [is_refusal|].
  destruct (tasks db !! id) as [task|] eqn:Htask; [|is_refusal].
  case_bool_decide as Hp; simpl; [|is_refusal].
  case_bool_decide as Hs; simpl; [|is_refusal].
  right. split; [|by left]. subst p.
  destruct ok.
  - rewrite sql_update_with_id, sql_update_with_address, sql_update_with_option.
    erewrite alter_lookup_insert by done.
    apply tr_approved; [done|done|]. destruct (or_null (payment_tx body)); auto.
  - rewrite sql_update_with_id. erewrite alter_lookup_insert by done.
    by apply tr_disputed.
Qed.

Lemma cancel_task_outcome now id body db :
  let r := cancel_task now id body db in
  (r.2 = db ∧ refused r.1) ∨ (transition db r.2 ∧ succeeded r.1).
Proof.
  unfold cancel_task.
  destruct (or_null (poster body)) as [p|]; [|is_refusal].
  destruct (validateAuth _ _ _ _); [is_refusal|].
  destruct (tasks db !! id) as [task|] eqn:Htask; [|is_refusal].
  case_bool_decide as Hp; simpl; [|is_refusal].
  case_bool_decide as Hs; simpl; [|is_refusal].
  right. split; [|by left]. subst p.
  rewrite sql_update_with_id, sql_update_with_address.
  erewrite alter_lookup_insert by done.
  by apply tr_cancelled.
Qed.

(** Every request either is refused and leaves the database as it was, or
    succeeds and performs one transition. *)
Lemma fetch_outcome now request db :
  let r := fetch now request db in
  (r.2 = db ∧ refused r.1) ∨ (transition db r.2 ∧ succeeded r.1).
Proof.
  destruct request; simpl.
  - apply create_task_outcome.
  - apply place_bid_outcome.
  - apply accept_bid_outcome.
  - apply submit_work_outcome.
  - apply verify_work_outcome.
  - apply cancel_task_outcome.
Qed.

(** ** Rows under the transitions *)

Lemma lookup_accept_cascade id p bid_key bid db k :
  bids (accept_cascade id p bid_key bid db) !! k =
  cascade_row id bid_key k <$> bids db !! k.
Proof.
  unfold accept_cascade. simpl.
  rewrite !lookup_sql_update. unfold with_id, cascade_row.
  destruct (bids db !! k) as [b|]; [simpl|done]. f_equal.
  destruct (decide (k = bid_key)) as [->|Hne].
  - rewrite !(bool_decide_eq_true_2 (bid_key = bid_key)) by done. simpl.
    by rewrite andb_false_r.
  - rewrite !(bool_decide_eq_false_2 (k = bid_key)) by done. simpl.
    rewrite andb_true_r.
    destruct (decide (bid_task_id b = id ∧ bid_status_of b = Pending))
      as [[Hid Hpe]|Hno].
    + by rewrite !bool_decide_eq_true_2.
    + destruct (bool_decide (bid_task_id b = id)) eqn:H1;
        destruct (bool_decide (bid_status_of b = Pending)) eqn:H2;
        try done.
      apply bool_decide_eq_true in H1, H2. tauto.
Qed.

Lemma tasks_accept_cascade id p bid_key bid db :
  tasks (accept_cascade id p bid_key bid db) = tasks db.
Proof. done. Qed.

Lemma agents_accept_cascade id p bid_key bid db :
  agents (accept_cascade id p bid_key bid db) = agents db.
Proof. done. Qed.

Lemma cascade_row_task id bid_key k b :
  bid_task_id (cascade_row id bid_key k b) = bid_task_id b.
Proof. unfold cascade_row. by repeat case_decide. Qed.

Lemma cascade_row_bidder id bid_key k b :
  bid_bidder (cascade_row id bid_key k b) = bid_bidder b.
Proof. unfold cascade_row. by repeat case_decide. Qed.

Lemma cascade_row_amount id bid_key k b :
  bid_amount_sats (cascade_row id bid_key k b) = bid_amount_sats b.
Proof. unfold cascade_row. by repeat case_decide. Qed.

Lemma cascade_row_offer id bid_key k b :
  same_offer b (cascade_row id bid_key k b).
Proof. unfold cascade_row. by repeat case_decide. Qed.

Lemma ensureAgent_lookup db p dn stx a ag' :
  agents (ensureAgent db p dn stx) !! a = Some ag' →
  (a = p ∧ agents db !! a = None ∧ ag' = new_agent (or_null dn) (or_null stx))
  ∨ (∃ ag, agents db !! a = Some ag ∧ same_ledger ag ag').
Proof.
  unfold ensureAgent. simpl. rewrite lookup_insert.
  destruct (decide (p = a)) as [->|Hne].
  - destruct (agents db !! a) as [ag|] eqn:Ha; intros [= <-].
    + right. exists ag. by repeat split.
    + left. done.
  - intros Ha. right. exists ag'. by repeat split.
Qed.

Lemma ensureAgent_known db p dn stx a :
  is_Some (agents db !! a) → is_Some (agents (ensureAgent db p dn stx) !! a).
Proof.
  unfold ensureAgent. simpl. rewrite lookup_insert.
  destruct (decide (p = a)); [by eexists|done].
Qed.

Lemma ensureAgent_self db p dn stx :
  is_Some (agents (ensureAgent db p dn stx) !! p).
Proof. unfold ensureAgent. simpl. rewrite lookup_insert_eq. by eexists. Qed.

(** No transition removes an agent. *)
Lemma transition_agent_known db db' a :
  transition db db' → is_Some (agents db !! a) → is_Some (agents db' !! a).
Proof.
  intros Htr Ha. destruct Htr; rewrite ?agents_accept_cascade; simpl; try done.
  - rewrite lookup_alter. case_decide; [subst; apply fmap_is_Some|];
      by apply ensureAgent_known.
  - by apply ensureAgent_known.
  - rewrite lookup_alter.
    assert (is_Some (match task_worker task with
                     | Some w => alter (agent_completed (task_bounty_sats task)) w (agents db)
                     | None => agents db
                     end !! a)) as Hw.
    { destruct (task_worker task); [|done].
      rewrite lookup_alter. case_decide; [subst; by apply fmap_is_Some|done]. }
    case_decide; [subst; by apply fmap_is_Some|done].
  - rewrite lookup_alter. case_decide; [subst; by apply fmap_is_Some|done].
Qed.

Lemma set_task_status_payment s t :
  set_task_status s t = set_task_payment s (task_payment_tx t) t.
Proof. done. Qed.

Lemma transition_task_moved db db' id t' :
  transition db db' → tasks db' !! id = Some t' → task_moved db db' id t'.
Proof.
  intros Htr. destruct Htr; rewrite ?tasks_accept_cascade; simpl;
    rewrite ?lookup_insert;
    try case_decide; subst; intros Ht'; simplify_eq;
    try (by apply moved_same).
  - apply moved_new; [apply next_rowid_fresh|done|done|]. simpl.
    rewrite lookup_alter_eq. apply fmap_is_Some, ensureAgent_self.
  - by eapply moved_assigned.
  - by eapply moved_submitted.
  - eapply moved_closed; [done|done| |done]. tauto.
  - eapply moved_closed; [done|done| |apply set_task_status_payment]. tauto.
  - by eapply moved_cancelled.
Qed.

(** A task that is open after a transition is new or was left alone. *)
Lemma transition_task_open db db' id t' :
  transition db db' → tasks db' !! id = Some t' → task_status_of t' = Open →
  tasks db !! id = None ∨ tasks db !! id = Some t'.
Proof.
  intros Htr Ht Hopen.
  destruct (transition_task_moved _ _ _ _ Htr Ht) as
    [Hnone|Hsame|? ? ? ? ? ? ? ->|? ? ? ? ? ? ? ->|? ? ? ? ? [?|[?|?]] ->|? ? ? ->];
    simpl in *; auto; congruence.
Qed.

(** No transition removes a task or changes its poster. *)
Lemma transition_task_kept db db' id t :
  transition db db' → tasks db !! id = Some t →
  ∃ t', tasks db' !! id = Some t' ∧ task_poster t' = task_poster t.
Proof.
  intros Htr Ht.
  assert (next_rowid (tasks db) ≠ id) as Hfresh.
  { intros <-. by rewrite next_rowid_fresh in Ht. }
  destruct Htr; rewrite ?tasks_accept_cascade; simpl; rewrite ?lookup_insert;
    try case_decide; subst; simplify_eq; eauto.
Qed.

Lemma transition_bid_moved db db' k b' :
  transition db db' → bids db' !! k = Some b' → bid_moved db db' k b'.
Proof.
  intros Htr. destruct Htr; rewrite ?lookup_accept_cascade; simpl;
    try (by apply bid_same).
  - rewrite lookup_insert. case_decide; subst; intros Hb; simplify_eq.
    + eapply bid_new; simpl; [apply next_rowid_fresh|done|done|done|].
      apply ensureAgent_self.
    + by apply bid_same.
  - destruct (bids db !! k) as [b|] eqn:Hb; [|done]. intros [= <-].
    apply (bid_cascaded _ _ _ _ b id k0 bid task
             (set_task_assignment Assigned (bid_bidder bid) (bid_amount_sats bid) task));
      try done.
    rewrite tasks_accept_cascade. simpl. apply lookup_insert_eq.
Qed.

(** No transition removes a bid or changes its task, bidder or amount. *)
Lemma transition_bid_kept db db' k b :
  transition db db' → bids db !! k = Some b →
  ∃ b', bids db' !! k = Some b' ∧ bid_task_id b' = bid_task_id b ∧
        bid_bidder b' = bid_bidder b ∧ bid_amount_sats b' = bid_amount_sats b.
Proof.
  intros Htr Hb.
  assert (next_rowid (bids db) ≠ k) as Hfresh.
  { intros <-. by rewrite next_rowid_fresh in Hb. }
  destruct Htr; rewrite ?lookup_accept_cascade; simpl; eauto.
  - rewrite lookup_insert_ne by done. eauto.
  - rewrite Hb. simpl. eexists.
    split; [done|].
    by rewrite cascade_row_task, cascade_row_bidder, cascade_row_amount.
Qed.

(** ** Sums of bounties *)

Lemma earned_from_commute a (t1 t2 : Task) (y : Z) :
  earned_from a t1 + (earned_from a t2 + y) =
  earned_from a t2 + (earned_from a t1 + y).
Proof. lia. Qed.

Lemma earned_sum_insert_new a id t (m : gmap Z Task) :
  m !! id = None →
  earned_sum a (<[id := t]> m) = earned_from a t + earned_sum a m.
Proof.
  intros Hid. unfold earned_sum.
  rewrite map_fold_insert_L; [done| |done].
  intros. apply earned_from_commute.
Qed.

Lemma earned_sum_delete a id t (m : gmap Z Task) :
  m !! id = Some t →
  earned_sum a m = earned_from a t + earned_sum a (delete id m).
Proof.
  intros Hid. unfold earned_sum.
  rewrite (map_fold_delete_L _ _ id t m); [done| |done].
  intros. apply earned_from_commute.
Qed.

Lemma earned_sum_insert a id t t' (m : gmap Z Task) :
  m !! id = Some t →
  earned_sum a (<[id := t']> m) = earned_sum a m - earned_from a t + earned_from a t'.
Proof.
  intros Hid. rewrite (earned_sum_delete a id t m Hid).
  rewrite <- (insert_delete_eq m id t').
  rewrite earned_sum_insert_new by apply lookup_delete_eq. lia.
Qed.

(** An address nobody works for has earned nothing. *)
Lemma earned_sum_stranger a (m : gmap Z Task) :
  (∀ id t, m !! id = Some t → task_worker t ≠ Some a) → earned_sum a m = 0.
Proof.
  unfold earned_sum.
  apply (map_fold_weak_ind
    (λ r m, (∀ id t, m !! id = Some t → task_worker t ≠ Some a) → r = 0)).
  - done.
  - intros id t m' r Hid IH Hall.
    rewrite IH.
    + unfold earned_from.
      rewrite (bool_decide_eq_false_2 (task_worker t = Some a)); [done|].
      apply (Hall id). apply lookup_insert_eq.
    + intros id' t' Hid'. apply (Hall id').
      rewrite lookup_insert_ne; [done|]. intros <-. congruence.
Qed.

Lemma earned_from_unapproved a t :
  task_status_of t ≠ Verified → task_status_of t ≠ Paid → earned_from a t = 0.
Proof.
  intros Hv Hp. unfold earned_from.
  rewrite (bool_decide_eq_false_2 _ Hv), (bool_decide_eq_false_2 _ Hp).
  by rewrite andb_false_r.
Qed.

Lemma earned_from_approved a s tx t :
  s = Paid ∨ s = Verified →
  earned_from a (set_task_payment s tx t) =
  if bool_decide (task_worker t = Some a) then task_bounty_sats t else 0.
Proof.
  unfold earned_from. simpl. intros [->| ->]; simpl;
    by rewrite ?andb_true_r.
Qed.

(** ** Every transition keeps the tables consistent *)

Section preservation.
Context (db db' : DB).
Hypothesis Hc : consistent db.
Hypothesis Htr : transition db db'.

Lemma keep_open_unassigned id t :
  tasks db' !! id = Some t → task_status_of t = Open → task_worker t = None.
Proof.
  intros Ht Hopen.
  destruct (transition_task_open _ _ _ _ Htr Ht Hopen) as [Hnew|Hsame].
  - destruct (transition_task_moved _ _ _ _ Htr Ht); congruence.
  - by eapply open_unassigned.
Qed.

Lemma keep_unassigned_open id t :
  tasks db' !! id = Some t → task_worker t = None →
  task_status_of t = Open ∨ task_status_of t = Cancelled.
Proof.
  intros Ht Hw.
  destruct (transition_task_moved _ _ _ _ Htr Ht) as
    [| |t0 ? ? ? ? ? ? ->|t0 ? ? ? ? ? ? ->|t0 ? ? Ht0 Hs ? ->|t0 ? ? ->];
    simpl in *; try done; auto.
  - by eapply unassigned_open.
  - congruence.
  - destruct (unassigned_open _ Hc _ _ Ht0 Hw); congruence.
Qed.

Lemma keep_poster_known id t :
  tasks db' !! id = Some t → is_Some (agents db' !! task_poster t).
Proof.
  intros Ht.
  destruct (transition_task_moved _ _ _ _ Htr Ht) as
    [| |t0 ? ? Ht0 ? ? ? ->|t0 ? ? ? Ht0 ? ? ->|t0 ? ? Ht0 ? ? ->|t0 Ht0 ? ->];
    simpl; try done;
    apply (transition_agent_known _ _ _ Htr); by eapply poster_known.
Qed.

Lemma keep_worker_known id t w :
  tasks db' !! id = Some t → task_worker t = Some w →
  is_Some (agents db' !! w) ∧ w ≠ task_poster t.
Proof.
  intros Ht Hw.
  destruct (transition_task_moved _ _ _ _ Htr Ht) as
    [|Ht0|t0 k bid Ht0 ? Hbid Hid ->|t0 ? ? ? Ht0 ? ? ->|t0 ? ? Ht0 ? ? ->|t0 Ht0 ? ->];
    simpl in *; try congruence.
  - destruct (worker_known _ Hc _ _ _ Ht0 Hw).
    split; [by apply (transition_agent_known _ _ _ Htr)|done].
  - injection Hw as <-. split.
    + apply (transition_agent_known _ _ _ Htr). by eapply bidder_known.
    + destruct (bid_of_task _ Hc _ _ Hbid) as (t1 & Ht1 & Hne).
      rewrite Hid, Ht0 in Ht1. injection Ht1 as <-. done.
  - destruct (worker_known _ Hc _ _ _ Ht0 Hw).
    split; [by apply (transition_agent_known _ _ _ Htr)|done].
  - destruct (worker_known _ Hc _ _ _ Ht0 Hw).
    split; [by apply (transition_agent_known _ _ _ Htr)|done].
  - destruct (worker_known _ Hc _ _ _ Ht0 Hw).
    split; [by apply (transition_agent_known _ _ _ Htr)|done].
Qed.

Lemma keep_bidder_known k b :
  bids db' !! k = Some b → is_Some (agents db' !! bid_bidder b).
Proof.
  intros Hb.
  destruct (transition_bid_moved _ _ _ _ Htr Hb) as
    [| |b0 ? ? ? ? ? Hb0 ? ? ? ? ? ? ->]; try done.
  - apply (transition_agent_known _ _ _ Htr). by eapply bidder_known.
  - rewrite cascade_row_bidder.
    apply (transition_agent_known _ _ _ Htr). by eapply bidder_known.
Qed.

Lemma keep_bid_of_task k b :
  bids db' !! k = Some b →
  ∃ t, tasks db' !! bid_task_id b = Some t ∧ task_poster t ≠ bid_bidder b.
Proof.
  intros Hb.
  destruct (transition_bid_moved _ _ _ _ Htr Hb) as
    [t| Hb0 |b0 ? ? ? ? ? Hb0 ? ? ? ? ? ? ->]; eauto.
  - destruct (bid_of_task _ Hc _ _ Hb0) as (t & Ht & Hne).
    destruct (transition_task_kept _ _ _ _ Htr Ht) as (t' & Ht' & Hp).
    exists t'. by rewrite Hp.
  - rewrite cascade_row_task, cascade_row_bidder.
    destruct (bid_of_task _ Hc _ _ Hb0) as (t2 & Ht & Hne).
    destruct (transition_task_kept _ _ _ _ Htr Ht) as (t3 & Ht' & Hp).
    exists t3. by rewrite Hp.
Qed.
Lemma keep_open_pending k b t :
  bids db' !! k = Some b → tasks db' !! bid_task_id b = Some t →
  task_status_of t = Open → bid_status_of b = Pending.
Proof.
  intros Hb Ht Hopen.
  destruct (transition_bid_moved _ _ _ _ Htr Hb) as
    [|Hb0|b0 id bid_key bid t0 t1 Hb0 Hbid Hid Ht0 Hopen0 Ht1 Has ->]; [done| |].
  - destruct (bid_of_task _ Hc _ _ Hb0) as (t1 & Ht1 & _).
    destruct (transition_task_open _ _ _ _ Htr Ht Hopen); [congruence|].
    by eapply open_pending.
  - rewrite cascade_row_task in Ht.
    assert (bid_task_id b0 ≠ id) as Hother by (intros Heq; congruence).
    assert (k ≠ bid_key) as Hkey by (intros ->; congruence).
    unfold cascade_row. rewrite decide_False by done.
    rewrite decide_False by tauto.
    destruct (bid_of_task _ Hc _ _ Hb0) as (t2 & Ht2 & _).
    destruct (transition_task_open _ _ _ _ Htr Ht Hopen); [congruence|].
    by eapply open_pending.
Qed.
(** A bid that comes out of the accept batch as accepted is the chosen
    one: an open task has no accepted bid yet. *)
Lemma cascade_row_accepted id bid_key bid t k b :
  bids db !! bid_key = Some bid → bid_task_id bid = id →
  tasks db !! id = Some t → task_status_of t = Open →
  bids db !! k = Some b → bid_task_id b = id →
  bid_status_of (cascade_row id bid_key k b) = Accepted → k = bid_key.
Proof.
  intros Hbid Hid Ht Hopen Hb Hbt. unfold cascade_row.
  destruct (decide (k = bid_key)); [done|].
  assert (bid_status_of b = Pending) as Hpending.
  { eapply open_pending; [done|done| |done]. by rewrite Hbt. }
  rewrite decide_True by done. done.
Qed.

Lemma cascade_row_other id bid_key k b :
  bid_task_id b ≠ id → k ≠ bid_key → cascade_row id bid_key k b = b.
Proof.
  intros Hne Hk. unfold cascade_row.
  rewrite decide_False by done. rewrite decide_False by tauto. done.
Qed.

Lemma keep_one_accepted k1 k2 b1 b2 :
  bids db' !! k1 = Some b1 → bids db' !! k2 = Some b2 →
  bid_task_id b1 = bid_task_id b2 →
  bid_status_of b1 = Accepted → bid_status_of b2 = Accepted → k1 = k2.
Proof.
  destruct Htr as
    [ | | id task bid_key bid Hbid Hid Htask Hopen | | | | ];
    rewrite ?lookup_accept_cascade; simpl;
    try (by apply (one_accepted _ Hc)).
  - rewrite !lookup_insert. repeat case_decide; intros; simplify_eq;
      try done.
    by eapply (one_accepted _ Hc).
  - destruct (bids db !! k1) as [b01|] eqn:Hb01; [|done].
    destruct (bids db !! k2) as [b02|] eqn:Hb02; [|done].
    simpl. intros [= <-] [= <-]. rewrite !cascade_row_task.
    intros Hsame Ha1 Ha2.
    destruct (decide (bid_task_id b01 = id)) as [H1|H1].
    + assert (k1 = bid_key) by (by eapply cascade_row_accepted).
      assert (k2 = bid_key)
        by (eapply cascade_row_accepted; [done..|congruence|done]).
      congruence.
    + destruct (decide (k1 = bid_key)) as [->|]; [congruence|].
      destruct (decide (k2 = bid_key)) as [->|]; [congruence|].
      rewrite cascade_row_other in Ha1 by done.
      rewrite cascade_row_other in Ha2 by congruence.
      by eapply (one_accepted _ Hc).
Qed.
Lemma alter_total_earned f p (m : gmap string Agent) a ag :
  (∀ x, total_earned_sats (f x) = total_earned_sats x) →
  alter f p m !! a = Some ag →
  ∃ ag0, m !! a = Some ag0 ∧ total_earned_sats ag = total_earned_sats ag0.
Proof.
  intros Hf. rewrite lookup_alter. case_decide; [subst|eauto].
  destruct (m !! a) as [ag0|]; [|done]. intros [= <-]. eauto.
Qed.

Lemma ensureAgent_earned p dn stx a ag :
  agents (ensureAgent db p dn stx) !! a = Some ag →
  total_earned_sats ag = earned_sum a (tasks db).
Proof.
  intros Ha. apply ensureAgent_lookup in Ha
    as [(-> & Hnone & ->)|(ag0 & Ha0 & _ & _ & _ & -> & _)].
  - simpl. symmetry. apply earned_sum_stranger. intros id t Ht Hw.
    destruct (worker_known _ Hc _ _ _ Ht Hw) as [[? Hsome] _]. congruence.
  - by apply (earned_ledger _ Hc).
Qed.

Lemma keep_earned_ledger a ag :
  agents db' !! a = Some ag → total_earned_sats ag = earned_sum a (tasks db').
Proof.
  destruct Htr as
    [ p ti de bo tg dl sg dn stx info
    | id task b amt msg sg dn stx info Htask Hopen Hself
    | id task bid_key bid Hbid Hid Htask Hopen
    | id task w url descr Htask Hw Hs
    | id task newStatus tx info Htask Hs Hnew
    | id task info Htask Hs
    | id task Htask Hopen ];
    rewrite ?tasks_accept_cascade, ?agents_accept_cascade; simpl.
  - intros Ha. apply alter_total_earned in Ha as (ag0 & Ha0 & ->); [|done].
    rewrite earned_sum_insert_new by apply next_rowid_fresh.
    rewrite (ensureAgent_earned _ _ _ _ _ Ha0).
    rewrite earned_from_unapproved; done.
  - apply ensureAgent_earned.
  - intros Ha. rewrite (earned_sum_insert _ _ _ _ _ Htask).
    rewrite !earned_from_unapproved; simpl; try congruence.
    rewrite (earned_ledger _ Hc _ _ Ha). lia.
  - intros Ha. rewrite (earned_sum_insert _ _ _ _ _ Htask).
    rewrite !earned_from_unapproved; simpl; try congruence.
    rewrite (earned_ledger _ Hc _ _ Ha). lia.
  - intros Ha. rewrite (earned_sum_insert _ _ _ _ _ Htask).
    rewrite (earned_from_unapproved a task) by congruence.
    rewrite earned_from_approved by done.
    apply alter_total_earned in Ha as (ag0 & Ha0 & ->); [|done].
    destruct (task_worker task) as [w|] eqn:Hw.
    + revert Ha0. rewrite lookup_alter.
      destruct (decide (w = a)) as [->|Hne].
      * rewrite bool_decide_eq_true_2 by done.
        destruct (agents db !! a) as [ag1|] eqn:Ha1; [|done].
        intros [= <-]. simpl. rewrite (earned_ledger _ Hc _ _ Ha1). lia.
      * rewrite bool_decide_eq_false_2 by congruence.
        intros Ha0. rewrite (earned_ledger _ Hc _ _ Ha0). lia.
    + rewrite bool_decide_eq_false_2 by done.
      rewrite (earned_ledger _ Hc _ _ Ha0). lia.
  - intros Ha. rewrite (earned_sum_insert _ _ _ _ _ Htask).
    rewrite !earned_from_unapproved; simpl; try congruence.
    rewrite (earned_ledger _ Hc _ _ Ha). lia.
  - intros Ha. rewrite (earned_sum_insert _ _ _ _ _ Htask).
    rewrite !earned_from_unapproved; simpl; try congruence.
    apply alter_total_earned in Ha as (ag0 & Ha0 & ->); [|done].
    rewrite (earned_ledger _ Hc _ _ Ha0). lia.
Qed.

Lemma transition_consistent : consistent db'.
Proof.
  split.
  - apply keep_open_unassigned.
  - apply keep_unassigned_open.
  - apply keep_poster_known.
  - apply keep_worker_known.
  - apply keep_bidder_known.
  - apply keep_bid_of_task.
  - apply keep_open_pending.
  - apply keep_one_accepted.
  - apply keep_earned_ledger.
Qed.
End preservation.

Lemma empty_db_consistent : consistent empty_db.
Proof. split; simpl; intros *; rewrite ?lookup_empty; done. Qed.

(** Every reachable database is consistent. *)
Lemma reachable_consistent db : reachable db → consistent db.
Proof.
  induction 1 as [|now request db Hreach IH].
  - apply empty_db_consistent.
  - destruct (fetch_outcome now request db) as [[-> _]|[Htr _]]; [done|].
    by eapply transition_consistent.
Qed.

(** ** The sample session is reachable *)

Lemma reachable_serve requests db : reachable db → reachable (serve requests db).
Proof.
  revert db. induction requests as [|request requests IH]; intros db Hdb.
  - done.
  - simpl. apply IH. by apply reachable_fetch.
Qed.

Lemma db_posted_reachable : reachable db_posted.
Proof. apply reachable_serve, reachable_empty. Qed.

Lemma db_bids_reachable : reachable db_bids.
Proof. apply reachable_serve, db_posted_reachable. Qed.

Lemma db_assigned_reachable : reachable db_assigned.
Proof. apply reachable_serve, db_bids_reachable. Qed.

Lemma db_submitted_reachable : reachable db_submitted.
Proof. apply reachable_serve, db_assigned_reachable. Qed.

Lemma db_cancelled_reachable : reachable db_cancelled.
Proof. apply reachable_serve, db_posted_reachable. Qed.

(** ** Statements and routes *)

(** The statements of a request, run back to back, are its route
    function. *)
Lemma run_alone_fetch now request db :
  run_alone now request db = Some (fetch now request db).
Proof.
  destruct request as [body|id body|id body|id body|id body|id body];
    unfold run_alone, start, fetch.
  - unfold start_create, create_task.
    destruct (or_null (poster body)) as [p|]; [|done].
    destruct (or_null (title body)) as [ti|]; [|done].
    destruct (or_null (description body)) as [de|]; [|done].
    destruct (num_or_null (bounty_sats body)) as [bo|]; [|done].
    destruct (bo <? 1); [done|].
    by destruct (validateAuth now body "create_task" FPoster).
  - unfold start_bid, place_bid.
    destruct (or_null (bidder body)) as [b|]; [|done].
    destruct (num_or_null (amount_sats body)) as [amt|]; [|done].
    destruct (validateAuth now body "bid" FBidder); [done|].
    destruct (tasks db !! id) as [task|]; [|done].
    destruct (negb _); [done|]. by destruct (bool_decide _).
  - unfold start_accept, accept_bid.
    destruct (or_null (poster body)) as [p|]; [|done].
    destruct (num_or_null (bid_id body)) as [k|]; [|done].
    destruct (validateAuth now body "accept_bid" FPoster); [done|].
    destruct (select_bid k id db) as [bid|]; [|done].
    simpl. by destruct (bool_decide _).
  - unfold start_submit, submit_work.
    destruct (or_null (worker body)) as [w|]; [|done].
    destruct (or_null (proof_url body)) as [url|]; [|done].
    destruct (validateAuth now body "submit" FWorker); [done|].
    destruct (tasks db !! id) as [task|]; [|done].
    destruct (negb _); [done|]. by destruct (negb _).
  - unfold start_verify, verify_work.
    destruct (or_null (poster body)) as [p|]; [|done].
    destruct (approved body) as [ok|]; [|done].
    destruct (validateAuth now body "verify" FPoster); [done|].
    destruct (tasks db !! id) as [task|]; [|done].
    destruct (negb _); [done|]. by destruct (negb _).
  - unfold start_cancel, cancel_task.
    destruct (or_null (poster body)) as [p|]; [|done].
    destruct (validateAuth now body "cancel" FPoster); [done|].
    destruct (tasks db !! id) as [task|]; [|done].
    destruct (negb _); [done|]. by destruct (negb _).
Qed.

(** A request in flight alone runs its statements to its answer. *)
Lemma finish_reachable fuel f db r db' n :
  finish fuel f db = Some (r, db') →
  sys_reachable {| store := db; inflight := {[ n := f ]} |} →
  sys_reachable (idle db').
Proof.
  revert f db. induction fuel as [|fuel IH]; intros f db; [done|].
  simpl. destruct (advance f db) as [db1 [f1|r1]] eqn:Hadv.
  - intros Hfin Hreach. apply (IH f1 db1 Hfin).
    pose proof (step_advanced {| store := db; inflight := {[ n := f ]} |}
                  n f db1 f1 (lookup_singleton_eq _ _) Hadv) as Hstep.
    simpl in Hstep. rewrite insert_singleton_eq in Hstep.
    by eapply sys_reachable_step.
  - intros [= <- <-] Hreach.
    pose proof (step_answered {| store := db; inflight := {[ n := f ]} |}
                  n f db1 r1 (lookup_singleton_eq _ _) Hadv) as Hstep.
    simpl in Hstep. rewrite delete_singleton_eq in Hstep.
    by eapply sys_reachable_step.
Qed.

(** Every database reached without overlap is reached by the service. *)
Lemma reachable_sys_reachable db : reachable db → sys_reachable (idle db).
Proof.
  induction 1 as [|now request db Hreach IH]; [constructor|].
  pose proof (run_alone_fetch now request db) as Hrun.
  unfold run_alone in Hrun.
  destruct (start now request db) as [r|f] eqn:Hstart.
  - injection Hrun as <-. done.
  - destruct (fetch now request db) as [r db'] eqn:Hfetch. simpl.
    apply (finish_reachable 4 f db r db' 0%nat Hrun).
    pose proof (step_started (idle db) now request f 0%nat Hstart
                  (lookup_empty _)) as Hstep.
    simpl in Hstep. rewrite insert_empty in Hstep.
    by eapply sys_reachable_step.
Qed.

(** Every event of a run is a step of the service, or leaves it as it
    is. *)
Lemma sys_event_reachable s e : sys_reachable s → sys_reachable (sys_event s e).
Proof.
  intros Hreach. destruct e as [n now request|n|n]; simpl.
  - destruct (inflight s !! n) eqn:Hn; [done|].
    destruct (start now request (store s)) as [r|f] eqn:Hstart; [done|].
    eapply sys_reachable_step; [done|]. by eapply step_started.
  - destruct (inflight s !! n) as [f|] eqn:Hn; [|done].
    destruct (advance f (store s)) as [db' [f'|r]] eqn:Hadv;
      (eapply sys_reachable_step; [done|]).
    + by eapply step_advanced.
    + by eapply step_answered.
  - destruct (inflight s !! n) as [f|] eqn:Hn; [|done].
    eapply sys_reachable_step; [done|]. by eapply step_thrown.
Qed.

Lemma play_reachable events s : sys_reachable s → sys_reachable (play events s).
Proof.
  revert s. induction events as [|e events IH]; intros s Hreach; [done|].
  simpl. by apply IH, sys_event_reachable.
Qed.

(** ** The accept route *)

(** C1.  An accept call that names a bid of the task either fails the
    field or envelope check and is turned away before any statement runs
    (400 or 401, database untouched), or runs the conditional update.  That update
    selects a row exactly when the task exists with status open and the
    caller as poster.  With zero rows changed the call answers 409 and the
    database, with its bids, ledger and activity, is what it was: the batch
    did not run.  With a row changed the task is assigned to the bidder for
    the bid's amount, the other tasks are untouched, and the batch has run
    on that state. *)
Theorem accept_bid_conditional now id body db bid_key bid :
  bid_id body = Some bid_key →
  bids db !! bid_key = Some bid →
  bid_task_id bid = id →
  let r := accept_bid now id body db in
  (passes_checks now (PostAccept id body) = false ∧
   r.2 = db ∧ (resp_code r.1 = 400 ∨ resp_code r.1 = 401)) ∨
  ∃ p, passes_checks now (PostAccept id body) = true ∧
    or_null (poster body) = Some p ∧
    let changes := sql_changes (accept_guard id Open p) (tasks db) in
    (changes ≠ 0%nat ↔
     ∃ t, tasks db !! id = Some t ∧ task_status_of t = Open ∧ task_poster t = p) ∧
    (changes = 0%nat →
     r = (json (ErrorBody "Task already accepted or not open, or not your task") 409,
          db)) ∧
    (changes ≠ 0%nat →
     ∃ t t',
       tasks db !! id = Some t ∧
       r.1 = json (WorkerAssigned (bid_bidder bid)) 200 ∧
       tasks r.2 !! id = Some t' ∧
       t' = set_task_assignment Assigned (bid_bidder bid) (bid_amount_sats bid) t ∧
       task_status_of t' = Assigned ∧
       task_worker t' = Some (bid_bidder bid) ∧
       task_bounty_sats t' = bid_amount_sats bid ∧
       (∀ id', id' ≠ id → tasks r.2 !! id' = tasks db !! id') ∧
       r.2 = accept_cascade id p bid_key bid
               {| tasks := <[id := t']> (tasks db); bids := bids db;
                  agents := agents db; activity := activity db |}).
Proof.
  intros Hkey Hbid Hid r. subst r. unfold accept_bid. simpl.
  destruct (or_null (poster body)) as [p|]; [|left; simpl; auto].
  unfold num_or_null. rewrite Hkey.
  destruct (decide (bid_key = 0)); [left; simpl; auto|].
  destruct (validateAuth _ _ _ _); [left; simpl; auto|].
  rewrite (proj2 (select_bid_Some bid_key id db bid)) by done.
  right. exists p. split.
  { rewrite !bool_decide_eq_true_2; [done|done|by eexists|by eexists]. }
  split; [done|]. simpl.
  split; [apply accept_guard_changes|]. split.
  - intros Hzero. rewrite bool_decide_eq_true_2 by done.
    rewrite sql_update_no_changes by done. by destruct db.
  - intros Hpos. rewrite bool_decide_eq_false_2 by done.
    destruct (proj1 (accept_guard_changes _ _ _ _) Hpos) as (t & Ht & Hopen & Hp).
    exists t, (set_task_assignment Assigned (bid_bidder bid) (bid_amount_sats bid) t).
    erewrite accept_guard_update by done.
    cbn [fst snd]. rewrite tasks_accept_cascade. simpl.
    rewrite lookup_insert_eq. repeat split; try done.
    intros id' Hne. by rewrite lookup_insert_ne.
Qed.

Lemma accept_bid_conditional_witness :
  bid_id (accept_body "alice" 2) = Some 2 ∧
  bids db_bids !! 2 = Some sample_bid_carol ∧
  bid_task_id sample_bid_carol = 1 ∧
  ∃ t', tasks (accept_bid sample_now 1 (accept_body "alice" 2) db_bids).2 !! 1 = Some t' ∧
        task_status_of t' = Assigned ∧ task_worker t' = Some "carol" ∧
        task_bounty_sats t' = 7000.
Proof.
  assert (bid_id (accept_body "alice" 2) = Some 2) as H1 by reflexivity.
  assert (bids db_bids !! 2 = Some sample_bid_carol) as H2 by (vm_compute; reflexivity).
  assert (bid_task_id sample_bid_carol = 1) as H3 by reflexivity.
  split; [exact H1|]. split; [exact H2|]. split; [exact H3|].
  destruct (accept_bid_conditional sample_now 1 _ _ _ _ H1 H2 H3)
    as [(_ & _ & Hcode)|(p & _ & Hp & _ & _ & Hrun)].
  - exfalso. vm_compute in Hcode. destruct Hcode; discriminate.
  - vm_compute in Hp. injection Hp as <-.
    destruct Hrun as (t & t' & _ & _ & Ht' & _ & Hs & Hw & Hb & _).
    { vm_compute. discriminate. }
    exists t'. split; [exact Ht'|]. split; [exact Hs|]. split; [exact Hw|exact Hb].
Defined.

(** ** The verify route *)

Lemma verify_work_approved now id body db p task :
  or_null (poster body) = Some p →
  approved body = Some true →
  validateAuth now body "verify" FPoster = None →
  tasks db !! id = Some task →
  task_poster task = p →
  task_status_of task = Submitted →
  verify_work now id body db =
  (json (StatusReport "verified") 200,
   {| tasks :=
        <[id := set_task_payment
                  (match or_null (payment_tx body) with
                   | Some _ => Paid
                   | None => Verified
                   end) (or_null (payment_tx body)) task]> (tasks db);
      bids := bids db;
      agents :=
        alter agent_reputed p
          (match task_worker task with
           | Some w => alter (agent_completed (task_bounty_sats task)) w (agents db)
           | None => agents db
           end);
      activity :=
        log_activity id p "verified"
          ("Approved. " +:+
             match or_null (payment_tx body) with
             | Some tx => "Paid: " +:+ tx
             | None => "Awaiting payment."
             end) (activity db) |}).
Proof.
  intros Hp Hok Hauth Htask Hposter Hs. unfold verify_work.
  rewrite Hp, Hok, Hauth, Htask.
  rewrite !bool_decide_eq_true_2 by done. simpl.
  rewrite sql_update_with_id, sql_update_with_address, sql_update_with_option.
  rewrite Hposter. by erewrite alter_lookup_insert.
Qed.

(** A verify call answers 200 only after the field, envelope, poster and
    status checks. *)
Lemma verify_work_succeeded now id body db :
  resp_code (verify_work now id body db).1 = 200 →
  ∃ p ok task,
    or_null (poster body) = Some p ∧ approved body = Some ok ∧
    validateAuth now body "verify" FPoster = None ∧
    tasks db !! id = Some task ∧ task_poster task = p ∧
    task_status_of task = Submitted.
Proof.
  unfold verify_work.
  destruct (or_null (poster body)) as [p|]; [|done].
  destruct (approved body) as [ok|]; [|done].
  destruct (validateAuth _ _ _ _) eqn:Hauth; [done|].
  destruct (tasks db !! id) as [task|]; [|done].
  case_bool_decide; [|done]. case_bool_decide; [|done].
  intros _. by exists p, ok, task.
Qed.

(** C10.  A verify call with [approved = true] that succeeds answers with
    status "verified" whether or not a payment reference came with it; when
    one did, the task is stored as "paid" while the answer says
    "verified". *)
Theorem verify_response_reports_verified now id body db :
  approved body = Some true →
  resp_code (verify_work now id body db).1 = 200 →
  let r := verify_work now id body db in
  resp_body r.1 = StatusReport "verified" ∧
  ∀ tx, or_null (payment_tx body) = Some tx →
    ∃ t', tasks r.2 !! id = Some t' ∧ task_status_of t' = Paid ∧
          task_payment_tx t' = Some tx ∧
          resp_body r.1 ≠ StatusReport (status_text (task_status_of t')).
Proof.
  intros Hok Hcode.
  destruct (verify_work_succeeded _ _ _ _ Hcode)
    as (p & ok & task & Hp & Hok' & Hauth & Htask & Hposter & Hs).
  simpl. rewrite (verify_work_approved _ _ _ _ _ _ Hp Hok Hauth Htask Hposter Hs).
  simpl. split; [done|]. intros tx Htx. rewrite Htx.
  eexists. rewrite lookup_insert_eq. split; [done|]. simpl. done.
Qed.

Lemma verify_response_reports_verified_witness :
  let body := verify_body "alice" true (Some "0xabc") in
  let r := verify_work sample_now 1 body db_submitted in
  approved body = Some true ∧
  resp_code r.1 = 200 ∧
  resp_body r.1 = StatusReport "verified" ∧
  ∃ t', tasks r.2 !! 1 = Some t' ∧ task_status_of t' = Paid.
Proof.
  assert (approved (verify_body "alice" true (Some "0xabc")) = Some true)
    as H1 by reflexivity.
  assert (resp_code (verify_work sample_now 1
            (verify_body "alice" true (Some "0xabc")) db_submitted).1 = 200)
    as H2 by (vm_compute; reflexivity).
  split; [exact H1|]. split; [exact H2|].
  destruct (verify_response_reports_verified sample_now 1 _ _ H1 H2) as [Hbody Hpaid].
  split; [exact Hbody|].
  destruct (Hpaid "0xabc") as (t' & Ht' & Hs & _); [reflexivity|].
  exists t'. split; [exact Ht'|exact Hs].
Defined.

Lemma or_null_Some x s : or_null x = Some s → x = Some s ∧ s ≠ "".
Proof.
  unfold or_null. destruct x as [s'|]; [|done].
  case_decide; [done|]. by intros [= ->].
Qed.

Lemma passes_checks_verify now id body :
  passes_checks now (PostVerify id body) = true →
  ∃ p ok, or_null (poster body) = Some p ∧ approved body = Some ok ∧
          validateAuth now body "verify" FPoster = None.
Proof.
  simpl. rewrite !andb_true_iff, !bool_decide_eq_true.
  intros [[[p Hp] [ok Hok]] Hauth]. eauto.
Qed.



(** ** The ledger *)

Lemma alter_reputation f p (m : gmap string Agent) a ag :
  (∀ x, reputation x ≤ reputation (f x)) →
  m !! a = Some ag →
  ∃ ag', alter f p m !! a = Some ag' ∧ reputation ag ≤ reputation ag'.
Proof.
  intros Hf Ha. rewrite lookup_alter. case_decide; subst; rewrite Ha; simpl.
  - eexists. split; [done|]. apply Hf.
  - eexists. split; [done|]. lia.
Qed.

Lemma ensureAgent_reputation db p dn stx a ag :
  agents db !! a = Some ag →
  ∃ ag', agents (ensureAgent db p dn stx) !! a = Some ag' ∧
         reputation ag ≤ reputation ag'.
Proof.
  intros Ha. unfold ensureAgent. simpl. rewrite lookup_insert.
  case_decide; subst; [rewrite Ha|]; eexists; (split; [done|]); simpl; lia.
Qed.

Lemma transition_reputation db db' a ag :
  transition db db' → agents db !! a = Some ag →
  ∃ ag', agents db' !! a = Some ag' ∧ reputation ag ≤ reputation ag'.
Proof.
  intros Htr Ha.
  destruct Htr; rewrite ?agents_accept_cascade; simpl;
    try (exists ag; split; [done|lia]).
  - destruct (ensureAgent_reputation db p dn stx _ _ Ha) as (ag1 & Ha1 & Hle).
    destruct (alter_reputation (agent_posted bo) p _ _ _
                ltac:(intros; simpl; lia) Ha1) as (ag2 & Ha2 & Hle2).
    exists ag2. split; [done|lia].
  - by apply ensureAgent_reputation.
  - assert (∃ ag1,
      match task_worker task with
      | Some w => alter (agent_completed (task_bounty_sats task)) w (agents db)
      | None => agents db
      end !! a = Some ag1 ∧ reputation ag ≤ reputation ag1) as (ag1 & Ha1 & Hle).
    { destruct (task_worker task).
      - apply alter_reputation; [|done]. intros; simpl; lia.
      - exists ag. split; [done|lia]. }
    destruct (alter_reputation agent_reputed (task_poster task) _ _ _
                ltac:(intros; simpl; lia) Ha1) as (ag2 & Ha2 & Hle2).
    exists ag2. split; [done|lia].
  - apply alter_reputation; [|done]. intros; simpl; lia.
Qed.

(** C6.  No request lowers the reputation of any agent: whatever the
    database, the request and its time, an agent that has a row still has
    one afterwards, with at least the reputation it had. *)
Theorem reputation_never_decreases now request db a ag :
  agents db !! a = Some ag →
  ∃ ag', agents (fetch now request db).2 !! a = Some ag' ∧
         reputation ag ≤ reputation ag'.
Proof.
  intros Ha.
  destruct (fetch_outcome now request db) as [[-> _]|[Htr _]].
  - exists ag. split; [done|lia].
  - by eapply transition_reputation.
Qed.

Lemma reputation_never_decreases_witness :
  let db' := (fetch sample_now (PostVerify 1 (verify_body "alice" true None))
                db_submitted).2 in
  agents db_submitted !! "carol" = Some (new_agent None None) ∧
  ∃ ag', agents db' !! "carol" = Some ag' ∧ 0 ≤ reputation ag'.
Proof.
  assert (agents db_submitted !! "carol" = Some (new_agent None None)) as Ha
    by (vm_compute; reflexivity).
  split; [exact Ha|].
  exact (reputation_never_decreases sample_now
           (PostVerify 1 (verify_body "alice" true None)) db_submitted
           "carol" (new_agent None None) Ha).
Defined.

(** ** Refusals *)

Ltac use_checks H :=
  simpl in H; rewrite ?andb_true_iff, ?negb_true_iff, ?bool_decide_eq_true in H;
  repeat match type of H with _ ∧ _ => destruct H as [H ?] end.

Ltac clash :=
  repeat match goal with
         | H : is_Some ?x, E : ?x = None |- _ =>
           rewrite E in H; by destruct H
         | H : ?x = None, E : ?x = Some _ |- _ => rewrite E in H; discriminate
         end.

Ltac given_fields :=
  repeat match goal with
         | E : or_null _ = Some _ |- _ => apply or_null_Some in E as [E _]
         end.

Ltac refusal :=
  split; [reflexivity|split; [eexists; split; [reflexivity|tauto]|]].

Ltac out_of_role Hrole :=
  exfalso; specialize (Hrole eq_refl); simpl in Hrole; given_fields; congruence.

(** A request aimed at a task that is not in the state its route starts
    from changes nothing and is refused; once past the field, envelope and
    role checks the answer is the route's own 400. *)
Lemma wrong_state_outcome now request db id t s :
  target request = Some id →
  source_state request = Some s →
  tasks db !! id = Some t →
  task_status_of t ≠ s →
  let r := fetch now request db in
  r.2 = db ∧ refused r.1 ∧
  (passes_checks now request = true →
   (role_bound request = true → acting_address request = required_address request t) →
   r.1 = json (ErrorBody (state_error request)) 400).
Proof.
  intros Htarget Hsrc Htask Hstate.
  destruct request; simpl in Htarget, Hsrc; simplify_eq; simpl.
  - unfold place_bid. rewrite Htask. split_handler; reflect_bools;
      try congruence; refusal;
      intros Hchecks Hrole; use_checks Hchecks; clash; try done.
  - unfold submit_work. rewrite Htask. split_handler; reflect_bools;
      try congruence; refusal;
      intros Hchecks Hrole; use_checks Hchecks; clash; try done.
    out_of_role Hrole.
  - unfold verify_work. rewrite Htask. split_handler; reflect_bools;
      try congruence; refusal;
      intros Hchecks Hrole; use_checks Hchecks; clash; try done;
      out_of_role Hrole.
  - unfold cancel_task. rewrite Htask. split_handler; reflect_bools;
      try congruence; refusal;
      intros Hchecks Hrole; use_checks Hchecks; clash; try done;
      out_of_role Hrole.
Qed.

(** The accept route on a task that is not open, or for a caller who is not
    its poster: the conditional update selects nothing. *)
Lemma accept_bid_unmatched now id body db t :
  tasks db !! id = Some t →
  task_status_of t ≠ Open ∨ poster body ≠ Some (task_poster t) →
  let r := accept_bid now id body db in
  r.2 = db ∧ refused r.1 ∧
  (passes_checks now (PostAccept id body) = true →
   r.1 = json (ErrorBody "Task already accepted or not open, or not your task") 409
   ∨ r.1 = json (ErrorBody "Bid not found") 404).
Proof.
  intros Htask Hno. simpl. unfold accept_bid.
  destruct (or_null (poster body)) as [p|] eqn:Hp;
    [|refusal; intros Hchecks; use_checks Hchecks; clash; done].
  destruct (num_or_null (bid_id body)) as [k|] eqn:Hk;
    [|refusal; intros Hchecks; use_checks Hchecks; clash; done].
  destruct (validateAuth _ _ _ _) eqn:Hauth;
    [refusal; intros Hchecks; use_checks Hchecks; clash; done|].
  destruct (select_bid k id db) as [bid|]; [|refusal; auto].
  assert (sql_changes (accept_guard id Open p) (tasks db) = 0%nat) as Hzero.
  { destruct (decide (sql_changes (accept_guard id Open p) (tasks db) = 0%nat))
      as [|Hpos]; [done|].
    apply accept_guard_changes in Hpos as (t' & Ht' & Hopen & Hposter).
    apply or_null_Some in Hp as [Hp _].
    destruct Hno; congruence. }
  rewrite bool_decide_eq_true_2 by done. simpl.
  split; [|split; [eexists; split; [reflexivity|tauto]|auto]].
  rewrite sql_update_no_changes by done. by destruct db.
Qed.

(** C8, as the spec states it, fails on the accept route.  In the sample
    session after the two bids, "mallory" (not the poster "alice") accepts
    bid 2 of task 1: the answer is 409, the conflict of the conditional
    update, and neither 403 nor 401. *)
Lemma accept_by_stranger_is_conflict :
  let request := PostAccept 1 (accept_body "mallory" 2) in
  let r := fetch sample_now request db_bids in
  (task_poster <$> tasks db_bids !! 1) = Some "alice" ∧
  acting_address request = Some "mallory" ∧
  passes_checks sample_now request = true ∧
  r.1 = json (ErrorBody "Task already accepted or not open, or not your task") 409 ∧
  ¬ (resp_code r.1 = 403 ∨ resp_code r.1 = 401).
Proof.
  vm_compute. repeat split; intros [?|?]; discriminate.
Qed.

(** C8 (amended).  On an existing task, a submit, verify, cancel or accept
    request whose acting address is not the one the route requires (the
    task's worker for submit, its poster for the others) changes no task,
    bid, ledger or activity row and is refused.  When the request carries
    its required fields and an accepted envelope, submit, verify and cancel
    answer 403; accept answers 409 from its conditional update, or 404 when
    the named bid is not a bid of the task. *)
Theorem role_mismatch_refused now request db id t :
  role_bound request = true →
  target request = Some id →
  tasks db !! id = Some t →
  acting_address request ≠ required_address request t →
  let r := fetch now request db in
  r.2 = db ∧ refused r.1 ∧
  (passes_checks now request = true →
   r.1 = role_error request ∨
   ∃ body, request = PostAccept id body ∧
           r.1 = json (ErrorBody "Bid not found") 404).
Proof.
  intros Hbound Htarget Htask Hrole.
  destruct request; simpl in Hbound, Htarget, Hrole; simplify_eq; simpl.
  - destruct (accept_bid_unmatched now id body db t Htask (or_intror Hrole))
      as (Hdb & Href & Hcode).
    split; [done|]. split; [done|]. intros Hchecks.
    destruct (Hcode Hchecks); eauto.
  - unfold submit_work. rewrite Htask. split_handler; reflect_bools;
      try (exfalso; given_fields; congruence); refusal;
      intros Hchecks; use_checks Hchecks; clash; try done; by auto.
  - unfold verify_work. rewrite Htask. split_handler; reflect_bools;
      try (exfalso; given_fields; congruence); refusal;
      intros Hchecks; use_checks Hchecks; clash; try done; by auto.
  - unfold cancel_task. rewrite Htask. split_handler; reflect_bools;
      try (exfalso; given_fields; congruence); refusal;
      intros Hchecks; use_checks Hchecks; clash; try done; by auto.
Qed.

Lemma role_mismatch_refused_witness :
  let request := PostSubmit 1 (submit_body "bob" "https://x") in
  let r := fetch sample_now request db_assigned in
  role_bound request = true ∧
  target request = Some 1 ∧
  (task_worker <$> tasks db_assigned !! 1) = Some (Some "carol") ∧
  r.2 = db_assigned ∧
  r.1 = json (ErrorBody "Only the assigned worker can submit") 403.
Proof.
  pose (t := set_task_assignment Assigned "carol" 7000
               (new_task "alice" "Build agent dashboard" "Full description" 10000
                  None None (Some sample_signature))).
  assert (tasks db_assigned !! 1 = Some t) as Ht by (vm_compute; reflexivity).
  split; [reflexivity|]. split; [reflexivity|].
  split; [vm_compute; reflexivity|].
  destruct (role_mismatch_refused sample_now
              (PostSubmit 1 (submit_body "bob" "https://x")) db_assigned 1 t)
    as (Hdb & _ & Hcode).
  - reflexivity.
  - reflexivity.
  - exact Ht.
  - simpl. discriminate.
  - split; [exact Hdb|].
    destruct Hcode as [Hr|(body & Hreq & _)].
    + vm_compute. reflexivity.
    + exact Hr.
    + discriminate Hreq.
Defined.

(** C9, as the spec states it, fails: no refusal reports the task's
    current state.  In the sample session the poster cancels task 1 after it
    was assigned; the answer is the fixed text of the cancel route, which
    does not name the status "assigned". *)
Lemma wrong_state_error_names_no_state :
  let request := PatchCancel 1 (cancel_body "alice") in
  let r := fetch sample_now request db_assigned in
  (task_status_of <$> tasks db_assigned !! 1) = Some Assigned ∧
  source_state request = Some Open ∧
  r.1 = json (ErrorBody "Can only cancel open tasks") 400 ∧
  ¬ reports_state r.1 Assigned.
Proof.
  split; [vm_compute; reflexivity|]. split; [reflexivity|].
  split; [vm_compute; reflexivity|].
  intros (msg & Hmsg & Hin). vm_compute in Hmsg.
  injection Hmsg as <-. vm_compute in Hin. discriminate.
Qed.

(** C9 (amended).  A bid, cancel, submit or verify request on an existing
    task whose status is not the one the route starts from (open for bid and
    cancel, assigned for submit, submitted for verify) changes nothing and is
    refused.  When the request carries its required fields and an accepted
    envelope, and the acting address holds the role the route is bound to,
    the answer is a 400 with the fixed text of the route, and that text
    does not name the task's current status. *)
Theorem wrong_state_refused now request db id t s :
  target request = Some id →
  source_state request = Some s →
  tasks db !! id = Some t →
  task_status_of t ≠ s →
  let r := fetch now request db in
  r.2 = db ∧ refused r.1 ∧
  (passes_checks now request = true →
   (role_bound request = true → acting_address request = required_address request t) →
   r.1 = json (ErrorBody (state_error request)) 400 ∧
   ¬ reports_state r.1 (task_status_of t)).
Proof.
  intros Htarget Hsrc Htask Hstate.
  destruct (wrong_state_outcome now request db id t s Htarget Hsrc Htask Hstate)
    as (Hdb & Href & Hcode).
  split; [done|]. split; [done|]. intros Hchecks Hrole.
  rewrite (Hcode Hchecks Hrole). split; [done|].
  intros (msg & Hmsg & Hin). simpl in Hmsg. injection Hmsg as <-.
  destruct request; simpl in Hsrc; simplify_eq;
    destruct (task_status_of t); try done; vm_compute in Hin; discriminate.
Qed.

Lemma wrong_state_refused_witness :
  let request := PostSubmit 1 (submit_body "carol" "https://y") in
  let r := fetch sample_now request db_submitted in
  target request = Some 1 ∧
  source_state request = Some Assigned ∧
  (task_status_of <$> tasks db_submitted !! 1) = Some Submitted ∧
  r.2 = db_submitted ∧
  r.1 = json (ErrorBody "Task is not in assigned state") 400.
Proof.
  pose (t :=
    set_task_proof Submitted "https://x" None
      (set_task_assignment Assigned "carol" 7000
         (new_task "alice" "Build agent dashboard" "Full description" 10000
            None None (Some sample_signature)))).
  assert (tasks db_submitted !! 1 = Some t) as Ht by (vm_compute; reflexivity).
  split; [reflexivity|]. split; [reflexivity|].
  split; [vm_compute; reflexivity|].
  destruct (wrong_state_refused sample_now
              (PostSubmit 1 (submit_body "carol" "https://y")) db_submitted 1 t
              Assigned)
    as (Hdb & _ & Hcode).
  - reflexivity.
  - reflexivity.
  - exact Ht.
  - simpl. discriminate.
  - split; [exact Hdb|]. apply Hcode.
    + vm_compute. reflexivity.
    + intros _. reflexivity.
Defined.

(** ** Cancellation *)

Lemma cancel_task_done now id body db task :
  passes_checks now (PatchCancel id body) = true →
  poster body = Some (task_poster task) →
  tasks db !! id = Some task →
  task_status_of task = Open →
  cancel_task now id body db =
  (json Success 200,
   {| tasks := <[id := set_task_status Cancelled task]> (tasks db);
      bids := bids db;
      agents :=
        alter (agent_refunded (task_bounty_sats task)) (task_poster task) (agents db);
      activity :=
        log_activity id (task_poster task) "cancelled" "Task cancelled" (activity db) |}).
Proof.
  intros Hchecks Hposter Htask Hopen. use_checks Hchecks.
  destruct Hchecks as [p Hp].
  destruct (or_null_Some _ _ Hp) as [Hp' _].
  assert (p = task_poster task) as -> by congruence.
  unfold cancel_task. rewrite Hp, Htask.
  match goal with H : validateAuth _ _ _ _ = None |- _ => rewrite H end.
  rewrite !bool_decide_eq_true_2 by done. simpl.
  rewrite sql_update_with_id, sql_update_with_address.
  by erewrite alter_lookup_insert.
Qed.

(** C7.  The claim fails on the code when a cancel call overlaps another
    call for the same task.  The cancel route reads the task, checks that it
    is open, and later runs its batch with [WHERE id = ?] only.

    Two cancel calls for the open task 1: both pass the check; the first
    batch cancels the task and answers 200; the second batch runs on the
    cancelled task, answers 200 as well, and refunds the bounty a second
    time, so alice's [total_spent_sats] is -10000.

    A cancel call and an accept call for task 1: the cancel passes its check
    while the task is open; the accept then assigns the task to carol and
    answers 200; the batch of the cancel then runs on the assigned task and
    answers 200, leaving the task cancelled with carol as its worker.

    So a cancel succeeds on a task that is not open, and a transition
    succeeds on a cancelled task. *)
Theorem overlapping_cancel_succeeds :
  sys_reachable cancelled_twice ∧
  answer both_cancelling (Run 1%nat) = Some (json Success 200) ∧
  (task_status_of <$> tasks (store cancelled_once) !! 1) = Some Cancelled ∧
  answer cancelled_once (Run 2%nat) = Some (json Success 200) ∧
  (total_spent_sats <$> agents (store both_cancelling) !! "alice") = Some 10000 ∧
  (total_spent_sats <$> agents (store cancelled_twice) !! "alice") = Some (-10000) ∧
  sys_reachable cancelled_after_accept ∧
  (task_status_of <$> tasks (store accepted_meanwhile) !! 1) = Some Assigned ∧
  answer accepted_meanwhile (Run 1%nat) = Some (json Success 200) ∧
  (task_status_of <$> tasks (store cancelled_after_accept) !! 1) = Some Cancelled ∧
  (task_worker <$> tasks (store cancelled_after_accept) !! 1) = Some (Some "carol").
Proof.
  assert (sys_reachable (idle db_posted)) as Hposted
    by apply reachable_sys_reachable, db_posted_reachable.
  assert (sys_reachable (idle db_bids)) as Hbids
    by apply reachable_sys_reachable, db_bids_reachable.
  split; [do 3 apply play_reachable; exact Hposted|].
  split; [vm_compute; reflexivity|]. split; [vm_compute; reflexivity|].
  split; [vm_compute; reflexivity|]. split; [vm_compute; reflexivity|].
  split; [vm_compute; reflexivity|].
  split; [do 3 apply play_reachable; exact Hbids|].
  split; [vm_compute; reflexivity|]. split; [vm_compute; reflexivity|].
  split; vm_compute; reflexivity.
Qed.

(** ** Workers and statuses *)

(** C2, as the spec states it, fails: a cancelled task has a null worker
    and is not open.  In the sample session alice posts task 1 and cancels
    it. *)
Lemma cancelled_task_has_no_worker :
  reachable db_cancelled ∧
  (task_worker <$> tasks db_cancelled !! 1) = Some None ∧
  (task_status_of <$> tasks db_cancelled !! 1) = Some Cancelled ∧
  ¬ (∀ db, reachable db → ∀ id t, tasks db !! id = Some t →
       (task_worker t = None ↔ task_status_of t = Open)).
Proof.
  assert ((task_worker <$> tasks db_cancelled !! 1) = Some None) as Hw
    by (vm_compute; reflexivity).
  assert ((task_status_of <$> tasks db_cancelled !! 1) = Some Cancelled) as Hs
    by (vm_compute; reflexivity).
  split; [exact db_cancelled_reachable|]. split; [exact Hw|]. split; [exact Hs|].
  intros Hiff.
  destruct (tasks db_cancelled !! 1) as [t|] eqn:Ht; [|discriminate].
  injection Hw as Hw. injection Hs as Hs.
  pose proof (proj1 (Hiff _ db_cancelled_reachable 1 t Ht) Hw). congruence.
Qed.

(** Once a worker is set it stays, and a task that left "open" does not
    come back. *)
Lemma transition_task_progress db db' id t t' :
  consistent db → transition db db' →
  tasks db !! id = Some t → tasks db' !! id = Some t' →
  (∀ w, task_worker t = Some w → task_worker t' = Some w) ∧
  (task_status_of t ≠ Open → task_status_of t' ≠ Open).
Proof.
  intros Hc Htr Ht Ht'.
  destruct (transition_task_moved _ _ _ _ Htr Ht') as
    [Hnone|Hsame|t0 ? ? Ht0 Hopen ? ? ->|t0 ? ? ? Ht0 ? ? ->
    |t0 ? ? Ht0 ? Hs ->|t0 Ht0 ? ->];
    simplify_eq; simpl; try done.
  - pose proof (open_unassigned _ Hc _ _ Ht Hopen). split; congruence.
  - split; [done|]. intros _. destruct Hs as [->|[->| ->]]; done.
Qed.

(** C2 (amended).  In every reachable database an open task has a null
    worker, and a task with a null worker is open or cancelled (cancelling
    an open task leaves its worker null).  No request clears a worker that is
    set, and no request returns a task to open. *)
Theorem worker_null_open_or_cancelled db id t :
  reachable db →
  tasks db !! id = Some t →
  (task_status_of t = Open → task_worker t = None) ∧
  (task_worker t = None →
   task_status_of t = Open ∨ task_status_of t = Cancelled) ∧
  ∀ now request,
    ∃ t', tasks (fetch now request db).2 !! id = Some t' ∧
          (∀ w, task_worker t = Some w → task_worker t' = Some w) ∧
          (task_status_of t ≠ Open → task_status_of t' ≠ Open).
Proof.
  intros Hreach Ht. pose proof (reachable_consistent _ Hreach) as Hc.
  split; [by eapply open_unassigned|]. split; [by eapply unassigned_open|].
  intros now request.
  destruct (fetch_outcome now request db) as [[-> _]|[Htr _]]; [by exists t|].
  destruct (transition_task_kept _ _ _ _ Htr Ht) as (t' & Ht' & _).
  exists t'. split; [done|]. by eapply transition_task_progress.
Qed.

Lemma worker_null_open_or_cancelled_witness :
  reachable db_assigned ∧
  ∃ t, tasks db_assigned !! 1 = Some t ∧
       (task_worker t = None →
        task_status_of t = Open ∨ task_status_of t = Cancelled) ∧
       ∃ t', tasks (fetch sample_now (PostSubmit 1 (submit_body "carol" "https://x"))
                      db_assigned).2 !! 1 = Some t' ∧
             (task_status_of t ≠ Open → task_status_of t' ≠ Open).
Proof.
  pose (t := set_task_assignment Assigned "carol" 7000
               (new_task "alice" "Build agent dashboard" "Full description" 10000
                  None None (Some sample_signature))).
  assert (tasks db_assigned !! 1 = Some t) as Ht by (vm_compute; reflexivity).
  split; [exact db_assigned_reachable|]. exists t. split; [exact Ht|].
  destruct (worker_null_open_or_cancelled db_assigned 1 t db_assigned_reachable Ht)
    as (_ & Hnull & Hnext).
  split; [exact Hnull|].
  destruct (Hnext sample_now (PostSubmit 1 (submit_body "carol" "https://x")))
    as (t' & Ht' & _ & Hstays).
  exists t'. split; [exact Ht'|exact Hstays].
Defined.

(** ** While requests overlap *)

Lemma same_posting_refl t : same_posting t t.
Proof. by repeat split. Qed.

Lemma same_offer_refl b : same_offer b b.
Proof. by repeat split. Qed.

Lemma same_offer_trans b1 b2 b3 :
  same_offer b1 b2 → same_offer b2 b3 → same_offer b1 b3.
Proof.
  intros (? & ? & ? & ? & ?) (? & ? & ? & ? & ?). repeat split; congruence.
Qed.

(** The statements in the form of their effect on single rows. *)
Ltac split_advance f Hadv :=
  destruct f as [body p ti de bo|body p ti de bo|p bo new_id|p bo new_id
                |id body b amt|id body b amt|id body b amt new_id
                |id p bid_key bid|id p bid_key bid
                |id body w url|id body p ok task|id p task];
  simpl in Hadv;
  [ | | | | | | | destruct (bool_decide _) eqn:Hchanges in Hadv | |
    | destruct ok | ];
  injection Hadv as <- <-;
  cbn [tasks bids agents activity];
  rewrite ?sql_update_with_id, ?sql_update_with_address, ?sql_update_with_option.

Lemma evolves_refl db : evolves db db.
Proof.
  split; [intros id t Ht; exists t; split; [done|split; [apply same_posting_refl|done]]
         |intros k b Hb; exists b; split; [done|apply same_offer_refl]
         |done|done].
Qed.

Lemma alter_task_kept (g : Task → Task) id (m : gmap Z Task) id' t :
  (∀ t0, same_posting t0 (g t0) ∧ task_worker (g t0) = task_worker t0 ∧
         task_bounty_sats (g t0) = task_bounty_sats t0) →
  m !! id' = Some t →
  ∃ t', alter g id m !! id' = Some t' ∧ same_posting t t' ∧
        ∀ w, task_worker t = Some w →
             task_worker t' = Some w ∧ task_bounty_sats t' = task_bounty_sats t.
Proof.
  intros Hg Ht. rewrite lookup_alter.
  destruct (decide (id = id')) as [->|Hne].
  - rewrite Ht. simpl. eexists. split; [done|].
    destruct (Hg t) as (? & Hw & Hbo). split; [done|].
    intros w Hw'. by rewrite Hw, Hbo.
  - exists t. split; [done|]. split; [apply same_posting_refl|done].
Qed.

Lemma advance_evolves f db db' o :
  sound db → advance f db = (db', o) → evolves db db'.
Proof.
  intros Hso Hadv. split_advance f Hadv.
  - (* ensureAgent *)
    split; simpl; try (by destruct (evolves_refl db)).
    intros a Ha. rewrite lookup_insert. by case_decide.
  - split; simpl; try (by destruct (evolves_refl db)).
    intros id t Ht. exists t. rewrite lookup_insert_ne.
    + split; [done|]. split; [apply same_posting_refl|done].
    + intros <-. by rewrite next_rowid_fresh in Ht.
  - split; simpl; try (by destruct (evolves_refl db)).
    intros a Ha. rewrite lookup_alter. case_decide; subst; [by apply fmap_is_Some|done].
  - split; simpl; try (by destruct (evolves_refl db)).
    by apply prefix_app_r.
  - split; simpl; try (by destruct (evolves_refl db)).
    intros a Ha. rewrite lookup_insert. by case_decide.
  - split; simpl; try (by destruct (evolves_refl db)).
    intros k b0 Hb. exists b0. rewrite lookup_insert_ne.
    + split; [done|apply same_offer_refl].
    + intros <-. by rewrite next_rowid_fresh in Hb.
  - split; simpl; try (by destruct (evolves_refl db)).
    by apply prefix_app_r.
  - (* the conditional update changed nothing *)
    apply bool_decide_eq_true in Hchanges.
    rewrite (sql_update_no_changes _ _ _ Hchanges).
    split; simpl; by destruct (evolves_refl db).
  - apply bool_decide_eq_false in Hchanges.
    apply accept_guard_changes in Hchanges as (t0 & Ht0 & Hopen & Hp).
    rewrite (accept_guard_update _ _ _ _ _ _ Ht0 Hopen Hp).
    split; simpl; try (by destruct (evolves_refl db)).
    intros id' t Ht. rewrite lookup_insert.
    destruct (decide (id = id')) as [->|Hne].
    + assert (t = t0) as -> by congruence. eexists. split; [done|].
      split; [by repeat split|]. intros w Hw.
      pose proof (so_open_unassigned _ Hso _ _ Ht0 Hopen). congruence.
    + exists t. split; [done|]. split; [apply same_posting_refl|done].
  - split; rewrite ?tasks_accept_cascade, ?agents_accept_cascade;
      try (by destruct (evolves_refl db)).
    + intros k b0 Hb. rewrite lookup_accept_cascade, Hb. simpl.
      eexists. split; [done|apply cascade_row_offer].
    + unfold accept_cascade. simpl. by apply prefix_app_r.
  - split; simpl; try (by destruct (evolves_refl db)).
    + intros id' t Ht. by apply alter_task_kept.
    + by apply prefix_app_r.
  - split; simpl; try (by destruct (evolves_refl db)).
    + intros id' t Ht. by apply alter_task_kept.
    + intros a Ha. rewrite lookup_alter.
      case_decide; subst; [apply fmap_is_Some|];
        (destruct (task_worker task); [|done]);
        rewrite lookup_alter; case_decide; subst; by rewrite ?fmap_is_Some.
    + by apply prefix_app_r.
  - split; simpl; try (by destruct (evolves_refl db)).
    + intros id' t Ht. by apply alter_task_kept.
    + by apply prefix_app_r.
  - split; simpl; try (by destruct (evolves_refl db)).
    + intros id' t Ht. by apply alter_task_kept.
    + intros a Ha. rewrite lookup_alter. case_decide; subst; [by apply fmap_is_Some|done].
    + by apply prefix_app_r.
Qed.

Lemma knows_rows_evolves db db' f :
  evolves db db' → knows_rows db f →
  (∀ id, updating f = Some id →
     ∀ k b, bids db' !! k = Some b → bid_task_id b = id →
            bid_status_of b = Pending) →
  knows_rows db' f.
Proof.
  intros Hev Hknows Hpending.
  assert (∀ id, is_Some (tasks db !! id) → is_Some (tasks db' !! id)) as Hkept.
  { intros id [t Ht]. destruct (ev_task _ _ Hev _ _ Ht) as (t' & Ht' & _).
    by eexists. }
  assert (∀ id, (∃ t, tasks db !! id = Some t ∧ is_Some (task_worker t)) →
                ∃ t, tasks db' !! id = Some t ∧ is_Some (task_worker t))
    as Hworker.
  { intros id (t & Ht & [w Hw]).
    destruct (ev_task _ _ Hev _ _ Ht) as (t' & Ht' & _ & Hw').
    exists t'. split; [done|]. destruct (Hw' w Hw) as [-> _]. by eexists. }
  assert (∀ k bid, (∃ b', bids db !! k = Some b' ∧ same_offer bid b') →
                   ∃ b', bids db' !! k = Some b' ∧ same_offer bid b') as Hbid.
  { intros k bid (b' & Hb' & Hsame).
    destruct (ev_bid _ _ Hev _ _ Hb') as (b'' & Hb'' & Hsame').
    exists b''. split; [done|]. by eapply same_offer_trans. }
  destruct f; simpl in *; auto.
  - destruct Hknows as (t & Ht & Hne).
    destruct (ev_task _ _ Hev _ _ Ht) as (t' & Ht' & (Hp & _) & _).
    exists t'. split; [done|congruence].
  - destruct Hknows as (t & Ht & Hne).
    destruct (ev_task _ _ Hev _ _ Ht) as (t' & Ht' & (Hp & _) & _).
    exists t'. split; [done|congruence].
  - destruct Hknows as [Hid Hb]. split; [done|by apply Hbid].
  - destruct Hknows as (Hid & Hb & (t & Ht & Hw & Hbo) & _).
    split; [done|]. split; [by apply Hbid|]. split; [|by eapply Hpending].
    destruct (ev_task _ _ Hev _ _ Ht) as (t' & Ht' & _ & Hw').
    destruct (Hw' _ Hw) as [Hw'' Hbo'].
    exists t'. split; [done|]. split; [done|congruence].
Qed.

Lemma advance_keeps_pending f db db' o tid :
  knows_rows db f → updating f ≠ Some tid →
  advance f db = (db', o) →
  (∀ k b, bids db !! k = Some b → bid_task_id b = tid →
          bid_status_of b = Pending) →
  ∀ k b, bids db' !! k = Some b → bid_task_id b = tid →
         bid_status_of b = Pending.
Proof.
  intros Hknows Hother Hadv Hpending k b0.
  split_advance f Hadv; try (by apply Hpending).
  - rewrite lookup_insert. case_decide; subst; [|by apply Hpending].
    by intros [= <-].
  - rewrite lookup_accept_cascade.
    destruct (bids db !! k) as [b1|] eqn:Hb1; [|done]. simpl.
    intros [= <-]. rewrite cascade_row_task. intros Htask.
    simpl in Hknows, Hother.
    destruct Hknows as (Hid & (b' & Hb' & Hsame) & _).
    assert (id ≠ tid) by congruence.
    rewrite cascade_row_other.
    + by eapply Hpending.
    + congruence.
    + intros ->. destruct Hsame as (Htask' & _). congruence.
Qed.

(** ** The tables stay sound *)

Lemma sound_same db db' :
  tasks db' = tasks db → bids db' = bids db → sound db → sound db'.
Proof.
  intros Ht Hb [H1 H2 H3 H4 H5 H6].
  split; rewrite ?Ht, ?Hb; done.
Qed.

Lemma sound_new_task db db' t :
  tasks db' = <[next_rowid (tasks db) := t]> (tasks db) →
  bids db' = bids db →
  task_status_of t = Open → task_worker t = None →
  sound db → sound db'.
Proof.
  intros Ht Hb Hopen Hfree Hso.
  assert (∀ id t0, tasks db !! id = Some t0 →
            <[next_rowid (tasks db) := t]> (tasks db) !! id = Some t0) as Hold.
  { intros id t0 Ht0. rewrite lookup_insert_ne; [done|].
    intros <-. by rewrite next_rowid_fresh in Ht0. }
  split; rewrite ?Ht, ?Hb.
  - intros id t0. rewrite lookup_insert. case_decide; subst.
    + by intros [= <-].
    + apply (so_open_unassigned _ Hso).
  - intros id t0. rewrite lookup_insert. case_decide; subst.
    + intros [= <-] _. by left.
    + apply (so_unassigned_open _ Hso).
  - intros k b Hbid. destruct (so_bid_task _ Hso _ _ Hbid) as (t0 & Ht0 & Hne).
    exists t0. split; [by apply Hold|done].
  - intros k b Hbid Hdec.
    destruct (so_decided _ Hso _ _ Hbid Hdec) as (Hw & t0 & w & Ht0 & Hw0).
    split; [done|]. exists t0, w. split; [by apply Hold|done].
  - intros k b Hbid Hacc.
    destruct (so_accepted _ Hso _ _ Hbid Hacc) as (t0 & Ht0 & Hw0).
    exists t0. split; [by apply Hold|done].
  - apply (so_one_accepted _ Hso).
Qed.

Lemma sound_new_bid db db' b t :
  tasks db' = tasks db →
  bids db' = <[next_rowid (bids db) := b]> (bids db) →
  bid_status_of b = Pending →
  tasks db !! bid_task_id b = Some t → task_poster t ≠ bid_bidder b →
  sound db → sound db'.
Proof.
  intros Ht Hb Hpending Htask Hne Hso.
  split; rewrite ?Ht, ?Hb.
  - apply (so_open_unassigned _ Hso).
  - apply (so_unassigned_open _ Hso).
  - intros k b0. rewrite lookup_insert. case_decide; subst.
    + intros [= <-]. by exists t.
    + apply (so_bid_task _ Hso).
  - intros k b0. rewrite lookup_insert. case_decide; subst.
    + intros [= <-]. congruence.
    + apply (so_decided _ Hso).
  - intros k b0. rewrite lookup_insert. case_decide; subst.
    + intros [= <-]. congruence.
    + apply (so_accepted _ Hso).
  - intros k1 k2 b1 b2 H1 H2 Hsame Ha1 Ha2.
    rewrite lookup_insert in H1, H2.
    destruct (decide (next_rowid (bids db) = k1)); [simplify_eq; congruence|].
    destruct (decide (next_rowid (bids db) = k2)); [simplify_eq; congruence|].
    by eapply (so_one_accepted _ Hso).
Qed.

(** A statement that rewrites one task and keeps its poster, worker and
    bounty, with a status other than open, and cancelled when the task has
    no worker. *)
Lemma sound_alter_task (g : Task → Task) id db db' :
  tasks db' = alter g id (tasks db) →
  bids db' = bids db →
  (∀ t, task_poster (g t) = task_poster t ∧ task_worker (g t) = task_worker t ∧
        task_bounty_sats (g t) = task_bounty_sats t ∧
        task_status_of (g t) ≠ Open) →
  (∀ t, tasks db !! id = Some t → task_worker t = None →
        task_status_of (g t) = Cancelled) →
  sound db → sound db'.
Proof.
  intros Ht Hb Hg Hcancel Hso.
  assert (∀ id' t0, tasks db !! id' = Some t0 →
            ∃ t1, alter g id (tasks db) !! id' = Some t1 ∧
                  task_poster t1 = task_poster t0 ∧
                  task_worker t1 = task_worker t0 ∧
                  task_bounty_sats t1 = task_bounty_sats t0) as Hold.
  { intros id' t0 Ht0. rewrite lookup_alter.
    destruct (decide (id = id')) as [->|?].
    - rewrite Ht0. simpl. eexists. split; [done|].
      by destruct (Hg t0) as (? & ? & ? & _).
    - by exists t0. }
  split; rewrite ?Ht, ?Hb.
  - intros id' t1. rewrite lookup_alter.
    destruct (decide (id = id')) as [->|?].
    + destruct (tasks db !! id') as [t0|]; [|done]. simpl.
      intros [= <-] Hopen. by destruct (Hg t0) as (_ & _ & _ & ?).
    + apply (so_open_unassigned _ Hso).
  - intros id' t1. rewrite lookup_alter.
    destruct (decide (id = id')) as [->|?].
    + destruct (tasks db !! id') as [t0|] eqn:Ht0; [|done]. simpl.
      intros [= <-] Hfree. right. apply Hcancel; [done|].
      destruct (Hg t0) as (_ & Hw & _). congruence.
    + apply (so_unassigned_open _ Hso).
  - intros k b Hbid. destruct (so_bid_task _ Hso _ _ Hbid) as (t0 & Ht0 & Hne).
    destruct (Hold _ _ Ht0) as (t1 & Ht1 & Hp & _).
    exists t1. split; [done|congruence].
  - intros k b Hbid Hdec.
    destruct (so_decided _ Hso _ _ Hbid Hdec) as (Hw & t0 & w & Ht0 & Hw0).
    split; [done|]. destruct (Hold _ _ Ht0) as (t1 & Ht1 & _ & Hw1 & _).
    exists t1, w. split; [done|congruence].
  - intros k b Hbid Hacc.
    destruct (so_accepted _ Hso _ _ Hbid Hacc) as (t0 & Ht0 & Hw0 & Hbo0).
    destruct (Hold _ _ Ht0) as (t1 & Ht1 & _ & Hw1 & Hbo1).
    exists t1. split; [done|]. split; congruence.
  - apply (so_one_accepted _ Hso).
Qed.

(** The conditional update of the accept route, when it changes the row. *)
Lemma sound_assigned db db' id t0 k bid b' :
  tasks db' =
    <[id := set_task_assignment Assigned (bid_bidder bid) (bid_amount_sats bid) t0]>
      (tasks db) →
  bids db' = bids db →
  tasks db !! id = Some t0 → task_status_of t0 = Open →
  bid_task_id bid = id → bids db !! k = Some b' → same_offer bid b' →
  sound db → sound db'.
Proof.
  intros Ht Hb Ht0 Hopen Hid Hb' Hsame Hso.
  pose proof (so_open_unassigned _ Hso _ _ Ht0 Hopen) as Hfree.
  split; rewrite ?Ht, ?Hb.
  - intros id' t1. rewrite lookup_insert.
    destruct (decide (id = id')) as [->|?]; [by intros [= <-]|].
    apply (so_open_unassigned _ Hso).
  - intros id' t1. rewrite lookup_insert.
    destruct (decide (id = id')) as [->|?]; [by intros [= <-]|].
    apply (so_unassigned_open _ Hso).
  - intros k0 b Hbid. destruct (so_bid_task _ Hso _ _ Hbid) as (t1 & Ht1 & Hne).
    rewrite lookup_insert.
    destruct (decide (id = bid_task_id b)) as [Heq|?]; [|by exists t1].
    eexists. split; [done|]. simpl. congruence.
  - intros k0 b Hbid Hdec.
    destruct (so_decided _ Hso _ _ Hbid Hdec) as (Hw & t1 & w & Ht1 & Hw1).
    split; [done|]. rewrite lookup_insert.
    destruct (decide (id = bid_task_id b)) as [Heq|?]; [|by exists t1, w].
    by eexists _, _.
  - intros k0 b Hbid Hacc.
    destruct (so_accepted _ Hso _ _ Hbid Hacc) as (t1 & Ht1 & Hw1 & Hbo1).
    rewrite lookup_insert.
    destruct (decide (id = bid_task_id b)) as [Heq|?]; [|by exists t1].
    congruence.
  - apply (so_one_accepted _ Hso).
Qed.

(** The batch of the accept route. *)
Lemma sound_cascade db id p k bid :
  knows_rows db (AcceptUpdated id p k bid) →
  sound db → sound (accept_cascade id p k bid db).
Proof.
  intros (Hid & (b' & Hb' & Hsame) & (t & Ht & Hw & Hbo) & Hpending) Hso.
  destruct Hsame as (Htask' & Hbidder' & Hamount' & _).
  assert (∀ k0 b, bids db !! k0 = Some b →
            bid_status_of (cascade_row id k k0 b) = Accepted →
            (k0 = k) ∨ (cascade_row id k k0 b = b ∧ bid_task_id b ≠ id))
    as Haccepted.
  { intros k0 b Hbid. unfold cascade_row.
    destruct (decide (k0 = k)) as [->|Hk]; [by left|].
    destruct (decide (bid_task_id b = id ∧ bid_status_of b = Pending))
      as [?|Hno]; [done|].
    intros Hacc. right. split; [done|]. intros Hb0.
    pose proof (Hpending _ _ Hbid Hb0). congruence. }
  split; rewrite ?tasks_accept_cascade.
  - apply (so_open_unassigned _ Hso).
  - apply (so_unassigned_open _ Hso).
  - intros k0 b. rewrite lookup_accept_cascade.
    destruct (bids db !! k0) as [b0|] eqn:Hb0; [|done]. simpl.
    intros [= <-]. rewrite cascade_row_task, cascade_row_bidder.
    by eapply (so_bid_task _ Hso).
  - intros k0 b. rewrite lookup_accept_cascade.
    destruct (bids db !! k0) as [b0|] eqn:Hb0; [|done]. simpl.
    intros [= <-]. rewrite cascade_row_task. unfold cascade_row.
    destruct (decide (k0 = k)) as [->|Hk].
    + intros _. split; [done|]. assert (b0 = b') as -> by congruence.
      exists t, (bid_bidder bid). split; [congruence|done].
    + destruct (decide (bid_task_id b0 = id ∧ bid_status_of b0 = Pending))
        as [[Hb0id _]|Hno].
      * intros _. split; [done|].
        exists t, (bid_bidder bid). split; [congruence|done].
      * by apply (so_decided _ Hso k0).
  - intros k0 b. rewrite lookup_accept_cascade.
    destruct (bids db !! k0) as [b0|] eqn:Hb0; [|done]. simpl.
    intros [= <-] Hacc.
    rewrite cascade_row_task, cascade_row_bidder, cascade_row_amount.
    destruct (Haccepted _ _ Hb0 Hacc) as [->|[Heq Hother]].
    + assert (b0 = b') as -> by congruence.
      exists t. split; [congruence|]. split; congruence.
    + rewrite Heq in Hacc. by apply (so_accepted _ Hso _ _ Hb0).
  - intros k1 k2 b1 b2. rewrite !lookup_accept_cascade.
    destruct (bids db !! k1) as [b01|] eqn:Hb1; [|done].
    destruct (bids db !! k2) as [b02|] eqn:Hb2; [|done]. simpl.
    intros [= <-] [= <-]. rewrite !cascade_row_task.
    intros Htask Ha1 Ha2.
    destruct (Haccepted _ _ Hb1 Ha1) as [->|[Heq1 Hother1]];
      destruct (Haccepted _ _ Hb2 Ha2) as [->|[Heq2 Hother2]]; try done.
    + assert (b01 = b') as -> by congruence. congruence.
    + assert (b02 = b') as -> by congruence. congruence.
    + rewrite Heq1 in Ha1. rewrite Heq2 in Ha2.
      by eapply (so_one_accepted _ Hso).
Qed.

(** Every statement of a request that knows its rows leaves the tables
    sound. *)
Lemma advance_sound f db db' o :
  sound db → knows_rows db f → advance f db = (db', o) → sound db'.
Proof.
  intros Hso Hknows Hadv. split_advance f Hadv;
    try (by apply (sound_same db)).
  - by eapply sound_new_task.
  - destruct Hknows as (t & Ht & Hne). by eapply (sound_new_bid db _ _ t).
  - apply bool_decide_eq_true in Hchanges.
    apply (sound_same db); [|done|done]. simpl.
    by apply sql_update_no_changes.
  - apply bool_decide_eq_false in Hchanges.
    apply accept_guard_changes in Hchanges as (t0 & Ht0 & Hopen & Hp).
    destruct Hknows as (Hid & b' & Hb' & Hsame).
    eapply (sound_assigned db _ id t0 bid_key bid b'); try done. simpl.
    by apply accept_guard_update.
  - by apply sound_cascade.
  - destruct Hknows as (t & Ht & [w0 Hw]).
    eapply (sound_alter_task _ id db); try done.
    intros t0 Ht0 Hfree. congruence.
  - destruct Hknows as (t & Ht & [w0 Hw]).
    eapply (sound_alter_task _ id db); try done.
    + intros t0. simpl. repeat (split; [done|]). by destruct (or_null _).
    + intros t0 Ht0 Hfree. congruence.
  - destruct Hknows as (t & Ht & [w0 Hw]).
    eapply (sound_alter_task _ id db); try done.
    intros t0 Ht0 Hfree. congruence.
  - eapply (sound_alter_task _ id db); done.
Qed.

(** ** Requests in flight keep knowing their rows *)

Lemma start_knows now request db f :
  sound db → start now request db = inr f →
  knows_rows db f ∧ updating f = None.
Proof.
  intros Hso. destruct request as [body|id body|id body|id body|id body|id body];
    simpl.
  - unfold start_create. repeat case_match; try done. by intros [= <-].
  - unfold start_bid.
    destruct (or_null (bidder body)) as [b|]; [|done].
    destruct (num_or_null (amount_sats body)) as [amt|]; [|done].
    destruct (validateAuth _ _ _ _); [done|].
    destruct (tasks db !! id) as [t|] eqn:Ht; [|done].
    destruct (negb _); [done|]. case_bool_decide; [done|].
    intros [= <-]. split; [|done]. by exists t.
  - unfold start_accept.
    destruct (or_null (poster body)) as [p|]; [|done].
    destruct (num_or_null (bid_id body)) as [k|]; [|done].
    destruct (validateAuth _ _ _ _); [done|].
    destruct (select_bid k id db) as [bid|] eqn:Hbid; [|done].
    intros [= <-]. apply select_bid_Some in Hbid as [Hbid Hid].
    split; [|done]. split; [done|]. exists bid. split; [done|].
    by repeat split.
  - unfold start_submit.
    destruct (or_null (worker body)) as [w|]; [|done].
    destruct (or_null (proof_url body)) as [url|]; [|done].
    destruct (validateAuth _ _ _ _); [done|].
    destruct (tasks db !! id) as [t|] eqn:Ht; [|done].
    case_bool_decide as Hw; [|done]. simpl. destruct (negb _); [done|].
    intros [= <-]. split; [|done]. exists t. split; [done|]. by eexists.
  - unfold start_verify.
    destruct (or_null (poster body)) as [p|]; [|done].
    destruct (approved body) as [ok|]; [|done].
    destruct (validateAuth _ _ _ _); [done|].
    destruct (tasks db !! id) as [t|] eqn:Ht; [|done].
    destruct (negb (bool_decide (task_poster t = p))); [done|].
    case_bool_decide as Hs; [|done]. simpl.
    intros [= <-]. split; [|done]. exists t. split; [done|].
    destruct (task_worker t) as [w|] eqn:Hw; [by eexists|].
    destruct (so_unassigned_open _ Hso _ _ Ht Hw); congruence.
  - unfold start_cancel.
    destruct (or_null (poster body)) as [p|]; [|done].
    destruct (validateAuth _ _ _ _); [done|].
    destruct (tasks db !! id) as [t|] eqn:Ht; [|done].
    destruct (negb _); [done|]. destruct (negb _); [done|].
    intros [= <-]. split; [|done]. by eexists.
Qed.

(** A request gets between the conditional update and the batch of the
    accept route only by changing an open task. *)
Lemma advance_updating f db db' f' id :
  advance f db = (db', inl f') → updating f' = Some id →
  updating f = None ∧ ∃ t, tasks db !! id = Some t ∧ task_status_of t = Open.
Proof.
  intros Hadv Hup. destruct f; simpl in Hadv; simplify_eq; try done.
  - case_bool_decide as Hchanges; simplify_eq.
    simpl in Hup. injection Hup as <-. split; [done|].
    apply accept_guard_changes in Hchanges as (t & Ht & Hopen & _).
    by exists t.
Qed.

Lemma advance_knows_next f db db' f' :
  sound db → knows_rows db f → advance f db = (db', inl f') →
  knows_rows db' f'.
Proof.
  intros Hso Hknows Hadv.
  destruct f; simpl in Hadv; simplify_eq; simpl; try done.
  - rewrite lookup_insert_eq. by eexists.
  - destruct Hknows as (t & Ht & Hne). by eexists.
  - case_bool_decide as Hchanges; simplify_eq. simpl.
    apply accept_guard_changes in Hchanges as (t & Ht & Hopen & Hp).
    destruct Hknows as (Hid & Hb).
    rewrite (accept_guard_update _ _ _ _ _ _ Ht Hopen Hp).
    split; [done|]. split; [done|]. split.
    + rewrite lookup_insert_eq. by eexists.
    + intros k' b' Hb' Hid'.
      destruct (decide (bid_status_of b' = Pending)) as [|Hdec]; [done|].
      destruct (so_decided _ Hso _ _ Hb' Hdec) as (_ & t' & w' & Ht' & Hw').
      pose proof (so_open_unassigned _ Hso _ _ Ht Hopen). congruence.
Qed.

(** ** Every step keeps the service in order *)

Lemma kept_in_flight s n f db' o m g :
  sys_ok s →
  inflight s !! n = Some f → advance f (store s) = (db', o) →
  m ≠ n → inflight s !! m = Some g →
  knows_rows db' g.
Proof.
  intros Hok Hf Hadv Hne Hg.
  pose proof (ok_sound _ Hok) as Hso.
  pose proof (ok_inflight _ Hok _ _ Hf) as Hknows.
  pose proof (ok_inflight _ Hok _ _ Hg) as Hknows'.
  apply (knows_rows_evolves (store s)); [by eapply advance_evolves|done|].
  intros id Hup.
  apply (advance_keeps_pending f (store s) db' o id); [done| |done|].
  - intros Hup'. by pose proof (ok_one_updating _ Hok _ _ _ _ _ Hg Hf Hup Hup').
  - destruct g; simpl in Hup; simplify_eq.
    by destruct Hknows' as (_ & _ & _ & ?).
Qed.

Lemma sys_step_ok s s' : sys_ok s → sys_step s s' → sys_ok s'.
Proof.
  intros Hok Hstep.
  pose proof (ok_sound _ Hok) as Hso.
  destruct Hstep as
    [now request r Hstart| now request f n Hstart Hfree
    | n f db' f' Hf Hadv | n f db' r Hf Hadv | n f Hf]; [done| | | |].
  - destruct (start_knows _ _ _ _ Hso Hstart) as [Hknows Hnot].
    split; simpl; [done| |].
    + intros m g. rewrite lookup_insert. case_decide; subst.
      * by intros [= <-].
      * apply (ok_inflight _ Hok).
    + intros n1 n2 f1 f2 id. rewrite !lookup_insert.
      destruct (decide (n = n1)); [intros [= <-]; congruence|].
      destruct (decide (n = n2)); [intros ? [= <-]; congruence|].
      apply (ok_one_updating _ Hok).
  - pose proof (ok_inflight _ Hok _ _ Hf) as Hknows.
    split; simpl; [by eapply advance_sound| |].
    + intros m g. rewrite lookup_insert.
      destruct (decide (n = m)) as [<-|Hne].
      * intros [= <-]. by eapply advance_knows_next.
      * intros Hg. by eapply (kept_in_flight s n f).
    + assert (∀ m g id, m ≠ n → inflight s !! m = Some g →
                updating g = Some id → updating f' = Some id → False)
        as Hclash.
      { intros m g id Hne Hg Hup Hup'.
        destruct (advance_updating _ _ _ _ _ Hadv Hup') as (_ & t & Ht & Hopen).
        pose proof (ok_inflight _ Hok _ _ Hg) as Hknows'.
        destruct g; simpl in Hup; simplify_eq.
        destruct Hknows' as (_ & _ & (t' & Ht' & Hw & _) & _).
        pose proof (so_open_unassigned _ Hso _ _ Ht Hopen). congruence. }
      intros n1 n2 f1 f2 id. rewrite !lookup_insert.
      destruct (decide (n = n1)) as [<-|Hn1];
        destruct (decide (n = n2)) as [<-|Hn2]; try done.
      * intros [= <-] Hg Hup' Hup. exfalso. by eapply (Hclash n2 f2 id).
      * intros Hg [= <-] Hup Hup'. exfalso. by eapply (Hclash n1 f1 id).
      * apply (ok_one_updating _ Hok).
  - pose proof (ok_inflight _ Hok _ _ Hf) as Hknows.
    split; simpl; [by eapply advance_sound| |].
    + intros m g. rewrite lookup_delete.
      destruct (decide (n = m)) as [<-|Hne]; [done|].
      intros Hg. by eapply (kept_in_flight s n f).
    + intros n1 n2 f1 f2 id. rewrite !lookup_delete.
      destruct (decide (n = n1)); [done|].
      destruct (decide (n = n2)); [done|].
      apply (ok_one_updating _ Hok).
  - split; simpl; [done| |].
    + intros m g. rewrite lookup_delete.
      destruct (decide (n = m)); [done|]. apply (ok_inflight _ Hok).
    + intros n1 n2 f1 f2 id. rewrite !lookup_delete.
      destruct (decide (n = n1)); [done|].
      destruct (decide (n = n2)); [done|].
      apply (ok_one_updating _ Hok).
Qed.

Lemma empty_db_sound : sound empty_db.
Proof. split; simpl; intros *; by rewrite lookup_empty. Qed.

Lemma sys_reachable_ok s : sys_reachable s → sys_ok s.
Proof.
  induction 1 as [|s s' Hreach IH Hstep].
  - split; simpl; [apply empty_db_sound| |]; intros *; by rewrite lookup_empty.
  - by eapply sys_step_ok.
Qed.

(** ** Runs are steps of the service *)

Lemma sys_event_steps s e : rtc sys_step s (sys_event s e).
Proof.
  destruct e as [n now request|n|n]; simpl.
  - destruct (inflight s !! n) eqn:Hn; [done|].
    destruct (start now request (store s)) as [r|f] eqn:Hstart; [done|].
    apply rtc_once. by eapply step_started.
  - destruct (inflight s !! n) as [f|] eqn:Hn; [|done].
    destruct (advance f (store s)) as [db' [f'|r]] eqn:Hadv; apply rtc_once.
    + by eapply step_advanced.
    + by eapply step_answered.
  - destruct (inflight s !! n) as [f|] eqn:Hn; [|done].
    apply rtc_once. by eapply step_thrown.
Qed.

Lemma play_steps events s : rtc sys_step s (play events s).
Proof.
  revert s. induction events as [|e events IH]; intros s; [done|].
  simpl. etrans; [apply sys_event_steps|apply IH].
Qed.

(** ** No statement returns a task to open *)

Lemma alter_never_reopens (g : Task → Task) id (m : gmap Z Task) tid t :
  (∀ t0, task_status_of (g t0) ≠ Open) →
  m !! tid = Some t → task_status_of t ≠ Open →
  ∃ t', alter g id m !! tid = Some t' ∧ task_status_of t' ≠ Open.
Proof.
  intros Hg Ht Hs. rewrite lookup_alter.
  destruct (decide (id = tid)) as [->|Hne].
  - rewrite Ht. simpl. by eexists.
  - by exists t.
Qed.

Lemma advance_never_reopens f db db' o tid t :
  advance f db = (db', o) →
  tasks db !! tid = Some t → task_status_of t ≠ Open →
  ∃ t', tasks db' !! tid = Some t' ∧ task_status_of t' ≠ Open.
Proof.
  intros Hadv Ht Hs.
  split_advance f Hadv; rewrite ?tasks_accept_cascade;
    try (by exists t);
    try (eapply alter_never_reopens; [intros t0; simpl|exact Ht|exact Hs]; try done).
  - exists t. split; [|done]. rewrite lookup_insert_ne; [done|].
    intros <-. by rewrite next_rowid_fresh in Ht.
  - apply bool_decide_eq_true in Hchanges.
    rewrite (sql_update_no_changes _ _ _ Hchanges). by exists t.
  - apply bool_decide_eq_false in Hchanges.
    apply accept_guard_changes in Hchanges as (t0 & Ht0 & Hopen & Hp).
    rewrite (accept_guard_update _ _ _ _ _ _ Ht0 Hopen Hp).
    exists t. split; [|done]. rewrite lookup_insert_ne; [done|]. congruence.
  - by destruct (or_null (payment_tx body)).
Qed.

Lemma sys_step_never_reopens s s' id t :
  sys_step s s' →
  tasks (store s) !! id = Some t → task_status_of t ≠ Open →
  ∃ t', tasks (store s') !! id = Some t' ∧ task_status_of t' ≠ Open.
Proof.
  intros Hstep Ht Hs.
  destruct Hstep as [| |n f db' f' Hf Hadv|n f db' r Hf Hadv|]; simpl;
    try (by exists t); by eapply advance_never_reopens.
Qed.

Lemma steps_never_reopen s s' id t :
  rtc sys_step s s' →
  tasks (store s) !! id = Some t → task_status_of t ≠ Open →
  ∃ t', tasks (store s') !! id = Some t' ∧ task_status_of t' ≠ Open.
Proof.
  intros Hsteps. revert t. induction Hsteps as [s|s s1 s' Hstep _ IH]; intros t Ht Hs.
  - by exists t.
  - destruct (sys_step_never_reopens _ _ _ _ Hstep Ht Hs) as (t1 & Ht1 & Hs1).
    by eapply IH.
Qed.

Lemma accept_update_refused db id t p bid_key bid :
  tasks db !! id = Some t → task_status_of t ≠ Open →
  advance (AcceptFound id p bid_key bid) db =
  (db, inr (json (ErrorBody "Task already accepted or not open, or not your task")
             409)).
Proof.
  intros Ht Hs. simpl.
  assert (sql_changes (accept_guard id Open p) (tasks db) = 0%nat) as Hnone.
  { destruct (decide (sql_changes (accept_guard id Open p) (tasks db) = 0%nat))
      as [|Hsome]; [done|].
    apply accept_guard_changes in Hsome as (t0 & Ht0 & Hopen & _). congruence. }
  rewrite bool_decide_eq_true_2 by done.
  rewrite (sql_update_no_changes _ _ _ Hnone). by destruct db.
Qed.

(** ** Bids *)

(** An accepted bid is never touched again. *)
Lemma accepted_bid_fixed db db' k b :
  consistent db → transition db db' →
  bids db !! k = Some b → bid_status_of b = Accepted →
  bids db' !! k = Some b.
Proof.
  intros Hc Htr Hb Ha.
  destruct (transition_bid_kept _ _ _ _ Htr Hb) as (b' & Hb' & _).
  rewrite Hb'.
  destruct (transition_bid_moved _ _ _ _ Htr Hb') as
    [|Hsame|b0 id bid_key bid t0 t1 Hb0 Hbid Hid Ht0 Hopen Ht1 Has ->];
    [congruence|congruence|].
  assert (b0 = b) as -> by congruence.
  destruct (decide (bid_task_id b = id)) as [Hsame|Hother].
  - assert (bid_status_of b = Pending); [|congruence].
    eapply open_pending; [done|done| |done]. by rewrite Hsame.
  - destruct (decide (k = bid_key)) as [->|Hk]; [congruence|].
    by rewrite cascade_row_other.
Qed.

Lemma accept_bid_succeeded now id body db :
  resp_code (accept_bid now id body db).1 = 200 →
  ∃ p bid_key bid t,
    or_null (poster body) = Some p ∧ num_or_null (bid_id body) = Some bid_key ∧
    bids db !! bid_key = Some bid ∧ bid_task_id bid = id ∧
    tasks db !! id = Some t ∧ task_status_of t = Open ∧ task_poster t = p ∧
    (accept_bid now id body db).2 =
      accept_cascade id p bid_key bid
        {| tasks := <[id := set_task_assignment Assigned (bid_bidder bid)
                              (bid_amount_sats bid) t]> (tasks db);
           bids := bids db; agents := agents db; activity := activity db |}.
Proof.
  unfold accept_bid.
  destruct (or_null (poster body)) as [p|]; [|done].
  destruct (num_or_null (bid_id body)) as [k|]; [|done].
  destruct (validateAuth _ _ _ _); [done|].
  destruct (select_bid k id db) as [bid|] eqn:Hbid; [|done].
  apply select_bid_Some in Hbid as [Hbid Htask].
  case_bool_decide as Hch; [done|]. intros _.
  apply accept_guard_changes in Hch as (t & Ht & Hopen & Hp).
  exists p, k, bid, t. repeat (split; [done|]). simpl.
  by erewrite accept_guard_update.
Qed.

(** ** Accepted bids while requests overlap *)








(** ** Earnings *)

(** When no two requests overlap, the earnings agree with the tasks: in
    every database of [reachable] the [total_earned_sats] of each agent is
    the sum of [bounty_sats] over the tasks whose worker is that agent and
    whose status is verified or paid, and this still holds after any further
    request served alone. *)
Lemma earnings_match_approved_tasks db :
  reachable db →
  (∀ a ag, agents db !! a = Some ag →
     total_earned_sats ag = earned_sum a (tasks db)) ∧
  (∀ now request a ag,
     agents (fetch now request db).2 !! a = Some ag →
     total_earned_sats ag = earned_sum a (tasks (fetch now request db).2)).
Proof.
  intros Hreach. split.
  - apply (earned_ledger _ (reachable_consistent _ Hreach)).
  - intros now request.
    apply (earned_ledger _ (reachable_consistent _ (reachable_fetch now request db Hreach))).
Qed.

Lemma earnings_match_approved_tasks_witness :
  let db' := (fetch sample_now (PostVerify 1 (verify_body "alice" true (Some "0xabc")))
                db_submitted).2 in
  reachable db_submitted ∧
  ∃ ag, agents db' !! "carol" = Some ag ∧
        total_earned_sats ag = earned_sum "carol" (tasks db') ∧
        earned_sum "carol" (tasks db') = 7000.
Proof.
  split; [exact db_submitted_reachable|].
  destruct (earnings_match_approved_tasks db_submitted db_submitted_reachable)
    as [_ Hnext].
  eexists. split; [vm_compute; reflexivity|]. split.
  - apply (Hnext sample_now (PostVerify 1 (verify_body "alice" true (Some "0xabc")))).
    vm_compute. reflexivity.
  - vm_compute. reflexivity.
Defined.

(** C5.  The claim fails on the code when two verify calls overlap.  The
    verify route reads the task, checks that its status is submitted, and
    later runs its batch with [WHERE id = ?] only.  In the sample session two
    approving calls for task 1 are received while it is submitted; both pass
    the check, both batches run and both calls answer 200.  The batch credits
    the worker each time: carol's [total_earned_sats] is 14000, while the one
    task she worked that is verified has a bounty of 7000.  So the equality
    does not hold in every state the service reaches. *)
Theorem overlapping_verify_pays_twice :
  sys_reachable both_verifying ∧
  (task_status_of <$> tasks (store both_verifying) !! 1) = Some Submitted ∧
  answer both_verifying (Run 1%nat) = Some (json (StatusReport "verified") 200) ∧
  answer verified_once (Run 2%nat) = Some (json (StatusReport "verified") 200) ∧
  sys_reachable verified_twice ∧
  (total_earned_sats <$> agents (store verified_twice) !! "carol") = Some 14000 ∧
  (task_status_of <$> tasks (store verified_twice) !! 1) = Some Verified ∧
  earned_sum "carol" (tasks (store verified_twice)) = 7000 ∧
  ¬ (∀ s, sys_reachable s →
       ∀ a ag, agents (store s) !! a = Some ag →
               total_earned_sats ag = earned_sum a (tasks (store s))).
Proof.
  assert (sys_reachable (idle db_submitted)) as Hidle
    by apply reachable_sys_reachable, db_submitted_reachable.
  assert (sys_reachable verified_twice) as Htwice
    by (do 3 apply play_reachable; exact Hidle).
  split; [by apply play_reachable|].
  split; [vm_compute; reflexivity|]. split; [vm_compute; reflexivity|].
  split; [vm_compute; reflexivity|]. split; [exact Htwice|].
  split; [vm_compute; reflexivity|]. split; [vm_compute; reflexivity|].
  split; [vm_compute; reflexivity|].
  intros Hledger.
  destruct (agents (store verified_twice) !! "carol") as [ag|] eqn:Hag;
    [|vm_compute in Hag; discriminate].
  pose proof (Hledger verified_twice Htwice "carol" ag Hag) as Heq.
  vm_compute in Hag. injection Hag as <-.
  vm_compute in Heq. discriminate.
Qed.

(** * Further properties of the routes *)

(** ** What the successful routes write *)

Lemma num_or_null_Some x n : num_or_null x = Some n → x = Some n ∧ n ≠ 0.
Proof.
  unfold num_or_null. destruct x as [n'|]; [|done].
  case_decide; [done|]. by intros [= ->].
Qed.

Lemma passes_checks_create now body :
  passes_checks now (PostTask body) = true →
  ∃ p ti de bo,
    or_null (poster body) = Some p ∧ or_null (title body) = Some ti ∧
    or_null (description body) = Some de ∧
    num_or_null (bounty_sats body) = Some bo ∧ 1 ≤ bo ∧
    validateAuth now body "create_task" FPoster = None.
Proof.
  intros Hchecks. use_checks Hchecks.
  destruct Hchecks as [p Hp].
  repeat match goal with H : is_Some _ |- _ => destruct H as [? ?] end.
  match goal with H : num_or_null _ = Some ?bo |- _ =>
    destruct (num_or_null_Some _ _ H) as [Hbo _]; rewrite Hbo in *; simpl in *
  end.
  reflect_bools. eauto 10.
Qed.

(** X1.  A create call that carries its fields, a bounty of at least 1 and
    an accepted envelope is left in flight by its checks, and its four
    statements follow: the agent upsert, the insert of the task, the update of
    the poster's counters and the insert of the activity record.  If the
    statement it waits for throws, the route answers 500.  When the four run
    with no statement of another request between them and none throws, the
    call answers 201 with the next free task id; under that id, which was
    free, it stores a task with status open, a null worker, null proof and
    payment columns, the posted bounty and the posted texts; every other task
    and every bid is what it was; the poster's row counts one more posted
    task and the bounty more spent sats, with reputation, completed tasks and
    earnings as before, and a row that did not exist starts from counters of
    0; no other agent changes; and one "created" record is appended. *)
Theorem create_task_effects now body db :
  passes_checks now (PostTask body) = true →
  let new_id := next_rowid (tasks db) in
  ∃ p ti de bo f r,
    poster body = Some p ∧ title body = Some ti ∧
    description body = Some de ∧ bounty_sats body = Some bo ∧ 1 ≤ bo ∧
    start now (PostTask body) db = inr f ∧
    thrown f = Some (json (ErrorBody "Internal server error") 500) ∧
    finish 4 f db = Some r ∧ create_task now body db = r ∧
    r.1 = json (TaskCreated new_id) 201 ∧
    tasks db !! new_id = None ∧
    tasks r.2 !! new_id =
      Some {| task_poster := p; task_title := ti; task_description := de;
              task_bounty_sats := bo; task_status_of := Open;
              task_tags := or_null (tags body);
              task_deadline := or_null (deadline body);
              task_worker := None; task_proof_url := None;
              task_proof_description := None; task_payment_tx := None;
              task_poster_signature := or_null (signature body) |} ∧
    (∀ id, id ≠ new_id → tasks r.2 !! id = tasks db !! id) ∧
    bids r.2 = bids db ∧
    (∃ ap',
       agents r.2 !! p = Some ap' ∧
       (agents db !! p = None →
        tasks_posted ap' = 1 ∧ total_spent_sats ap' = bo ∧
        reputation ap' = 0 ∧ tasks_completed ap' = 0 ∧
        total_earned_sats ap' = 0) ∧
       (∀ old, agents db !! p = Some old →
          tasks_posted ap' = tasks_posted old + 1 ∧
          total_spent_sats ap' = total_spent_sats old + bo ∧
          reputation ap' = reputation old ∧
          tasks_completed ap' = tasks_completed old ∧
          total_earned_sats ap' = total_earned_sats old)) ∧
    (∀ a, a ≠ p → agents r.2 !! a = agents db !! a) ∧
    activity r.2 =
      (activity db ++
       [ {| act_task_id := new_id; actor := p; action := "created";
            details := "Bounty: " +:+ pretty bo +:+ " sats" |} ])%list.
Proof.
  intros Hchecks.
  destruct (passes_checks_create _ _ Hchecks)
    as (p & ti & de & bo & Hp & Hti & Hde & Hbo & Hpos & Hauth).
  pose proof (run_alone_fetch now (PostTask body) db) as Hrun.
  unfold run_alone in Hrun.
  assert (start now (PostTask body) db = inr (CreateChecked body p ti de bo))
    as Hstart.
  { simpl. unfold start_create. rewrite Hp, Hti, Hde, Hbo, Hauth.
    by rewrite (proj2 (Z.ltb_ge bo 1)). }
  rewrite Hstart in Hrun. simpl.
  exists p, ti, de, bo, (CreateChecked body p ti de bo), (create_task now body db).
  split; [by apply or_null_Some in Hp as [-> _]|].
  split; [by apply or_null_Some in Hti as [-> _]|].
  split; [by apply or_null_Some in Hde as [-> _]|].
  split; [by apply num_or_null_Some in Hbo as [-> _]|].
  split; [done|]. split; [done|]. split; [done|]. split; [done|].
  split; [done|].
  unfold create_task. rewrite Hp, Hti, Hde, Hbo, Hauth.
  rewrite (proj2 (Z.ltb_ge bo 1)) by done. simpl.
  split; [done|]. split; [apply next_rowid_fresh|].
  split; [apply lookup_insert_eq|].
  split; [intros id Hne; by rewrite lookup_insert_ne|].
  split; [done|]. rewrite sql_update_with_address. split; [|split; [|done]].
  - rewrite lookup_alter_eq, lookup_insert_eq. simpl.
    eexists. split; [done|]. split.
    + by intros ->.
    + by intros old ->.
  - intros a Hne. rewrite lookup_alter_ne by done. by rewrite lookup_insert_ne.
Qed.

Lemma create_task_effects_witness :
  let body := create_body "alice" "Build agent dashboard" "Full description" 10000 in
  let r := create_task sample_now body empty_db in
  passes_checks sample_now (PostTask body) = true ∧
  r.1 = json (TaskCreated 1) 201 ∧
  (task_status_of <$> tasks r.2 !! 1) = Some Open ∧
  ∃ ap', agents r.2 !! "alice" = Some ap' ∧
         tasks_posted ap' = 1 ∧ total_spent_sats ap' = 10000.
Proof.
  assert (passes_checks sample_now
            (PostTask (create_body "alice" "Build agent dashboard"
                         "Full description" 10000)) = true) as Hchecks
    by (vm_compute; reflexivity).
  split; [exact Hchecks|].
  destruct (create_task_effects sample_now _ empty_db Hchecks)
    as (p & ti & de & bo & f & r & Hp & _ & _ & Hbo & _ & _ & _ & _ & Hr & Hresp
        & _ & Htask & _ & _ & (ap' & Hap' & Hnew & _) & _).
  injection Hp as <-. injection Hbo as <-. rewrite Hr.
  split; [exact Hresp|].
  split; [exact (f_equal (fmap task_status_of) Htask)|].
  exists ap'. split; [exact Hap'|].
  destruct Hnew as (Hposted & Hspent & _); [reflexivity|].
  split; [exact Hposted|exact Hspent].
Defined.

(** X2.  The create route answers "bounty_sats must be positive" exactly
    when poster, title and description are given and the bounty is a
    negative number; a bounty of 0, like a missing one, is reported as a
    missing field.  Either way nothing is written. *)
Theorem create_task_bounty_errors now body db :
  let r := create_task now body db in
  (r.1 = json (ErrorBody "bounty_sats must be positive") 400 ↔
   is_Some (or_null (poster body)) ∧ is_Some (or_null (title body)) ∧
   is_Some (or_null (description body)) ∧
   ∃ bo, bounty_sats body = Some bo ∧ bo < 0) ∧
  (r.1 = json (ErrorBody "bounty_sats must be positive") 400 → r.2 = db) ∧
  (bounty_sats body = None ∨ bounty_sats body = Some 0 →
   r = (json (ErrorBody "Required: poster, title, description, bounty_sats") 400,
        db)).
Proof.
  simpl. unfold create_task.
  destruct (or_null (poster body)) as [p|];
    [|split; [split; [done|by intros [[? ?] _]]|split; [done|done]]].
  destruct (or_null (title body)) as [ti|];
    [|split; [split; [done|by intros (_ & [? ?] & _)]|split; [done|done]]].
  destruct (or_null (description body)) as [de|];
    [|split; [split; [done|by intros (_ & _ & [? ?] & _)]|split; [done|done]]].
  destruct (num_or_null (bounty_sats body)) as [bo|] eqn:Hbo.
  - apply num_or_null_Some in Hbo as [Hbo Hnz]. rewrite Hbo.
    destruct (bo <? 1) eqn:Hlt; reflect_bools.
    + split; [|split; [done|intros [?|[= ?]]; [done|lia]]].
      split; [intros _|done].
      repeat (split; [by eexists|]). exists bo. split; [done|lia].
    + split; [|split; [|intros [?|[= ?]]; [done|lia]]].
      * split.
        -- destruct (validateAuth _ _ _ _); simpl; intros [= ?].
        -- intros (_ & _ & _ & bo' & [= <-] & ?). lia.
      * destruct (validateAuth _ _ _ _); simpl; by intros [= ?].
  - split; [|split; [done|done]].
    split; [done|]. intros (_ & _ & _ & bo & Hsome & Hneg).
    unfold num_or_null in Hbo. rewrite Hsome in Hbo.
    destruct (decide (bo = 0)); [lia|done].
Qed.

Lemma passes_checks_bid now id body :
  passes_checks now (PostBid id body) = true →
  ∃ b amt,
    or_null (bidder body) = Some b ∧ num_or_null (amount_sats body) = Some amt ∧
    validateAuth now body "bid" FBidder = None.
Proof.
  intros Hchecks. use_checks Hchecks.
  repeat match goal with H : is_Some _ |- _ => destruct H as [? ?] end.
  eauto 10.
Qed.

(** X3.  A bid call with its fields and an accepted envelope, on an open
    task and from an address other than the poster, is left in flight by its
    checks, and its three statements follow: the agent upsert, the insert of
    the bid and the insert of the activity record.  When the three run with
    no statement of another request after the read of the task and none
    throws, the call answers 201 with the next free bid id and stores under
    it a bid for that task with status pending, the bidder and the offered
    amount, which may be any integer but 0.  The tasks and all other bids are
    what they were; the bidder has a row afterwards, which starts from
    counters of 0 if there was none; every agent that had a row keeps its
    counters; and one "bid" record is appended. *)
Theorem place_bid_effects now id body db task :
  passes_checks now (PostBid id body) = true →
  tasks db !! id = Some task →
  task_status_of task = Open →
  bidder body ≠ Some (task_poster task) →
  let new_id := next_rowid (bids db) in
  ∃ b amt f r,
    bidder body = Some b ∧ amount_sats body = Some amt ∧ amt ≠ 0 ∧
    start now (PostBid id body) db = inr f ∧ thrown f = None ∧
    finish 4 f db = Some r ∧ place_bid now id body db = r ∧
    r.1 = json (BidCreated new_id) 201 ∧
    bids db !! new_id = None ∧
    bids r.2 !! new_id =
      Some {| bid_task_id := id; bid_bidder := b; bid_amount_sats := amt;
              bid_message := or_null (message body); bid_status_of := Pending;
              bid_bidder_signature := or_null (signature body) |} ∧
    (∀ k, k ≠ new_id → bids r.2 !! k = bids db !! k) ∧
    tasks r.2 = tasks db ∧
    (agents db !! b = None →
     agents r.2 !! b =
       Some {| display_name := or_null (bidder_name body);
               stx_address := or_null (bidder_stx body);
               reputation := 0; tasks_posted := 0; tasks_completed := 0;
               total_earned_sats := 0; total_spent_sats := 0 |}) ∧
    (∀ a ag, agents db !! a = Some ag →
       ∃ ag', agents r.2 !! a = Some ag' ∧ same_ledger ag ag') ∧
    (∀ a, a ≠ b → agents r.2 !! a = agents db !! a) ∧
    activity r.2 =
      (activity db ++
       [ {| act_task_id := id; actor := b; action := "bid";
            details :=
              pretty amt +:+ " sats: " +:+ default "" (or_null (message body))
         |} ])%list.
Proof.
  intros Hchecks Htask Hopen Hself.
  destruct (passes_checks_bid _ _ _ Hchecks) as (b & amt & Hb & Hamt & Hauth).
  pose proof (run_alone_fetch now (PostBid id body) db) as Hrun.
  unfold run_alone in Hrun.
  assert (bidder body = Some b) as Hb' by (by apply or_null_Some in Hb as [-> _]).
  assert (start now (PostBid id body) db = inr (BidChecked id body b amt))
    as Hstart.
  { simpl. unfold start_bid. rewrite Hb, Hamt, Hauth, Htask.
    rewrite bool_decide_eq_true_2 by done.
    by rewrite bool_decide_eq_false_2 by congruence. }
  rewrite Hstart in Hrun. simpl.
  exists b, amt, (BidChecked id body b amt), (place_bid now id body db).
  split; [done|].
  split; [by apply num_or_null_Some in Hamt as [-> _]|].
  split; [by apply num_or_null_Some in Hamt as [_ ?]|].
  split; [done|]. split; [done|]. split; [done|]. split; [done|].
  unfold place_bid. rewrite Hb, Hamt, Hauth, Htask.
  rewrite bool_decide_eq_true_2 by done.
  rewrite bool_decide_eq_false_2 by congruence. simpl.
  split; [done|].
  split; [apply next_rowid_fresh|]. split; [apply lookup_insert_eq|].
  split; [intros k Hne; by rewrite lookup_insert_ne|].
  split; [done|].
  split; [intros Hnone; by rewrite lookup_insert_eq, Hnone|].
  split; [|split; [intros a Hne; by rewrite lookup_insert_ne|done]].
  intros a ag Ha. rewrite lookup_insert.
  case_decide; subst; [rewrite Ha|]; eexists; (split; [done|]);
    by repeat split.
Qed.

Lemma place_bid_effects_witness :
  let body := bid_body "bob" 8000 in
  let r := place_bid sample_now 1 body db_posted in
  passes_checks sample_now (PostBid 1 body) = true ∧
  (task_status_of <$> tasks db_posted !! 1) = Some Open ∧
  r.1 = json (BidCreated 1) 201 ∧
  (bid_status_of <$> bids r.2 !! 1) = Some Pending ∧
  (bid_amount_sats <$> bids r.2 !! 1) = Some 8000.
Proof.
  pose (task := new_task "alice" "Build agent dashboard" "Full description" 10000
                  None None (Some sample_signature)).
  assert (tasks db_posted !! 1 = Some task) as Htask by (vm_compute; reflexivity).
  assert (passes_checks sample_now (PostBid 1 (bid_body "bob" 8000)) = true)
    as Hchecks by (vm_compute; reflexivity).
  split; [exact Hchecks|]. split; [vm_compute; reflexivity|].
  destruct (place_bid_effects sample_now 1 _ db_posted task Hchecks Htask)
    as (b & amt & f & r & Hb & Hamt & _ & _ & _ & _ & Hr & Hresp & _ & Hbid & _).
  - reflexivity.
  - simpl. discriminate.
  - injection Hb as <-. injection Hamt as <-. rewrite Hr.
    split; [exact Hresp|].
    split; [exact (f_equal (fmap bid_status_of) Hbid)
           |exact (f_equal (fmap bid_amount_sats) Hbid)].
Defined.

(** X4.  A bid call with its fields and an accepted envelope on an open
    task, from the poster of that task, answers 400 "Cannot bid on your own
    task" and writes nothing. *)
Theorem place_bid_own_task_refused now id body db task :
  passes_checks now (PostBid id body) = true →
  tasks db !! id = Some task →
  task_status_of task = Open →
  bidder body = Some (task_poster task) →
  place_bid now id body db =
  (json (ErrorBody "Cannot bid on your own task") 400, db).
Proof.
  intros Hchecks Htask Hopen Hself.
  destruct (passes_checks_bid _ _ _ Hchecks) as (b & amt & Hb & Hamt & Hauth).
  unfold place_bid. rewrite Hb, Hamt, Hauth, Htask.
  apply or_null_Some in Hb as [Hb _].
  rewrite !bool_decide_eq_true_2; [done|congruence|done].
Qed.

Lemma place_bid_own_task_refused_witness :
  let body := bid_body "alice" 9000 in
  passes_checks sample_now (PostBid 1 body) = true ∧
  (task_poster <$> tasks db_posted !! 1) = Some "alice" ∧
  place_bid sample_now 1 body db_posted =
  (json (ErrorBody "Cannot bid on your own task") 400, db_posted).
Proof.
  pose (task := new_task "alice" "Build agent dashboard" "Full description" 10000
                  None None (Some sample_signature)).
  assert (tasks db_posted !! 1 = Some task) as Htask by (vm_compute; reflexivity).
  split; [vm_compute; reflexivity|]. split; [vm_compute; reflexivity|].
  apply (place_bid_own_task_refused sample_now 1 _ db_posted task).
  - vm_compute. reflexivity.
  - exact Htask.
  - reflexivity.
  - reflexivity.
Defined.

Lemma passes_checks_submit now id body :
  passes_checks now (PostSubmit id body) = true →
  ∃ w url,
    or_null (worker body) = Some w ∧ or_null (proof_url body) = Some url ∧
    validateAuth now body "submit" FWorker = None.
Proof.
  intros Hchecks. use_checks Hchecks.
  repeat match goal with H : is_Some _ |- _ => destruct H as [? ?] end.
  eauto 10.
Qed.

(** X5.  A submit call with its fields and an accepted envelope, from the
    worker of an assigned task, answers 200; the task becomes submitted and
    stores the proof url and the description (null when empty or absent),
    with poster, worker and bounty as before; no other task, no bid and no
    agent row changes; and one "submitted" record carrying the url is
    appended. *)
Theorem submit_work_effects now id body db task :
  passes_checks now (PostSubmit id body) = true →
  tasks db !! id = Some task →
  worker body = task_worker task →
  task_status_of task = Assigned →
  let r := submit_work now id body db in
  ∃ w url t',
    worker body = Some w ∧ proof_url body = Some url ∧
    r.1 = json Success 200 ∧
    tasks r.2 !! id = Some t' ∧
    task_status_of t' = Submitted ∧
    task_proof_url t' = Some url ∧
    task_proof_description t' = or_null (description body) ∧
    task_worker t' = Some w ∧
    task_bounty_sats t' = task_bounty_sats task ∧
    task_payment_tx t' = task_payment_tx task ∧
    same_posting task t' ∧
    (∀ id', id' ≠ id → tasks r.2 !! id' = tasks db !! id') ∧
    bids r.2 = bids db ∧ agents r.2 = agents db ∧
    activity r.2 =
      (activity db ++
       [ {| act_task_id := id; actor := w; action := "submitted";
            details := url |} ])%list.
Proof.
  intros Hchecks Htask Hworker Hs.
  destruct (passes_checks_submit _ _ _ Hchecks) as (w & url & Hw & Hurl & Hauth).
  simpl. unfold submit_work. rewrite Hw, Hurl, Hauth, Htask.
  apply or_null_Some in Hw as [Hw _]. apply or_null_Some in Hurl as [Hurl _].
  rewrite !bool_decide_eq_true_2; [|done|congruence]. simpl.
  rewrite sql_update_with_id. erewrite alter_lookup_insert by done.
  exists w, url. eexists. split; [done|]. split; [done|]. split; [done|].
  split; [apply lookup_insert_eq|]. simpl.
  repeat (split; [done || congruence|]).
  split; [intros id' Hne; by rewrite lookup_insert_ne|]. done.
Qed.

Lemma submit_work_effects_witness :
  let body := submit_body "carol" "https://x" in
  let r := submit_work sample_now 1 body db_assigned in
  passes_checks sample_now (PostSubmit 1 body) = true ∧
  (task_worker <$> tasks db_assigned !! 1) = Some (Some "carol") ∧
  r.1 = json Success 200 ∧
  (∃ t', tasks r.2 !! 1 = Some t' ∧ task_status_of t' = Submitted ∧
         task_proof_url t' = Some "https://x") ∧
  (details <$> last (activity r.2)) = Some "https://x".
Proof.
  pose (task := set_task_assignment Assigned "carol" 7000
                  (new_task "alice" "Build agent dashboard" "Full description"
                     10000 None None (Some sample_signature))).
  assert (tasks db_assigned !! 1 = Some task) as Htask by (vm_compute; reflexivity).
  assert (passes_checks sample_now (PostSubmit 1 (submit_body "carol" "https://x"))
          = true) as Hchecks by (vm_compute; reflexivity).
  split; [exact Hchecks|]. split; [vm_compute; reflexivity|].
  destruct (submit_work_effects sample_now 1 _ db_assigned task Hchecks Htask)
    as (w & url & t' & _ & Hurl & Hresp & Ht' & Hs & Hproof & _ & _ & _ & _ & _
        & _ & _ & _ & Hlog).
  - reflexivity.
  - reflexivity.
  - injection Hurl as <-. split; [exact Hresp|]. split.
    + exists t'. split; [exact Ht'|]. split; [exact Hs|exact Hproof].
    + rewrite Hlog. by rewrite last_snoc.
Defined.

(** X6.  A verify call with [approved = false], its fields and an accepted
    envelope, from the poster of a submitted task, served with no statement
    of another request between its read and its batch, answers 200 with
    status "disputed"; the status of the task becomes disputed and no other
    column of its row changes, a payment reference sent along is not stored;
    no agent row changes, so no reputation or earnings are granted; no bid
    changes; and one "disputed" record is appended, carrying the reason or,
    when the reason is empty or absent, "Work not satisfactory". *)
Theorem verify_rejected_effects now id body db task :
  passes_checks now (PostVerify id body) = true →
  tasks db !! id = Some task →
  poster body = Some (task_poster task) →
  approved body = Some false →
  task_status_of task = Submitted →
  let r := verify_work now id body db in
  r.1 = json (StatusReport "disputed") 200 ∧
  (∃ t', tasks r.2 !! id = Some t' ∧ task_status_of t' = Disputed ∧
         same_but_status task t') ∧
  (∀ id', id' ≠ id → tasks r.2 !! id' = tasks db !! id') ∧
  bids r.2 = bids db ∧ agents r.2 = agents db ∧
  activity r.2 =
    (activity db ++
     [ {| act_task_id := id; actor := task_poster task; action := "disputed";
          details := default "Work not satisfactory" (or_null (reason body))
       |} ])%list.
Proof.
  intros Hchecks Htask Hposter Hno Hs.
  destruct (passes_checks_verify _ _ _ Hchecks) as (p & ok & Hp & _ & Hauth).
  simpl. unfold verify_work. rewrite Hp, Hno, Hauth, Htask.
  apply or_null_Some in Hp as [Hp _].
  assert (p = task_poster task) as -> by congruence.
  rewrite !bool_decide_eq_true_2 by done. simpl.
  rewrite sql_update_with_id. erewrite alter_lookup_insert by done.
  split; [done|]. split.
  { eexists. split; [apply lookup_insert_eq|]. split; [done|].
    by repeat split. }
  split; [intros id' Hne; by rewrite lookup_insert_ne|]. done.
Qed.

Lemma verify_rejected_effects_witness :
  let body := verify_body "alice" false (Some "0xabc") in
  let r := verify_work sample_now 1 body db_submitted in
  passes_checks sample_now (PostVerify 1 body) = true ∧
  (task_status_of <$> tasks db_submitted !! 1) = Some Submitted ∧
  r.1 = json (StatusReport "disputed") 200 ∧
  agents r.2 = agents db_submitted ∧
  (task_status_of <$> tasks r.2 !! 1) = Some Disputed ∧
  (task_payment_tx <$> tasks r.2 !! 1) = Some None.
Proof.
  pose (task :=
    set_task_proof Submitted "https://x" None
      (set_task_assignment Assigned "carol" 7000
         (new_task "alice" "Build agent dashboard" "Full description" 10000
            None None (Some sample_signature)))).
  assert (tasks db_submitted !! 1 = Some task) as Htask by (vm_compute; reflexivity).
  assert (passes_checks sample_now
            (PostVerify 1 (verify_body "alice" false (Some "0xabc"))) = true)
    as Hchecks by (vm_compute; reflexivity).
  split; [exact Hchecks|]. split; [vm_compute; reflexivity|].
  destruct (verify_rejected_effects sample_now 1 _ db_submitted task Hchecks Htask)
    as (Hresp & (t' & Ht' & Hstatus & Hsame) & _ & _ & Hagents & _).
  - reflexivity.
  - reflexivity.
  - reflexivity.
  - split; [exact Hresp|]. split; [exact Hagents|].
    rewrite Ht'. simpl. split; [by rewrite Hstatus|].
    destruct Hsame as (_ & _ & _ & _ & _ & ->). reflexivity.
Defined.

(** X33.  A cancel call with its field and an accepted envelope, from the
    poster of an open task, served with no statement of another request
    between its read and its batch, answers 200.  The status of the task
    becomes cancelled and no other column of its row changes: the worker
    stays null.  The poster's [total_spent_sats] drops by the bounty of the
    task, whatever it was, and the other counters of the poster stay, so the
    task still counts in [tasks_posted].  No other agent and no bid changes:
    the bids of the task stay as they were.  One "cancelled" record is
    appended. *)
Theorem cancel_task_effects now id body db task :
  passes_checks now (PatchCancel id body) = true →
  tasks db !! id = Some task →
  poster body = Some (task_poster task) →
  task_status_of task = Open →
  let r := cancel_task now id body db in
  r.1 = json Success 200 ∧
  (∃ t', tasks r.2 !! id = Some t' ∧ task_status_of t' = Cancelled ∧
         same_but_status task t') ∧
  (∀ id', id' ≠ id → tasks r.2 !! id' = tasks db !! id') ∧
  bids r.2 = bids db ∧
  (∀ ap, agents db !! task_poster task = Some ap →
     ∃ ap', agents r.2 !! task_poster task = Some ap' ∧
            total_spent_sats ap' = total_spent_sats ap - task_bounty_sats task ∧
            reputation ap' = reputation ap ∧
            tasks_posted ap' = tasks_posted ap ∧
            tasks_completed ap' = tasks_completed ap ∧
            total_earned_sats ap' = total_earned_sats ap ∧
            display_name ap' = display_name ap ∧
            stx_address ap' = stx_address ap) ∧
  (∀ a, a ≠ task_poster task → agents r.2 !! a = agents db !! a) ∧
  activity r.2 =
    (activity db ++
     [ {| act_task_id := id; actor := task_poster task; action := "cancelled";
          details := "Task cancelled" |} ])%list.
Proof.
  intros Hchecks Htask Hposter Hopen. simpl.
  rewrite (cancel_task_done _ _ _ _ _ Hchecks Hposter Htask Hopen). simpl.
  split; [done|]. split.
  { eexists. split; [apply lookup_insert_eq|]. split; [done|].
    by repeat split. }
  split; [intros id' Hne; by rewrite lookup_insert_ne|].
  split; [done|]. split.
  { intros ap Hap. rewrite lookup_alter_eq, Hap. simpl.
    eexists. split; [done|]. by repeat split. }
  split; [intros a Hne; by rewrite lookup_alter_ne|]. done.
Qed.

Lemma cancel_task_effects_witness :
  let r := cancel_task sample_now 1 (cancel_body "alice") db_bids in
  passes_checks sample_now (PatchCancel 1 (cancel_body "alice")) = true ∧
  (task_status_of <$> tasks db_bids !! 1) = Some Open ∧
  r.1 = json Success 200 ∧
  (∃ t', tasks r.2 !! 1 = Some t' ∧ task_status_of t' = Cancelled ∧
         task_worker t' = None) ∧
  bids r.2 = bids db_bids ∧
  (action <$> last (activity r.2)) = Some "cancelled".
Proof.
  pose (task := new_task "alice" "Build agent dashboard" "Full description" 10000
                  None None (Some sample_signature)).
  assert (tasks db_bids !! 1 = Some task) as Htask by (vm_compute; reflexivity).
  assert (passes_checks sample_now (PatchCancel 1 (cancel_body "alice")) = true)
    as Hchecks by (vm_compute; reflexivity).
  split; [exact Hchecks|]. split; [vm_compute; reflexivity|].
  destruct (cancel_task_effects sample_now 1 _ db_bids task Hchecks Htask)
    as (Hresp & (t' & Ht' & Hstatus & Hsame) & _ & Hbids & _ & _ & Hlog).
  - reflexivity.
  - reflexivity.
  - split; [exact Hresp|]. split.
    + exists t'. split; [exact Ht'|]. split; [exact Hstatus|].
      destruct Hsame as (_ & _ & Hworker & _). exact Hworker.
    + split; [exact Hbids|]. rewrite Hlog. by rewrite last_snoc.
Defined.

(** ** The envelope check *)

(** X7.  [validateAuth] accepts exactly when the address field is a
    non-empty string, the signature has between 80 and 100 UTF-16 code units
    (what [signature.length] counts), and the timestamp is a non-empty text
    that parses to a time at most 300000 milliseconds away from the server
    time, in the past or in the future; both bounds are inclusive, on the
    length and on the drift. *)
Theorem validateAuth_accepts_iff now body act addressField :
  validateAuth now body act addressField = None ↔
  ∃ addr sig t ts,
    body_address addressField body = Some addr ∧ addr ≠ "" ∧
    signature body = Some sig ∧
    (80 ≤ js_length sig ≤ 100)%nat ∧
    timestamp body = Some t ∧ ts_text t ≠ "" ∧ ts_time t = Some ts ∧
    -300000 ≤ now - ts ≤ 300000.
Proof.
  unfold validateAuth. split.
  - destruct (or_null (body_address addressField body)) as [addr|] eqn:Haddr;
      [|done].
    destruct (or_null (signature body)) as [sig|] eqn:Hsig; [|done].
    destruct (timestamp body) as [t|]; [|done].
    case_decide; [done|].
    destruct (_ || _) eqn:Hlen; [done|].
    destruct (ts_time t) as [ts|] eqn:Hts; [|done].
    destruct (300000 <? Z.abs (now - ts)) eqn:Hdrift; [done|]. intros _.
    apply or_null_Some in Haddr as [Haddr ?].
    apply or_null_Some in Hsig as [Hsig ?].
    apply orb_false_iff in Hlen as [Hlo Hhi]. reflect_bools.
    exists addr, sig, t, ts. repeat (split; [done || lia|]). lia.
  - intros (addr & sig & t & ts & Haddr & Hne & Hsig & Hlen & Ht & Htext & Hts
            & Hdrift).
    rewrite Haddr. simpl. rewrite decide_False by done.
    rewrite Hsig. simpl.
    assert (sig ≠ "") by (intros ->; simpl in Hlen; lia).
    rewrite decide_False by done. rewrite Ht, decide_False by done.
    rewrite (proj2 (Z.ltb_ge _ 80)) by lia.
    rewrite (proj2 (Z.ltb_ge 100 _)) by lia. simpl.
    rewrite Hts. rewrite (proj2 (Z.ltb_ge 300000 _)) by lia. done.
Qed.

(** A signature of 88 two-byte characters has 88 code units and 176 bytes:
    the check accepts it, and it refuses one of 50 such characters although
    that one has 100 bytes. *)
Lemma validateAuth_accepts_iff_witness :
  js_length (two_byte_text 88) = 88%nat ∧
  String.length (two_byte_text 88) = 176%nat ∧
  validateAuth sample_now (signed_body "alice" (two_byte_text 88)) "cancel"
    FPoster = None ∧
  String.length (two_byte_text 50) = 100%nat ∧
  validateAuth sample_now (signed_body "alice" (two_byte_text 50)) "cancel"
    FPoster ≠ None.
Proof.
  split; [reflexivity|]. split; [reflexivity|]. split.
  - apply (proj2 (validateAuth_accepts_iff sample_now
                    (signed_body "alice" (two_byte_text 88)) "cancel" FPoster)).
    exists "alice", (two_byte_text 88), sample_timestamp, 1767225600000.
    repeat (split; [reflexivity || discriminate || (vm_compute; lia)|]).
    vm_compute. discriminate.
  - split; [reflexivity|]. intros Hacc.
    apply (proj1 (validateAuth_accepts_iff sample_now
                    (signed_body "alice" (two_byte_text 50)) "cancel" FPoster))
      in Hacc as (addr & sig & t & ts & _ & _ & Hsig & Hlen & _).
    injection Hsig as <-. vm_compute in Hlen. lia.
Defined.

(** X8.  [validateAuth] never looks at what the signature says: for two
    bodies with the same address and the same timestamp whose signatures are
    not empty and have the same number of code units, and for any two
    actions, the answers are the same, error text included. *)
Theorem validateAuth_signature_unchecked now body1 body2 act1 act2 addressField
    sig1 sig2 :
  body_address addressField body1 = body_address addressField body2 →
  timestamp body1 = timestamp body2 →
  signature body1 = Some sig1 →
  signature body2 = Some sig2 →
  sig1 ≠ "" → sig2 ≠ "" →
  js_length sig1 = js_length sig2 →
  validateAuth now body1 act1 addressField =
  validateAuth now body2 act2 addressField.
Proof.
  intros Haddr Hts Hsig1 Hsig2 Hne1 Hne2 Hlen. unfold validateAuth.
  rewrite Haddr, Hts, Hsig1, Hsig2. simpl.
  destruct (or_null (body_address addressField body2)); [|done].
  rewrite !decide_False by done. by rewrite Hlen.
Qed.

Lemma validateAuth_signature_unchecked_witness :
  let forged :=
    "AAAAAAAAAAAAAAAAAAAAAAAAAAAAAAAAAAAAAAAAAAAAAAAAAAAAAAAAAAAAAAAAAAAAAAAAAAAAAAAAAAAAAAAA" in
  js_length sample_signature = js_length forged ∧
  validateAuth sample_now (cancel_body "alice") "cancel" FPoster =
  validateAuth sample_now (signed_body "alice" forged) "verify" FPoster.
Proof.
  split; [reflexivity|].
  eapply validateAuth_signature_unchecked;
    reflexivity || discriminate.
Defined.

(** ** The agent upsert *)

Lemma coalesce_idem x y : coalesce x (coalesce x y) = coalesce x y.
Proof. by destruct x. Qed.

(** X9.  [ensureAgent] is idempotent: a second call with the same address
    and the same names leaves the database as the first call left it. *)
Theorem ensureAgent_idempotent db btcAddress displayName stxAddress :
  ensureAgent (ensureAgent db btcAddress displayName stxAddress)
    btcAddress displayName stxAddress =
  ensureAgent db btcAddress displayName stxAddress.
Proof.
  unfold ensureAgent. simpl. rewrite lookup_insert_eq, insert_insert_eq.
  f_equal. f_equal.
  destruct (agents db !! btcAddress) as [a|]; simpl.
  - by rewrite !coalesce_idem.
  - unfold new_agent. f_equal; by destruct (or_null _).
Qed.

(** X10.  After [ensureAgent] the address has a row.  A name or secondary
    address that is given (non-empty) is stored; one that is omitted or
    empty leaves what was stored before, and null for a new agent.  An agent
    that had a row keeps all five counters, a new one starts with all five
    at 0.  No other agent and no task, bid or activity record changes. *)
Theorem ensureAgent_row db btcAddress displayName stxAddress :
  let db' := ensureAgent db btcAddress displayName stxAddress in
  let old := agents db !! btcAddress in
  (∃ ag',
     agents db' !! btcAddress = Some ag' ∧
     (∀ n, or_null displayName = Some n → display_name ag' = Some n) ∧
     (or_null displayName = None → display_name ag' = old ≫= display_name) ∧
     (∀ s, or_null stxAddress = Some s → stx_address ag' = Some s) ∧
     (or_null stxAddress = None → stx_address ag' = old ≫= stx_address) ∧
     (old = None →
      reputation ag' = 0 ∧ tasks_posted ag' = 0 ∧ tasks_completed ag' = 0 ∧
      total_earned_sats ag' = 0 ∧ total_spent_sats ag' = 0) ∧
     (∀ ag, old = Some ag → same_ledger ag ag')) ∧
  (∀ a, a ≠ btcAddress → agents db' !! a = agents db !! a) ∧
  tasks db' = tasks db ∧ bids db' = bids db ∧ activity db' = activity db.
Proof.
  simpl. split; [|split; [intros a Hne; by rewrite lookup_insert_ne|done]].
  rewrite lookup_insert_eq. eexists. split; [done|].
  destruct (agents db !! btcAddress) as [a|]; simpl;
    (split; [by intros n ->|]); (split; [by intros ->|]);
    (split; [by intros n ->|]); (split; [by intros ->|]).
  - split; [done|]. intros ag [= <-]. by repeat split.
  - split; [done|]. done.
Qed.

(** A first call for "dave" creates a row with counters of 0; a second call
    without a name keeps the name of the first. *)
Lemma ensureAgent_row_witness :
  let db1 := ensureAgent db_posted "dave" (Some "Dave") None in
  let db2 := ensureAgent db1 "dave" (Some "") None in
  agents db_posted !! "dave" = None ∧
  (display_name <$> agents db2 !! "dave") = Some (Some "Dave") ∧
  (reputation <$> agents db1 !! "dave") = Some 0 ∧
  (tasks_posted <$> agents db1 !! "dave") = Some 0.
Proof.
  split; [vm_compute; reflexivity|]. split; [vm_compute; reflexivity|].
  destruct (ensureAgent_row db_posted "dave" (Some "Dave") None)
    as ((ag' & Hag' & _ & _ & _ & _ & Hnew & _) & _).
  destruct Hnew as (Hrep & Hposted & _); [vm_compute; reflexivity|].
  split.
  - exact (eq_trans (f_equal (fmap reputation) Hag') (f_equal Some Hrep)).
  - exact (eq_trans (f_equal (fmap tasks_posted) Hag') (f_equal Some Hposted)).
Defined.

(** ** The audit trail and the rows *)

Ltac logged :=
  right; simpl; split; [unfold succeeded; simpl; auto|];
  eexists; split; [reflexivity|]; simpl;
  given_fields; split; [congruence|reflexivity].

(** What a request does to the activity log. *)
Lemma fetch_logs now request db :
  let r := fetch now request db in
  (refused r.1 ∧ r.2 = db) ∨
  (succeeded r.1 ∧
   ∃ rec,
     activity r.2 = (activity db ++ [rec])%list ∧
     acting_address request = Some (actor rec) ∧
     match target request with
     | Some id => act_task_id rec = id
     | None => r.1 = json (TaskCreated (act_task_id rec)) 201
     end).
Proof.
  destruct request; simpl.
  - unfold create_task. split_handler;
      try (left; simpl; split; [eexists; split; [reflexivity|tauto]|reflexivity]).
    logged.
  - unfold place_bid. split_handler;
      try (left; simpl; split; [eexists; split; [reflexivity|tauto]|reflexivity]).
    logged.
  - destruct (accept_bid_outcome now id body db) as [[Hdb Href]|[_ Hok]];
      [by left|].
    right. split; [done|].
    destruct Hok as [Hcode|Hcode];
      [|exfalso; revert Hcode; unfold accept_bid; split_handler; done].
    destruct (accept_bid_succeeded _ _ _ _ Hcode)
      as (p & k & bid & t & Hp & _ & _ & _ & _ & _ & _ & ->).
    eexists. split; [reflexivity|]. simpl.
    apply or_null_Some in Hp as [-> _]. done.
  - unfold submit_work. split_handler;
      try (left; simpl; split; [eexists; split; [reflexivity|tauto]|reflexivity]).
    logged.
  - unfold verify_work. split_handler;
      try (left; simpl; split; [eexists; split; [reflexivity|tauto]|reflexivity]);
      logged.
  - unfold cancel_task. split_handler;
      try (left; simpl; split; [eexists; split; [reflexivity|tauto]|reflexivity]).
    logged.
Qed.

Lemma start_refusal now request db r :
  start now request db = inl r → refused r ∧ resp_code r ≠ 409.
Proof.
  destruct request; simpl;
    unfold start_create, start_bid, start_accept, start_submit, start_verify,
      start_cancel;
    split_handler; intros [= <-]; simpl;
    (split; [eexists; split; [reflexivity|tauto]|discriminate]).
Qed.

Lemma start_thrown now request db f :
  start now request db = inr f →
  thrown f =
  match request with
  | PostTask _ => Some (json (ErrorBody "Internal server error") 500)
  | _ => None
  end.
Proof.
  destruct request; simpl;
    unfold start_create, start_bid, start_accept, start_submit, start_verify,
      start_cancel;
    split_handler; by intros [= <-].
Qed.

Lemma advance_outcome f db :
  match advance f db with
  | (db', inl f') => activity db' = activity db ∧ thrown f' = thrown f
  | (db', inr r) =>
    (r = json (ErrorBody "Task already accepted or not open, or not your task")
           409 ∧ db' = db) ∨
    (succeeded r ∧ ∃ rec, activity db' = (activity db ++ [rec])%list)
  end.
Proof.
  destruct f; simpl; try done;
    try (right; split; [unfold succeeded; simpl; auto|by eexists]).
  - case_bool_decide as Hchanges; [|done].
    left. split; [done|].
    rewrite (sql_update_no_changes _ _ _ Hchanges). by destruct db.
  - right. split; [unfold succeeded; simpl; auto|].
    destruct ok; by eexists.
Qed.

(** X13.  The answers of a request and the audit trail.  A request is
    refused by its checks with 400, 401, 403 or 404 before any statement
    runs; or it comes in flight and each of its statements runs in turn.
    Only the last statement of a route appends an activity record, exactly
    one, and it is the statement after which the route answers 200 or 201;
    the one other answer of a statement is the 409 of the conditional update
    of the accept route, which leaves the database as it was.  When a
    statement throws, a create call answers 500 "Internal server error",
    whichever of its statements it was, and the other routes have no answer
    of their own. *)
Theorem request_outcomes :
  (∀ now request db r,
     start now request db = inl r → refused r ∧ resp_code r ≠ 409) ∧
  (∀ now request db f,
     start now request db = inr f →
     thrown f =
     match request with
     | PostTask _ => Some (json (ErrorBody "Internal server error") 500)
     | _ => None
     end) ∧
  (∀ f db,
     match advance f db with
     | (db', inl f') => activity db' = activity db ∧ thrown f' = thrown f
     | (db', inr r) =>
       (r = json (ErrorBody "Task already accepted or not open, or not your task")
              409 ∧ db' = db) ∨
       (succeeded r ∧ ∃ rec, activity db' = (activity db ++ [rec])%list)
     end).
Proof.
  split; [apply start_refusal|]. split; [apply start_thrown|].
  apply advance_outcome.
Qed.

Lemma transition_bid_offer db db' k b :
  transition db db' → bids db !! k = Some b →
  ∃ b', bids db' !! k = Some b' ∧ same_offer b b'.
Proof.
  intros Htr Hb.
  assert (next_rowid (bids db) ≠ k) as Hfresh.
  { intros <-. by rewrite next_rowid_fresh in Hb. }
  destruct Htr; rewrite ?lookup_accept_cascade; simpl;
    try (exists b; split; [done|by repeat split]).
  - rewrite lookup_insert_ne by done. exists b. split; [done|by repeat split].
  - rewrite Hb. simpl. eexists. split; [done|]. apply cascade_row_offer.
Qed.

Lemma transition_one_task db db' :
  transition db db' →
  ∃ id, ∀ id', id' ≠ id → tasks db' !! id' = tasks db !! id'.
Proof.
  intros Htr. destruct Htr; rewrite ?tasks_accept_cascade; simpl;
    try (by exists 0);
    eexists; intros id' Hne; by rewrite lookup_insert_ne.
Qed.

(** X14.  No request deletes a row or rewrites an offer: a bid that exists
    still exists afterwards with the same task, bidder, amount, message and
    signature (only its status can change); an agent that has a row still has
    one; the activity records that were there are still there, in order, at
    the head of the log; and at most one task row differs from before. *)
Theorem rows_never_deleted now request db :
  let db' := (fetch now request db).2 in
  (∀ k b, bids db !! k = Some b →
     ∃ b', bids db' !! k = Some b' ∧ same_offer b b') ∧
  (∀ a, is_Some (agents db !! a) → is_Some (agents db' !! a)) ∧
  activity db `prefix_of` activity db' ∧
  (∃ id, ∀ id', id' ≠ id → tasks db' !! id' = tasks db !! id').
Proof.
  simpl.
  destruct (fetch_outcome now request db) as [[-> _]|[Htr _]].
  - split; [intros k b Hb; exists b; split; [done|by repeat split]|].
    split; [done|]. split; [done|]. by exists 0.
  - split; [intros k b; by apply transition_bid_offer|].
    split; [intros a; by apply transition_agent_known|].
    split; [|by apply transition_one_task].
    destruct (fetch_logs now request db)
      as [[_ ->]|[_ (rec & -> & _)]]; [done|].
    by apply prefix_app_r.
Qed.

(** ** Aggregates *)

Section table_sum_facts.
Context {K : Type} `{Countable K} {A : Type}.
Implicit Types (f : A → Z) (m : gmap K A).

Lemma table_sum_ext f1 f2 m :
  (∀ k x, m !! k = Some x → f1 x = f2 x) → table_sum f1 m = table_sum f2 m.
Proof.
  unfold table_sum.
  apply (map_fold_weak_ind
    (λ r m, (∀ k x, m !! k = Some x → f1 x = f2 x) →
            r = map_fold (λ _ a acc, f2 a + acc) 0 m)).
  - by rewrite map_fold_empty.
  - intros k x m' r Hk IH Hall.
    rewrite map_fold_insert_L; [| intros; lia | done].
    rewrite IH.
    + rewrite (Hall k x); [done|apply lookup_insert_eq].
    + intros k' x' Hk'. apply (Hall k').
      rewrite lookup_insert_ne; [done|]. intros <-. congruence.
Qed.

End table_sum_facts.

(** ** New rows *)

Ltac no_new_row Hnone :=
  simpl; rewrite ?tasks_accept_cascade, ?lookup_accept_cascade; simpl;
  rewrite ?lookup_sql_update, ?Hnone; simpl; try done.

(** Only the create route adds a task, under the next id, and only after
    its checks on the fields. *)
Lemma fetch_new_task now request db id t :
  tasks db !! id = None →
  tasks (fetch now request db).2 !! id = Some t →
  id = next_rowid (tasks db) ∧ 1 ≤ task_bounty_sats t ∧
  task_poster t ≠ "" ∧ task_title t ≠ "" ∧ task_description t ≠ "".
Proof.
  intros Hnone.
  destruct request; simpl.
  - unfold create_task. split_handler; no_new_row Hnone.
    rewrite lookup_insert.
    destruct (decide (next_rowid (tasks db) = id)) as [<-|]; [|by rewrite Hnone].
    intros [= <-]. simpl. reflect_bools.
    repeat match goal with
           | E : or_null _ = Some _ |- _ => apply or_null_Some in E as [_ E]
           end.
    done.
  - unfold place_bid. split_handler; no_new_row Hnone.
  - unfold accept_bid. split_handler; no_new_row Hnone.
  - unfold submit_work. split_handler; no_new_row Hnone.
  - unfold verify_work. split_handler; no_new_row Hnone.
  - unfold cancel_task. split_handler; no_new_row Hnone.
Qed.

(** Only the bid route adds a bid, under the next id, with an amount that
    is not 0. *)
Lemma fetch_new_bid now request db k b :
  bids db !! k = None →
  bids (fetch now request db).2 !! k = Some b →
  k = next_rowid (bids db) ∧ bid_amount_sats b ≠ 0.
Proof.
  intros Hnone.
  destruct request; simpl.
  - unfold create_task. split_handler; no_new_row Hnone.
  - unfold place_bid. split_handler; no_new_row Hnone.
    rewrite lookup_insert.
    destruct (decide (next_rowid (bids db) = k)) as [<-|]; [|by rewrite Hnone].
    intros [= <-]. simpl.
    match goal with
    | E : num_or_null _ = Some _ |- _ => apply num_or_null_Some in E as [_ E]
    end.
    done.
  - unfold accept_bid. split_handler; no_new_row Hnone.
  - unfold submit_work. split_handler; no_new_row Hnone.
  - unfold verify_work. split_handler; no_new_row Hnone.
  - unfold cancel_task. split_handler; no_new_row Hnone.
Qed.

(** Once a worker is set, worker and bounty stay. *)
Lemma assigned_task_kept db db' id t w :
  consistent db → transition db db' →
  tasks db !! id = Some t → task_worker t = Some w →
  ∃ t', tasks db' !! id = Some t' ∧ task_worker t' = Some w ∧
        task_bounty_sats t' = task_bounty_sats t.
Proof.
  intros Hc Htr Ht Hw.
  destruct (transition_task_kept _ _ _ _ Htr Ht) as (t' & Ht' & _).
  exists t'. split; [done|].
  destruct (transition_task_moved _ _ _ _ Htr Ht') as
    [Hnone|Hsame|t0 ? ? Ht0 Hopen ? ? ->|t0 ? ? ? Ht0 ? ? ->
    |t0 ? ? Ht0 ? ? ->|t0 Ht0 Hopen ->];
    simplify_eq; simpl; try done;
    pose proof (open_unassigned _ Hc _ _ Ht Hopen); congruence.
Qed.

(** ** The accepted bid and its task *)

Lemma open_task_assigned db db' id t0 t' w :
  consistent db → transition db db' →
  tasks db !! id = Some t0 → task_status_of t0 = Open →
  tasks db' !! id = Some t' → task_worker t' = Some w →
  ∃ k b, bids db' !! k = Some b ∧ bid_task_id b = id ∧
         bid_status_of b = Accepted ∧ bid_bidder b = w ∧
         bid_amount_sats b = task_bounty_sats t'.
Proof.
  intros Hc Htr Ht0 Hopen.
  pose proof (open_unassigned _ Hc _ _ Ht0 Hopen) as Hnone.
  assert (next_rowid (tasks db) ≠ id) as Hfresh.
  { intros <-. by rewrite next_rowid_fresh in Ht0. }
  destruct Htr as
    [ | | id1 task bid_key bid Hbid Hid Htask Hopen1 | | | | ].
  3: { assert (∀ p d, bids d = bids db →
                 bids (accept_cascade id1 p bid_key bid d) !! bid_key
                 = Some (set_bid_status Accepted bid)) as Hacc.
       { intros p d Hd. rewrite lookup_accept_cascade, Hd, Hbid. simpl.
         unfold cascade_row. by rewrite decide_True. }
       rewrite tasks_accept_cascade. simpl. rewrite lookup_insert.
       destruct (decide (id1 = id)) as [->|]; [|congruence].
       intros Ht' Hw. injection Ht' as <-. injection Hw as <-.
       exists bid_key, (set_bid_status Accepted bid).
       split; [by apply (Hacc (task_poster task))|done]. }
  all: simpl; rewrite ?lookup_insert; try case_decide; subst;
    intros Ht' Hw; simplify_eq; simpl in *; congruence.
Qed.

Section offers.
Context (db db' : DB).
Hypothesis Hc : consistent db.
Hypothesis Hs : settled_on_bid db.
Hypothesis Htr : transition db db'.
Hypothesis Hnew_task : ∀ id t,
  tasks db !! id = None → tasks db' !! id = Some t →
  1 ≤ task_bounty_sats t ∧
  task_poster t ≠ "" ∧ task_title t ≠ "" ∧ task_description t ≠ "".
Hypothesis Hnew_bid : ∀ k b,
  bids db !! k = None → bids db' !! k = Some b → bid_amount_sats b ≠ 0.

Lemma keep_amount_nonzero k b :
  bids db' !! k = Some b → bid_amount_sats b ≠ 0.
Proof.
  intros Hb.
  destruct (transition_bid_moved _ _ _ _ Htr Hb) as
    [t Hnone|Hsame|b0 ? ? ? ? ? Hb0 ? ? ? ? ? ? ->].
  - by eapply Hnew_bid.
  - by eapply (amount_nonzero _ Hs).
  - rewrite cascade_row_amount. by eapply (amount_nonzero _ Hs).
Qed.

Lemma keep_never_withdrawn k b :
  bids db' !! k = Some b → bid_status_of b ≠ Withdrawn.
Proof.
  intros Hb.
  destruct (transition_bid_moved _ _ _ _ Htr Hb) as
    [t Hnone Hp|Hsame|b0 ? ? ? ? ? Hb0 ? ? ? ? ? ? ->].
  - congruence.
  - by eapply (never_withdrawn _ Hs).
  - pose proof (never_withdrawn _ Hs _ _ Hb0).
    unfold cascade_row. by repeat case_decide.
Qed.

Lemma keep_names_given id t :
  tasks db' !! id = Some t →
  task_poster t ≠ "" ∧ task_title t ≠ "" ∧ task_description t ≠ "".
Proof.
  intros Ht.
  destruct (transition_task_moved _ _ _ _ Htr Ht) as
    [Hnone|Hsame|t0 ? ? Ht0 ? ? ? ->|t0 ? ? ? Ht0 ? ? ->
    |t0 ? ? Ht0 ? ? ->|t0 Ht0 ? ->]; simpl;
    try (by eapply (names_given _ Hs)).
  destruct (Hnew_task _ _ Hnone Ht) as (_ & ? & ? & ?). done.
Qed.

Lemma keep_bounty_nonzero id t :
  tasks db' !! id = Some t →
  task_bounty_sats t ≠ 0 ∧ (task_worker t = None → 1 ≤ task_bounty_sats t).
Proof.
  intros Ht.
  destruct (transition_task_moved _ _ _ _ Htr Ht) as
    [Hnone|Hsame|t0 k bid Ht0 ? Hbid ? ->|t0 ? ? ? Ht0 ? ? ->
    |t0 ? ? Ht0 ? ? ->|t0 Ht0 ? ->]; simpl;
    try (by eapply (bounty_nonzero _ Hs)).
  - destruct (Hnew_task _ _ Hnone Ht) as (? & _). split; [lia|done].
  - split; [by eapply (amount_nonzero _ Hs)|done].
Qed.

Lemma keep_worker_has_bid id t w :
  tasks db' !! id = Some t → task_worker t = Some w →
  ∃ k b, bids db' !! k = Some b ∧ bid_task_id b = id ∧
         bid_status_of b = Accepted ∧ bid_bidder b = w ∧
         bid_amount_sats b = task_bounty_sats t.
Proof.
  intros Ht Hw.
  assert (∀ t0, tasks db !! id = Some t0 → task_worker t0 = Some w →
            task_bounty_sats t0 = task_bounty_sats t →
            ∃ k b, bids db' !! k = Some b ∧ bid_task_id b = id ∧
                   bid_status_of b = Accepted ∧ bid_bidder b = w ∧
                   bid_amount_sats b = task_bounty_sats t) as Hold.
  { intros t0 Ht0 Hw0 Hbounty.
    destruct (worker_has_bid _ Hs _ _ _ Ht0 Hw0) as (k & b & Hb & ? & Ha & ? & ?).
    exists k, b. split; [by eapply accepted_bid_fixed|].
    repeat (split; [done|]). congruence. }
  destruct (transition_task_moved _ _ _ _ Htr Ht) as
    [Hnone|Hsame|t0 k bid Ht0 Hopen Hbid Hid Heq|t0 ? ? ? Ht0 ? ? ->
    |t0 ? ? Ht0 ? ? ->|t0 Ht0 Hopen ->]; simpl in *.
  - congruence.
  - by eapply Hold.
  - by eapply open_task_assigned.
  - by eapply Hold.
  - by eapply Hold.
  - pose proof (open_unassigned _ Hc _ _ Ht0 Hopen). congruence.
Qed.

Lemma keep_bid_has_worker k b :
  bids db' !! k = Some b → bid_status_of b = Accepted →
  ∃ t, tasks db' !! bid_task_id b = Some t ∧
       task_worker t = Some (bid_bidder b) ∧
       task_bounty_sats t = bid_amount_sats b.
Proof.
  assert (∀ b0, bids db !! k = Some b0 → bid_status_of b0 = Accepted →
            ∃ t, tasks db' !! bid_task_id b0 = Some t ∧
                 task_worker t = Some (bid_bidder b0) ∧
                 task_bounty_sats t = bid_amount_sats b0) as Hold.
  { intros b0 Hb0 Ha.
    destruct (bid_has_worker _ Hs _ _ Hb0 Ha) as (t & Ht & Hw & Hbo).
    destruct (assigned_task_kept _ _ _ _ _ Hc Htr Ht Hw) as (t' & Ht' & Hw' & Hbo').
    exists t'. split; [done|]. split; [done|congruence]. }
  destruct Htr as
    [ | | id1 task bid_key bid Hbid Hid Htask Hopen1 | | | | ];
    rewrite ?lookup_accept_cascade, ?tasks_accept_cascade; simpl in *;
    try (by apply Hold).
  - rewrite lookup_insert. case_decide; subst; [|by apply Hold].
    intros [= <-]. done.
  - destruct (bids db !! k) as [b0|] eqn:Hb0; [|done]. simpl.
    intros [= <-]. rewrite cascade_row_task, cascade_row_bidder, cascade_row_amount.
    destruct (decide (k = bid_key)) as [->|Hk].
    + intros _. assert (b0 = bid) as -> by congruence. subst id1.
      rewrite lookup_insert_eq. eexists. split; [done|]. done.
    + unfold cascade_row. rewrite decide_False by done.
      case_decide; [done|]. by apply Hold.
Qed.

Lemma keep_rejected_lost k b :
  bids db' !! k = Some b → bid_status_of b = Rejected →
  ∃ t w, tasks db' !! bid_task_id b = Some t ∧ task_worker t = Some w.
Proof.
  intros Hb Hr.
  assert (∀ b0, bids db !! k = Some b0 → bid_status_of b0 = Rejected →
            ∃ t w, tasks db' !! bid_task_id b0 = Some t ∧ task_worker t = Some w)
    as Hold.
  { intros b0 Hb0 Hr0.
    destruct (rejected_lost _ Hs _ _ Hb0 Hr0) as (t & w & Ht & Hw).
    destruct (assigned_task_kept _ _ _ _ _ Hc Htr Ht Hw) as (t' & Ht' & Hw' & _).
    eauto. }
  destruct (transition_bid_moved _ _ _ _ Htr Hb) as
    [t Hnone Hp|Hsame|b0 id bid_key bid t0 t1 Hb0 Hbid Hid Ht0 Hopen Ht1 Has ->].
  - congruence.
  - by apply Hold.
  - rewrite cascade_row_task. revert Hr. unfold cascade_row.
    destruct (decide (k = bid_key)); [done|].
    destruct (decide (bid_task_id b0 = id ∧ bid_status_of b0 = Pending))
      as [[Htask _]|_].
    + intros _. rewrite Htask. exists t1.
      destruct (task_worker t1) as [w|] eqn:Hw; [by exists w|].
      destruct (unassigned_open _ (transition_consistent _ _ Hc Htr) _ _ Ht1 Hw);
        congruence.
    + intros Hr. rewrite <- (cascade_row_task id bid_key k b0).
      rewrite cascade_row_task. by apply Hold.
Qed.

Lemma transition_settled_on_bid : settled_on_bid db'.
Proof.
  split.
  - apply keep_worker_has_bid.
  - apply keep_bid_has_worker.
  - apply keep_rejected_lost.
  - apply keep_never_withdrawn.
  - apply keep_amount_nonzero.
  - apply keep_bounty_nonzero.
  - apply keep_names_given.
Qed.
End offers.

Lemma empty_db_settled_on_bid : settled_on_bid empty_db.
Proof. split; simpl; intros *; rewrite ?lookup_empty; done. Qed.

Lemma reachable_settled_on_bid db : reachable db → settled_on_bid db.
Proof.
  induction 1 as [|now request db Hreach IH].
  - apply empty_db_settled_on_bid.
  - destruct (fetch_outcome now request db) as [[-> _]|[Htr _]]; [done|].
    apply (transition_settled_on_bid db); try done.
    + by apply reachable_consistent.
    + intros id t Hnone Ht.
      destruct (fetch_new_task _ _ _ _ _ Hnone Ht) as (_ & ? & ? & ? & ?). done.
    + intros k b Hnone Hb.
      by destruct (fetch_new_bid _ _ _ _ _ Hnone Hb).
Qed.

(** ** The references of the schema *)

(** The record a successful request appends names a task of the new
    database. *)
Lemma fetch_logged_task now request db rec :
  activity (fetch now request db).2 = (activity db ++ [rec])%list →
  succeeded (fetch now request db).1 →
  is_Some (tasks (fetch now request db).2 !! act_task_id rec).
Proof.
  destruct request; simpl.
  - unfold create_task. split_handler; simpl;
      try (by intros _ [?|?]).
    unfold log_activity. intros Hlog%app_inj_tail _.
    destruct Hlog as [_ <-]. simpl. rewrite lookup_insert_eq. by eexists.
  - unfold place_bid. split_handler; simpl; try (by intros _ [?|?]).
    unfold log_activity. intros Hlog%app_inj_tail _.
    destruct Hlog as [_ <-]. simpl. by eexists.
  - intros Hlog [Hcode|Hcode];
      [|exfalso; revert Hcode; unfold accept_bid; split_handler; done].
    revert Hlog.
    destruct (accept_bid_succeeded _ _ _ _ Hcode)
      as (p & k & bid & t & _ & _ & _ & _ & _ & _ & _ & ->).
    rewrite tasks_accept_cascade. unfold accept_cascade, log_activity. simpl.
    intros Hlog%app_inj_tail. destruct Hlog as [_ <-]. simpl.
    rewrite lookup_insert_eq. by eexists.
  - unfold submit_work. split_handler; simpl; try (by intros _ [?|?]).
    unfold log_activity. intros Hlog%app_inj_tail _.
    destruct Hlog as [_ <-]. simpl.
    rewrite lookup_sql_update. apply fmap_is_Some. by eexists.
  - unfold verify_work. split_handler; simpl; try (by intros _ [?|?]);
      unfold log_activity; intros Hlog%app_inj_tail _;
      destruct Hlog as [_ <-]; simpl;
      rewrite lookup_sql_update; apply fmap_is_Some; by eexists.
  - unfold cancel_task. split_handler; simpl; try (by intros _ [?|?]).
    unfold log_activity. intros Hlog%app_inj_tail _.
    destruct Hlog as [_ <-]. simpl.
    rewrite lookup_sql_update. apply fmap_is_Some. by eexists.
Qed.

Lemma fetch_task_kept now request db id t :
  tasks db !! id = Some t → ∃ t', tasks (fetch now request db).2 !! id = Some t'.
Proof.
  intros Ht.
  destruct (fetch_outcome now request db) as [[-> _]|[Htr _]]; [eauto|].
  destruct (transition_task_kept _ _ _ _ Htr Ht) as (t' & Ht' & _). eauto.
Qed.

Lemma reachable_activity db rec :
  reachable db → rec ∈ activity db → is_Some (tasks db !! act_task_id rec).
Proof.
  intros Hreach. revert rec.
  induction Hreach as [|now request db Hreach IH]; intros rec.
  - simpl. by intros ?%elem_of_nil.
  - destruct (fetch_logs now request db) as [[_ ->]|[Hok (rec0 & Hlog & _)]];
      [by apply IH|].
    rewrite Hlog. intros [Hold| ->%list_elem_of_singleton]%elem_of_app.
    + destruct (IH _ Hold) as [t Ht].
      destruct (fetch_task_kept now request db _ _ Ht) as (t' & Ht').
      by eexists.
    + by apply fetch_logged_task.
Qed.

(** ** What holds of every state of the service *)

(** X15.  The foreign keys of the schema hold in every reachable database,
    so no statement of a route ever violates one: the poster and the worker
    of a task and the bidder of a bid have a row in [agents], and every bid
    and every activity record belongs to a task that exists. *)
Theorem referential_integrity db : reachable db → references_hold db.
Proof.
  intros Hreach. pose proof (reachable_consistent _ Hreach) as Hc. split.
  - apply (poster_known _ Hc).
  - intros id t w Ht Hw. by destruct (worker_known _ Hc _ _ _ Ht Hw).
  - intros k b Hb. destruct (bid_of_task _ Hc _ _ Hb) as (t & Ht & _).
    by eexists.
  - apply (bidder_known _ Hc).
  - intros rec. by apply reachable_activity.
Qed.

Lemma referential_integrity_witness :
  reachable db_submitted ∧
  is_Some (agents db_submitted !! "carol") ∧
  ∀ rec, rec ∈ activity db_submitted →
         is_Some (tasks db_submitted !! act_task_id rec).
Proof.
  split; [exact db_submitted_reachable|].
  destruct (referential_integrity db_submitted db_submitted_reachable)
    as [_ Hworker _ _ Hactivity].
  split; [|exact Hactivity].
  apply (Hworker 1
    (set_task_proof Submitted "https://x" None
       (set_task_assignment Assigned "carol" 7000
          (new_task "alice" "Build agent dashboard" "Full description" 10000
             None None (Some sample_signature))))).
  - vm_compute. reflexivity.
  - reflexivity.
Defined.

(** X16.  Nobody deals with themselves: in every reachable database the
    worker of a task is never its poster, and no bid on a task is by the
    poster of that task. *)
Theorem no_self_dealing db :
  reachable db →
  (∀ id t w, tasks db !! id = Some t → task_worker t = Some w →
     w ≠ task_poster t) ∧
  (∀ k b t, bids db !! k = Some b → tasks db !! bid_task_id b = Some t →
     bid_bidder b ≠ task_poster t).
Proof.
  intros Hreach. pose proof (reachable_consistent _ Hreach) as Hc. split.
  - intros id t w Ht Hw. by destruct (worker_known _ Hc _ _ _ Ht Hw).
  - intros k b t Hb Ht. destruct (bid_of_task _ Hc _ _ Hb) as (t' & Ht' & Hne).
    congruence.
Qed.

Lemma no_self_dealing_witness :
  reachable db_assigned ∧
  ∀ k b t, bids db_assigned !! k = Some b →
           tasks db_assigned !! bid_task_id b = Some t →
           bid_bidder b ≠ task_poster t.
Proof.
  split; [exact db_assigned_reachable|].
  exact (proj2 (no_self_dealing db_assigned db_assigned_reachable)).
Defined.

(** X31.  Workers and statuses while requests overlap.  In every state the
    service can reach, with the statements of its requests alternating in
    any way and any of them throwing, an open task has a null worker and a
    task with a null worker is open or cancelled.  No statement clears or
    replaces a worker that is set, and no statement returns a task to
    open. *)
Theorem worker_status_overlapping s id t :
  sys_reachable s →
  tasks (store s) !! id = Some t →
  (task_status_of t = Open → task_worker t = None) ∧
  (task_worker t = None →
   task_status_of t = Open ∨ task_status_of t = Cancelled) ∧
  ∀ s', sys_step s s' →
    ∃ t', tasks (store s') !! id = Some t' ∧
          (∀ w, task_worker t = Some w → task_worker t' = Some w) ∧
          (task_status_of t ≠ Open → task_status_of t' ≠ Open).
Proof.
  intros Hreach Ht. pose proof (sys_reachable_ok _ Hreach) as Hok.
  pose proof (ok_sound _ Hok) as Hso.
  split; [by eapply so_open_unassigned|].
  split; [by eapply so_unassigned_open|].
  intros s' Hstep.
  assert (evolves (store s) (store s')) as Hev.
  { destruct Hstep as [| |n f db' f' Hf Hadv|n f db' r Hf Hadv|]; simpl;
      try apply evolves_refl; by eapply advance_evolves. }
  destruct (ev_task _ _ Hev _ _ Ht) as (t' & Ht' & _ & Hworker).
  exists t'. split; [done|]. split.
  - intros w Hw. by destruct (Hworker w Hw).
  - intros Hs.
    destruct (sys_step_never_reopens _ _ _ _ Hstep Ht Hs) as (t1 & Ht1 & Hs1).
    congruence.
Qed.

Lemma worker_status_overlapping_witness :
  sys_reachable accepted_meanwhile ∧
  (task_worker <$> tasks (store accepted_meanwhile) !! 1) = Some (Some "carol") ∧
  ∃ t', tasks (store cancelled_after_accept) !! 1 = Some t' ∧
        task_worker t' = Some "carol" ∧ task_status_of t' ≠ Open.
Proof.
  assert (sys_reachable accepted_meanwhile) as Hreach.
  { do 2 apply play_reachable.
    apply reachable_sys_reachable, db_bids_reachable. }
  split; [exact Hreach|]. split; [vm_compute; reflexivity|].
  pose (t := set_task_assignment Assigned "carol" 7000
               (new_task "alice" "Build agent dashboard" "Full description" 10000
                  None None (Some sample_signature))).
  assert (tasks (store accepted_meanwhile) !! 1 = Some t) as Ht
    by (vm_compute; reflexivity).
  destruct (worker_status_overlapping accepted_meanwhile 1 t Hreach Ht)
    as (_ & _ & Hnext).
  destruct (Hnext cancelled_after_accept) as (t' & Ht' & Hworker & Hstatus).
  - apply (step_answered accepted_meanwhile 1
             (CancelChecked 1 "alice"
                (new_task "alice" "Build agent dashboard" "Full description"
                   10000 None None (Some sample_signature)))
             (store cancelled_after_accept) (json Success 200));
      vm_compute; reflexivity.
  - exists t'. split; [exact Ht'|]. split.
    + apply Hworker. reflexivity.
    + apply Hstatus. discriminate.
Defined.

(** X17.  The accepted bid and its task while requests overlap.  In every
    state the service can reach, the task of an accepted bid has the bidder
    as its worker and the amount as its bounty, and the task of a rejected
    bid has a worker.  The converse fails between the two statements of the
    accept route: when an accept call has run its conditional update and not
    yet its batch, its task already has the bidder as worker and the amount
    as bounty while every bid of the task is still pending; and no other
    request is at that point for the same task. *)
Theorem accepted_bid_matches_task s :
  sys_reachable s →
  (∀ k b, bids (store s) !! k = Some b → bid_status_of b = Accepted →
     ∃ t, tasks (store s) !! bid_task_id b = Some t ∧
          task_worker t = Some (bid_bidder b) ∧
          task_bounty_sats t = bid_amount_sats b) ∧
  (∀ k b, bids (store s) !! k = Some b → bid_status_of b = Rejected →
     ∃ t w, tasks (store s) !! bid_task_id b = Some t ∧
            task_worker t = Some w) ∧
  (∀ n id p bid_key bid,
     inflight s !! n = Some (AcceptUpdated id p bid_key bid) →
     (∃ t, tasks (store s) !! id = Some t ∧
           task_worker t = Some (bid_bidder bid) ∧
           task_bounty_sats t = bid_amount_sats bid) ∧
     (∀ k b, bids (store s) !! k = Some b → bid_task_id b = id →
        bid_status_of b = Pending) ∧
     (∀ m f, inflight s !! m = Some f → updating f = Some id → m = n)).
Proof.
  intros Hreach. pose proof (sys_reachable_ok _ Hreach) as Hok.
  pose proof (ok_sound _ Hok) as Hso.
  split; [apply (so_accepted _ Hso)|]. split.
  - intros k b Hb Hst.
    destruct (so_decided _ Hso k b Hb) as (_ & Htask); [congruence|done].
  - intros n id p bid_key bid Hf.
    destruct (ok_inflight _ Hok _ _ Hf) as (_ & _ & Htask & Hpending).
    split; [done|]. split; [done|].
    intros m f Hm Hup. by eapply (ok_one_updating _ Hok).
Qed.

Lemma accepted_bid_matches_task_witness :
  sys_reachable accept_half_done ∧
  inflight accept_half_done !! 1%nat =
    Some (AcceptUpdated 1 "alice" 2 sample_bid_carol) ∧
  (∃ t, tasks (store accept_half_done) !! 1 = Some t ∧
        task_worker t = Some "carol" ∧ task_bounty_sats t = 7000) ∧
  (bid_status_of <$> bids (store accept_half_done) !! 2) = Some Pending.
Proof.
  assert (sys_reachable accept_half_done) as Hreach.
  { apply play_reachable, reachable_sys_reachable, db_bids_reachable. }
  assert (inflight accept_half_done !! 1%nat =
          Some (AcceptUpdated 1 "alice" 2 sample_bid_carol)) as Hf
    by (vm_compute; reflexivity).
  split; [exact Hreach|]. split; [exact Hf|].
  destruct (accepted_bid_matches_task accept_half_done Hreach)
    as (_ & _ & Hhalf).
  destruct (Hhalf 1%nat 1 "alice" 2 sample_bid_carol Hf) as (Htask & Hpending & _).
  split; [exact Htask|].
  assert (bids (store accept_half_done) !! 2 = Some sample_bid_carol) as Hb
    by (vm_compute; reflexivity).
  exact (eq_trans (f_equal (fmap bid_status_of) Hb)
           (f_equal Some (Hpending 2 sample_bid_carol Hb eq_refl))).
Defined.

(** X18.  The bids while requests overlap.  In every state the service can
    reach no bid is withdrawn, since no statement writes that status; the
    task of a bid exists and was posted by somebody else; and while that
    task has no worker, whether it is open or was cancelled, the bid is
    pending: cancelling does not reject the bids.  A task with a worker can
    have pending bids: a bid call that passed its checks while the task was
    open inserts its bid after the accept batch has run. *)
Theorem bid_dispositions s :
  sys_reachable s →
  ∀ k b, bids (store s) !! k = Some b →
    bid_status_of b ≠ Withdrawn ∧
    ∃ t, tasks (store s) !! bid_task_id b = Some t ∧
         bid_bidder b ≠ task_poster t ∧
         (task_worker t = None → bid_status_of b = Pending).
Proof.
  intros Hreach k b Hb. pose proof (sys_reachable_ok _ Hreach) as Hok.
  pose proof (ok_sound _ Hok) as Hso.
  destruct (so_bid_task _ Hso _ _ Hb) as (t & Ht & Hne).
  split.
  - destruct (decide (bid_status_of b = Pending)) as [Hp|Hp]; [congruence|].
    by destruct (so_decided _ Hso k b Hb Hp).
  - exists t. split; [done|]. split; [done|]. intros Hnone.
    destruct (decide (bid_status_of b = Pending)) as [Hp|Hp]; [done|].
    destruct (so_decided _ Hso k b Hb Hp) as (_ & t' & w & Ht' & Hw).
    congruence.
Qed.

Lemma bid_dispositions_witness :
  sys_reachable bid_after_accept ∧
  (task_worker <$> tasks (store bid_after_accept) !! 1) = Some (Some "carol") ∧
  (bid_task_id <$> bids (store bid_after_accept) !! 3) = Some 1 ∧
  (bid_status_of <$> bids (store bid_after_accept) !! 3) = Some Pending ∧
  ∀ k b, bids (store bid_after_accept) !! k = Some b →
         bid_status_of b ≠ Withdrawn.
Proof.
  assert (sys_reachable bid_after_accept) as Hreach.
  { do 2 apply play_reachable.
    apply reachable_sys_reachable, db_bids_reachable. }
  split; [exact Hreach|]. split; [vm_compute; reflexivity|].
  split; [vm_compute; reflexivity|]. split; [vm_compute; reflexivity|].
  intros k b Hb.
  exact (proj1 (bid_dispositions bid_after_accept Hreach k b Hb)).
Defined.

(** X30.  No statement deletes a row.  In every state the service can
    reach, whatever step comes next (a statement of any request in flight,
    a statement that throws, a new request), every task that exists still
    exists with the same poster, title, description, tags, deadline and
    poster signature and, if it has a worker, with the same worker and
    bounty; every bid still exists with the same task, bidder, amount,
    message and signature; every agent that has a row still has one; and the
    activity records that were there are still there, in order, at the head
    of the log. *)
Theorem statements_keep_rows s s' :
  sys_reachable s → sys_step s s' → evolves (store s) (store s').
Proof.
  intros Hreach Hstep. pose proof (sys_reachable_ok _ Hreach) as Hok.
  pose proof (ok_sound _ Hok) as Hso.
  destruct Hstep as [| |n f db' f' Hf Hadv|n f db' r Hf Hadv|]; simpl;
    try apply evolves_refl; by eapply advance_evolves.
Qed.

Lemma statements_keep_rows_witness :
  sys_reachable verified_once ∧
  evolves (store verified_once) (store verified_twice).
Proof.
  assert (sys_reachable verified_once) as Hreach.
  { do 2 apply play_reachable.
    apply reachable_sys_reachable, db_submitted_reachable. }
  split; [exact Hreach|].
  apply (statements_keep_rows verified_once verified_twice Hreach).
  apply (step_answered verified_once 2
           (VerifyChecked 1 (verify_body "alice" true None) "alice" true
              (set_task_proof Submitted "https://x" None
                 (set_task_assignment Assigned "carol" 7000
                    (new_task "alice" "Build agent dashboard" "Full description"
                       10000 None None (Some sample_signature)))))
           (store verified_twice) (json (StatusReport "verified") 200));
    vm_compute; reflexivity.
Defined.

(** X32.  An accept wins once.  Once a task is not open (it has been
    assigned, or cancelled), whatever steps the service takes afterwards,
    with requests overlapping in any way, the task is still not open, and
    the conditional update of every accept call for it, whoever sends it
    and whatever bid it names, changes no row: the call answers 409 and the
    database is left as it is. *)
Theorem accept_wins_once s s' id t :
  tasks (store s) !! id = Some t → task_status_of t ≠ Open →
  rtc sys_step s s' →
  (∃ t', tasks (store s') !! id = Some t' ∧ task_status_of t' ≠ Open) ∧
  ∀ p bid_key bid,
    advance (AcceptFound id p bid_key bid) (store s') =
    (store s',
     inr (json (ErrorBody "Task already accepted or not open, or not your task")
            409)).
Proof.
  intros Ht Hs Hsteps.
  destruct (steps_never_reopen _ _ _ _ Hsteps Ht Hs) as (t' & Ht' & Hs').
  split; [by exists t'|]. intros p bid_key bid.
  by eapply accept_update_refused.
Qed.

Lemma accept_wins_once_witness :
  (task_status_of <$> tasks (store accept_half_done) !! 1) = Some Assigned ∧
  ∀ events,
    (advance (AcceptFound 1 "alice" 1 sample_bid_bob)
       (store (play events accept_half_done))).2 =
    inr (json (ErrorBody "Task already accepted or not open, or not your task")
           409).
Proof.
  split; [vm_compute; reflexivity|]. intros events.
  destruct (accept_wins_once accept_half_done (play events accept_half_done) 1
              (set_task_assignment Assigned "carol" 7000
                 (new_task "alice" "Build agent dashboard" "Full description"
                    10000 None None (Some sample_signature))))
    as [_ Hlost].
  - vm_compute. reflexivity.
  - discriminate.
  - apply play_steps.
  - exact (f_equal snd (Hlost "alice" 1 sample_bid_bob)).
Defined.

(** X19.  What the truthiness checks of the routes let through, in every
    reachable database: poster, title and description of a task are not
    empty; a bounty is never 0 and is at least 1 as long as the task has no
    worker; and the amount of a bid is never 0.  (A negative amount passes
    the bid route, and becomes the bounty when that bid is accepted.) *)
Theorem stored_fields_nonempty db :
  reachable db →
  (∀ id t, tasks db !! id = Some t →
     task_poster t ≠ "" ∧ task_title t ≠ "" ∧ task_description t ≠ "" ∧
     task_bounty_sats t ≠ 0 ∧
     (task_worker t = None → 1 ≤ task_bounty_sats t)) ∧
  (∀ k b, bids db !! k = Some b → bid_amount_sats b ≠ 0).
Proof.
  intros Hreach. pose proof (reachable_settled_on_bid _ Hreach) as Hs.
  split; [|apply (amount_nonzero _ Hs)].
  intros id t Ht.
  destruct (names_given _ Hs _ _ Ht) as (? & ? & ?).
  destruct (bounty_nonzero _ Hs _ _ Ht) as (? & ?). done.
Qed.

Lemma stored_fields_nonempty_witness :
  let db := serve [PostBid 1 (bid_body "bob" (-5));
                   PostAccept 1 (accept_body "alice" 1)] db_posted in
  reachable db ∧
  (task_bounty_sats <$> tasks db !! 1) = Some (-5) ∧
  ∀ k b, bids db !! k = Some b → bid_amount_sats b ≠ 0.
Proof.
  assert (reachable (serve [PostBid 1 (bid_body "bob" (-5));
                            PostAccept 1 (accept_body "alice" 1)] db_posted))
    as Hreach by (apply reachable_serve; exact db_posted_reachable).
  split; [exact Hreach|]. split; [vm_compute; reflexivity|].
  exact (proj2 (stored_fields_nonempty _ Hreach)).
Defined.

(** ** The bid count of the task list *)

(** X25.  The [bid_count] that [GET /api/tasks] shows for a task counts the
    pending bids only.  In every state the service can reach it is the
    number of all bids of the task as long as the task has no worker,
    cancelled tasks included.  Once the task has a worker the count need not
    be 0: a bid inserted after the accept batch stays pending and is
    counted. *)
Theorem bid_count_follows_worker s id t :
  sys_reachable s →
  tasks (store s) !! id = Some t →
  task_worker t = None →
  bid_count id (store s) = sql_count (bids_on id) (bids (store s)).
Proof.
  intros Hreach Ht Hnone. pose proof (sys_reachable_ok _ Hreach) as Hok.
  pose proof (ok_sound _ Hok) as Hso.
  unfold bid_count, sql_count. apply table_sum_ext. intros k b Hb.
  unfold pending_on, bids_on. case_bool_decide as Hid; [subst id|done].
  simpl.
  destruct (decide (bid_status_of b = Pending)) as [Hp|Hp];
    [by rewrite bool_decide_eq_true_2|].
  destruct (so_decided _ Hso k b Hb Hp) as (_ & t' & w & Ht' & Hw).
  congruence.
Qed.

Lemma bid_count_follows_worker_witness :
  sys_reachable (idle db_bids) ∧
  bid_count 1 db_bids = sql_count (bids_on 1) (bids db_bids) ∧
  sql_count (bids_on 1) (bids db_bids) = 2 ∧
  bid_count 1 (store bid_after_accept) = 1 ∧
  sql_count (bids_on 1) (bids (store bid_after_accept)) = 3.
Proof.
  assert (sys_reachable (idle db_bids)) as Hreach
    by apply reachable_sys_reachable, db_bids_reachable.
  split; [exact Hreach|]. split.
  - apply (bid_count_follows_worker (idle db_bids) 1
             (new_task "alice" "Build agent dashboard" "Full description" 10000
                None None (Some sample_signature)) Hreach).
    + vm_compute. reflexivity.
    + reflexivity.
  - split; [vm_compute; reflexivity|]. split; vm_compute; reflexivity.
Defined.

(** ** The pager of the task list *)

Lemma foldl_click_multiple limit clicks k :
  0 < limit → 0 ≤ k →
  ∃ k', 0 ≤ k' ∧ foldl (click limit) (k * limit) clicks = k' * limit.
Proof.
  intros Hlimit. revert k.
  induction clicks as [|c clicks IH]; intros k Hk; simpl.
  - by exists k.
  - destruct c; simpl.
    + destruct (decide (k = 0)) as [->|Hne].
      * replace (Z.max 0 (0 * limit - limit)) with (0 * limit) by lia.
        by apply IH.
      * replace (Z.max 0 (k * limit - limit)) with ((k - 1) * limit) by nia.
        apply IH. lia.
    + replace (k * limit + limit) with ((k + 1) * limit) by lia.
      apply IH. lia.
Qed.

(** X27.  The pager of the front end and the [hasMore] flag of
    [GET /api/tasks] agree.  Whatever buttons were clicked, the offset is a
    multiple of the limit and not negative; the "next" button is enabled
    exactly when the page number shown is below the page total shown, and the
    "prev" button is disabled exactly on page 1. *)
Theorem pager_agrees_with_label limit clicks total :
  0 < limit →
  0 ≤ pager_offset limit clicks ∧
  (limit | pager_offset limit clicks) ∧
  (hasMore (pager_offset limit clicks) limit total = true ↔
   page_number (pager_offset limit clicks) limit < page_total total limit) ∧
  (pager_offset limit clicks = 0 ↔
   page_number (pager_offset limit clicks) limit = 1).
Proof.
  intros Hlimit. unfold pager_offset.
  destruct (foldl_click_multiple limit clicks 0 Hlimit) as (k & Hk & Heq);
    [done|].
  rewrite Z.mul_0_l in Heq. rewrite Heq.
  unfold hasMore, page_number, page_total.
  rewrite Z.div_mul by lia. rewrite bool_decide_eq_true.
  split; [nia|]. split; [by exists k|]. split; [split|nia].
  - intros Hmore.
    assert (- total / limit < - (k + 1)); [|lia].
    apply Z.div_lt_upper_bound; [done|nia].
  - intros Hpage.
    destruct (decide (k * limit + limit < total)) as [|Hno]; [done|].
    assert (- (k + 1) ≤ - total / limit); [|lia].
    apply Z.div_le_lower_bound; [done|nia].
Qed.

Lemma pager_agrees_with_label_witness :
  pager_offset 50 [ClickNext; ClickNext; ClickPrev] = 50 ∧
  page_number 50 50 = 2 ∧ page_total 120 50 = 3 ∧
  hasMore (pager_offset 50 [ClickNext; ClickNext; ClickPrev]) 50 120 = true.
Proof.
  split; [reflexivity|]. split; [reflexivity|]. split; [reflexivity|].
  apply (pager_agrees_with_label 50 [ClickNext; ClickNext; ClickPrev] 120).
  - lia.
  - vm_compute. reflexivity.
Defined.

(** ** Display helpers *)

(** X28.  [truncAddr] shortens long addresses only.  It answers "?" for a
    missing or empty address; otherwise the answer starts with the first 8
    code units of the address, ends with its last 6, and has
    [min 8 n + 3 + min 6 n] code units for an address of [n]: 17 when the
    address has 8 or more, and more than the address itself when the address
    has 14 or fewer. *)
Theorem truncAddr_length (a : option (list N)) :
  (a = None ∨ a = Some [] → truncAddr a = [63%N]) ∧
  (∀ s, a = Some s → s ≠ [] →
     take 8 s `prefix_of` truncAddr a ∧
     drop (length s - 6) s `suffix_of` truncAddr a ∧
     length (truncAddr a) =
       ((8 `min` length s) + 3 + (6 `min` length s))%nat ∧
     ((8 ≤ length s)%nat → length (truncAddr a) = 17%nat) ∧
     ((length s ≤ 14)%nat → (length s < length (truncAddr a))%nat)) ∧
  (length (truncAddr a) ≤ 17)%nat.
Proof.
  assert (∀ s : list N,
            length (take 8 s ++ [46%N; 46%N; 46%N] ++ drop (length s - 6) s) =
            ((8 `min` length s) + 3 + (6 `min` length s))%nat) as Hlen.
  { intros s. rewrite !length_app, length_take, length_drop.
    change (length [46%N; 46%N; 46%N]) with 3%nat. lia. }
  split; [by intros [->| ->]|]. split.
  - intros s -> Hne. destruct s as [|c s]; [done|].
    unfold truncAddr. rewrite Hlen.
    split; [by apply prefix_app_r|].
    split; [rewrite app_assoc; by apply suffix_app_r|]. lia.
  - destruct a as [[|c s]|]; unfold truncAddr; [simpl; lia| |simpl; lia].
    rewrite Hlen. lia.
Qed.

(** An address of three code units, "abc", comes out as "abc...abc". *)
Lemma truncAddr_length_witness :
  truncAddr (Some [97%N; 98%N; 99%N]) =
    [97%N; 98%N; 99%N; 46%N; 46%N; 46%N; 97%N; 98%N; 99%N] ∧
  (length [97%N; 98%N; 99%N] < length (truncAddr (Some [97%N; 98%N; 99%N])))%nat.
Proof.
  split; [reflexivity|].
  destruct (truncAddr_length (Some [97%N; 98%N; 99%N])) as (_ & Hs & _).
  destruct (Hs [97%N; 98%N; 99%N] eq_refl) as (_ & _ & _ & _ & Hlonger);
    [discriminate|].
  apply Hlonger. simpl. lia.
Defined.

Lemma timeAgo_roundings d :
  (d / 60000 < 1 ↔ d < 60000) ∧ (d / 60000 < 60 ↔ d < 3600000) ∧
  d / 60000 / 60 = d / 3600000 ∧ d / 60000 / 60 / 24 = d / 86400000 ∧
  (d / 3600000 < 24 ↔ d < 86400000).
Proof.
  rewrite !Z.div_div by lia. change (60000 * 60) with 3600000.
  change (3600000 * 24) with 86400000.
  repeat split; try reflexivity; intros; Z.div_mod_to_equations; lia.
Qed.

(** X29.  [timeAgo] shows one unit, rounded down.  With [d] the
    milliseconds between the time stamp and now: "just now" below one minute,
    also for a time stamp in the future; the whole minutes, 1 to 59, below one
    hour; the whole hours, 1 to 23, below one day; and the whole days from
    then on.  The nested roundings of the code give the same number as one
    division of [d]. *)
Theorem timeAgo_units (now t : Z) :
  (now - t < 60000 → timeAgo now (Some t) = "just now") ∧
  (60000 ≤ now - t < 3600000 →
   timeAgo now (Some t) = pretty ((now - t) / 60000) +:+ "m ago" ∧
   1 ≤ (now - t) / 60000 ≤ 59) ∧
  (3600000 ≤ now - t < 86400000 →
   timeAgo now (Some t) = pretty ((now - t) / 3600000) +:+ "h ago" ∧
   1 ≤ (now - t) / 3600000 ≤ 23) ∧
  (86400000 ≤ now - t →
   timeAgo now (Some t) = pretty ((now - t) / 86400000) +:+ "d ago" ∧
   1 ≤ (now - t) / 86400000).
Proof.
  unfold timeAgo. cbv zeta.
  destruct (timeAgo_roundings (now - t)) as (Hm & Hm60 & -> & -> & Hh).
  destruct (Z.ltb_spec ((now - t) / 60000) 1) as [H1|H1];
    destruct (Z.ltb_spec ((now - t) / 60000) 60) as [H2|H2];
    destruct (Z.ltb_spec ((now - t) / 3600000) 24) as [H3|H3];
    (split; [intros ?|split; [intros ?|split; [intros ?|intros ?]]]);
    first [ reflexivity
          | exfalso; lia
          | split; [reflexivity|Z.div_mod_to_equations; lia]
          | exfalso; Z.div_mod_to_equations; lia ].
Qed.
